(** * Staged document lifecycle of the clinic patient-records application

    A shallow embedding of the edit-patient page
    (src/app/(protected)/patients/edit/[id]/page.tsx), of the patient delete
    dialog (src/components/PatientDeleteDialog.tsx) and of the dashboard's
    delete handler (src/app/(protected)/dashboard/page.tsx), together with
    the properties their specification states about them.

    Conventions of the embedding.
    - React state is passed explicitly: a handler is a function from the
      state before to the state after; [setPatient (fun prev => ...)] becomes
      a function on the patient object.
    - A JavaScript array is a list of slots, so that the arrays the handlers
      can build by writing past the end ([a[i] = v] extends the array) are
      values of the model.
    - A timestamp is the integer its [new Date(t).getTime()] yields
      (milliseconds since the epoch).  Dates for which [getTime()] is [NaN]
      are outside the model: the comparator of the page is then inconsistent
      and ECMAScript leaves the order produced by [sort] unspecified.
    - An index is an integer ([Z]); the handlers' own guards deal with the
      negative ones.
    - The hook [useDocumentManager] (the pending operation log, commit and
      rollback) and the server side of the patient deletion are not part of
      these files; they are modelled from the specification, and every
      definition that is says so. *)

From Stdlib Require Import ZArith List Bool Lia Sorted Permutation.
From stdpp Require Import base option list strings gmap.
Import ListNotations.
Local Open Scope Z_scope.

(** ** Exceptions *)

(** A computation that may throw: [Returns v] or [Throws msg]. *)
Inductive Outcome (A : Type) : Type :=
| Returns (a : A)
| Throws (msg : string).
Arguments Returns {A} a.
Arguments Throws {A} msg.

Definition bindO {A B} (m : Outcome A) (k : A -> Outcome B) : Outcome B :=
  match m with
  | Returns a => k a
  | Throws e => Throws e
  end.

Notation "'let*' x ':=' m 'in' k" := (bindO m (fun x => k))
  (at level 10, x name, m at level 100, k at level 200, only parsing).

(** ** JavaScript arrays *)

Module JsArray.

(** One index of an array: absent (a hole), present with the value
    [undefined], present with [null], or present with an element. *)
Inductive slot (A : Type) : Type :=
| Hole
| Undefined
| Null
| Elem (a : A).
Arguments Hole {A}.
Arguments Undefined {A}.
Arguments Null {A}.
Arguments Elem {A} a.

Section Ops.
Context {A : Type}.

(** [a.length] *)
Definition length (a : list (slot A)) : Z := Z.of_nat (List.length a).

(** [a[i]]: a hole and an index out of range both read as [undefined]. *)
Definition get (a : list (slot A)) (i : Z) : slot A :=
  if i <? 0 then Undefined
  else match nth_error a (Z.to_nat i) with
       | Some Hole | None => Undefined
       | Some s => s
       end.

(** [!v] for a slot's value: only an element (an object) is truthy. *)
Definition falsy (s : slot A) : bool :=
  match s with Elem _ => false | _ => true end.

(** [[...a]]: the copy is dense, holes are read as [undefined]. *)
Definition spread (a : list (slot A)) : list (slot A) :=
  map (fun s => match s with Hole => Undefined | _ => s end) a.

Fixpoint replace_at (n : nat) (v : slot A) (a : list (slot A)) : list (slot A) :=
  match a, n with
  | [], _ => []
  | _ :: a', O => v :: a'
  | s :: a', S n' => s :: replace_at n' v a'
  end.

(** The array indices are the integers from [0] to [2^32 - 2]; an array
    has at most [2^32 - 1] slots. *)
Definition index_limit : Z := 4294967295.

(** [a[i] = v].  In range the slot is overwritten; at or past the end the
    array grows to length [i + 1], the indices in between staying holes.
    A negative [i], and an [i] from [2^32 - 1] on, names a property that is
    not an array index: the assignment leaves the indexed slots and the
    length alone, and the property it sets, which neither a spread copy
    nor [JSON.stringify] sees, is not kept.  (An index in range is an array
    index, an array having at most [2^32 - 1] slots.) *)
Definition set (a : list (slot A)) (i : Z) (v : slot A) : list (slot A) :=
  if i <? 0 then a
  else if i <? length a then replace_at (Z.to_nat i) v a
  else if i <? index_limit then a ++ repeat Hole (Z.to_nat (i - length a)) ++ [v]
  else a.

(** [a.filter((x, i) => keep(x, i))]: holes are skipped, every other
    slot is offered to the callback with its index. *)
Fixpoint filter_from (keep : slot A -> Z -> bool) (i : Z) (a : list (slot A))
  : list (slot A) :=
  match a with
  | [] => []
  | Hole :: a' => filter_from keep (i + 1) a'
  | s :: a' =>
      if keep s i then s :: filter_from keep (i + 1) a'
      else filter_from keep (i + 1) a'
  end.
Definition filter (keep : slot A -> Z -> bool) (a : list (slot A)) :=
  filter_from keep 0 a.

(** The slots [sort] hands to the comparator: present and not
    [undefined]. *)
Definition is_value (s : slot A) : bool :=
  match s with Null | Elem _ => true | _ => false end.
Definition is_undefined (s : slot A) : bool :=
  match s with Undefined => true | _ => false end.
Definition is_hole (s : slot A) : bool :=
  match s with Hole => true | _ => false end.

Section Sort.
(** The comparator may throw; a negative or zero result keeps [x]
    before [y]. *)
Variable cmp : slot A -> slot A -> Outcome Z.

Fixpoint insert (x : slot A) (l : list (slot A)) : Outcome (list (slot A)) :=
  match l with
  | [] => Returns [x]
  | y :: l' =>
      let* c := cmp x y in
      if c <=? 0 then Returns (x :: y :: l')
      else let* r := insert x l' in Returns (y :: r)
  end.

Fixpoint sort_values (l : list (slot A)) : Outcome (list (slot A)) :=
  match l with
  | [] => Returns []
  | x :: l' => let* s := sort_values l' in insert x s
  end.

(** [a.sort(cmp)].  ECMAScript: the present values are sorted, stably,
    [undefined] after every other value and without a call of the
    comparator; the holes end up last and the length is kept.  For a
    consistent comparator every stable sort gives the list that the
    insertion sort above gives. *)
Definition sort (a : list (slot A)) : Outcome (list (slot A)) :=
  let* sorted := sort_values (List.filter is_value a) in
  Returns (sorted
             ++ List.filter is_undefined a
             ++ List.filter is_hole a).
End Sort.
End Ops.
End JsArray.
Import JsArray.

(** ** Data model *)

(** A history record.  The interface [IHistoryRecord] is declared outside
    the files at hand; the page reads and writes [timestamp] and
    [document_urls] (which may be missing: [record.document_urls || []]);
    [notes] stands for the rest of the record's content. *)
Record IHistoryRecord : Type := mkRecord {
  timestamp : Z;
  document_urls : option (list string);
  notes : option string
}.

(** [Partial<IPatient>], the type of the edit buffer. *)
Record Patient : Type := mkPatient {
  _id : option string;
  name : option string;
  HN_code : option string;
  ID_code : option string;
  lastVisit : option Z;
  history : option (list (slot IHistoryRecord))
}.

Definition set_history (h : list (slot IHistoryRecord)) (p : Patient) : Patient :=
  {| _id := _id p; name := name p; HN_code := HN_code p; ID_code := ID_code p;
     lastVisit := lastVisit p; history := Some h |}.

Definition set_document_urls (d : list string) (r : IHistoryRecord) : IHistoryRecord :=
  {| timestamp := timestamp r; document_urls := Some d; notes := notes r |}.

(** [{...s, timestamp: t}]: spreading [undefined] or [null] contributes no
    property. *)
Definition with_timestamp (s : slot IHistoryRecord) (t : Z) : IHistoryRecord :=
  match s with
  | Elem r => {| timestamp := t; document_urls := document_urls r; notes := notes r |}
  | _ => {| timestamp := t; document_urls := None; notes := None |}
  end.

(** The comparator of the page:
    [(a, b) => new Date(b.timestamp).getTime() - new Date(a.timestamp).getTime()].
    Reading [.timestamp] of [null] throws a TypeError. *)
Definition getTime (s : slot IHistoryRecord) : Outcome Z :=
  match s with
  | Elem r => Returns (timestamp r)
  | _ => Throws "TypeError: cannot read properties of null"
  end.

Definition newestFirst (a b : slot IHistoryRecord) : Outcome Z :=
  let* dateA := getTime a in
  let* dateB := getTime b in
  Returns (dateB - dateA).

(** ** Edit buffer: the handlers of the page *)

(** [getActualRecordIndex]: the display index is used directly. *)
Definition getActualRecordIndex (displayIndex : Z) : Z := displayIndex.

(** The [onAddDocument] callback given to the document manager. *)
Definition onAddDocument (recordIndex : Z) (url : string) (prev : Patient) : Patient :=
  match history prev with
  | None => prev
  | Some h =>
      let actualIndex := getActualRecordIndex recordIndex in
      if (actualIndex <? 0) || (actualIndex >=? JsArray.length h) then prev
      else
        let updatedHistory := spread h in
        match get updatedHistory actualIndex with
        | Elem record =>
            set_history
              (set updatedHistory actualIndex
                 (Elem (set_document_urls
                          (default [] (document_urls record) ++ [url]) record)))
              prev
        | _ => prev
        end
  end.

(** [urls.filter((_, i) => i !== documentIndex)] *)
Fixpoint remove_index_from (i documentIndex : Z) (urls : list string) : list string :=
  match urls with
  | [] => []
  | u :: urls' =>
      if i =? documentIndex then remove_index_from (i + 1) documentIndex urls'
      else u :: remove_index_from (i + 1) documentIndex urls'
  end.

(** The [onRemoveDocument] callback given to the document manager. *)
Definition onRemoveDocument (recordIndex documentIndex : Z) (prev : Patient) : Patient :=
  match history prev with
  | None => prev
  | Some h =>
      let actualIndex := getActualRecordIndex recordIndex in
      if (actualIndex <? 0) || (actualIndex >=? JsArray.length h) then prev
      else
        let updatedHistory := spread h in
        match get updatedHistory actualIndex with
        | Elem record =>
            match document_urls record with
            | None => prev
            | Some urls =>
                if (documentIndex <? 0)
                   || (documentIndex >=? Z.of_nat (List.length urls))
                then prev
                else
                  set_history
                    (set updatedHistory actualIndex
                       (Elem (set_document_urls
                                (remove_index_from 0 documentIndex urls) record)))
                    prev
            end
        | _ => prev
        end
  end.

(** [handleAddRecord]: append, then sort newest first.  The sort runs inside
    the state updater, so an exception of the comparator is an exception of
    the update. *)
Definition handleAddRecord (newRecord : IHistoryRecord) (prev : Patient) : Outcome Patient :=
  let updatedHistory := spread (default [] (history prev)) ++ [Elem newRecord] in
  let* sortedHistory := sort newestFirst updatedHistory in
  Returns (set_history sortedHistory prev).

(** [handleUpdateRecord]: the record at [index] is replaced; nothing else is
    done to the history. *)
Definition handleUpdateRecord (index : Z) (updatedRecord : IHistoryRecord) (prev : Patient)
  : Patient :=
  match history prev with
  | None => prev
  | Some h => set_history (set (spread h) index (Elem updatedRecord)) prev
  end.

(** [handleUpdateRecordDate]: the timestamp at [index] is replaced, then the
    history is sorted newest first. *)
Definition handleUpdateRecordDate (index : Z) (newDate : Z) (prev : Patient)
  : Outcome Patient :=
  match history prev with
  | None => Returns prev
  | Some h =>
      let updatedHistory := spread h in
      let updatedHistory :=
        set updatedHistory index
          (Elem (with_timestamp (get updatedHistory index) newDate)) in
      let* sortedHistory := sort newestFirst updatedHistory in
      Returns (set_history sortedHistory prev)
  end.

(** ** JSON copies *)

(** [JSON.parse(JSON.stringify(p))], the deep copy the page takes of a
    patient object.  In an array a hole and [undefined] are written as
    [null]; a property whose value is [undefined] is left out, which an
    optional field already says; a date is written as the string of its
    instant, which is what a timestamp is here. *)
Definition JSON_slot {A} (s : slot A) : slot A :=
  match s with
  | Elem a => Elem a
  | _ => Null
  end.

Definition JSON_copy (p : Patient) : Patient :=
  {| _id := _id p; name := name p; HN_code := HN_code p; ID_code := ID_code p;
     lastVisit := lastVisit p;
     history := option_map (map JSON_slot) (history p) |}.

#[global] Instance slot_eq_dec {A} `{EqDecision A} : EqDecision (slot A).
Proof. solve_decision. Defined.
#[global] Instance IHistoryRecord_eq_dec : EqDecision IHistoryRecord.
Proof. solve_decision. Defined.
#[global] Instance Patient_eq_dec : EqDecision Patient.
Proof. solve_decision. Defined.

(** [JSON.stringify(a) !== JSON.stringify(b)].  Two texts are the same
    exactly when they parse to the same value, so the texts are compared
    through the copies. *)
Definition JSON_differs (a b : Patient) : bool :=
  negb (bool_decide (JSON_copy a = JSON_copy b)).

(** ** Pending operations of the document manager *)

(** [DocumentOperation] of the [useDocumentManager] hook.  The page tells the
    three kinds apart by [op.type] and reads [op.url] and
    [op.recordDocuments]; the specification calls them Attach, Detach and
    DeleteRecord. *)
Inductive DocumentOperation : Type :=
| OpAdd (recordIndex : Z) (url : string)                          (* "add" *)
| OpRemove (recordIndex : Z) (url : string)                       (* "remove" *)
| OpRemoveRecord (recordIndex : Z) (recordDocuments : list string). (* "remove_record" *)

#[global] Instance DocumentOperation_eq_dec : EqDecision DocumentOperation.
Proof. solve_decision. Defined.

(** The [(recordIndex, attachmentRef)] pairs an entry refers to. *)
Definition op_refs (op : DocumentOperation) : list (Z * string) :=
  match op with
  | OpAdd i u | OpRemove i u => [(i, u)]
  | OpRemoveRecord i us => map (pair i) us
  end.

Definition refers_to (p : Z * string) (op : DocumentOperation) : bool :=
  bool_decide (p ∈ op_refs op).

Definition overlaps (new old : DocumentOperation) : bool :=
  existsb (fun p => refers_to p old) (op_refs new).

(** Modelled from the spec: the hook [useDocumentManager] is not among the
    files at hand.  Recording an operation over existing ones for the same
    [(recordIndex, attachmentRef)] replaces them rather than stacking: the
    entries the new one overlaps leave the log and the new entry is
    recorded at its end. *)
Definition record_operation (new : DocumentOperation) (log : list DocumentOperation)
  : list DocumentOperation :=
  List.filter (fun old => negb (overlaps new old)) log ++ [new].

(** Modelled from the spec: [isRecordMarkedForDeletion(index)] of the hook,
    true when a DeleteRecord entry for that record is pending. *)
Definition isRecordMarkedForDeletion (log : list DocumentOperation) (index : Z) : bool :=
  existsb (fun op => match op with
                     | OpRemoveRecord i _ => i =? index
                     | _ => false
                     end) log.

(** ** The world outside the page *)

Inductive Event : Type :=
| EvAlert (msg : string)
| EvConfirm (keepEditing : bool)
| EvUpdatePatient (patientId clinicId : string) (patientData : Patient) (ok : bool)
| EvRemoteDelete (url : string) (ok : bool)
| EvNavigate (path : string).

#[global] Instance Event_eq_dec : EqDecision Event.
Proof. solve_decision. Defined.

(** What the collaborators answer.  [storageDelete n url] is the result of
    the remote delete of [url] issued when [n] events have happened;
    [updatePatientOk] that of the persistence layer's save; [keepEditing]
    the user's answer to the confirm box after a failed save. *)
Record Env : Type := mkEnv {
  storageDelete : nat -> string -> bool;
  updatePatientOk : bool;
  keepEditing : bool
}.

(** ** State of the edit page *)

Record State : Type := mkState {
  patient : Patient;
  originalPatient : option Patient;
  hasUnsavedChanges : bool;
  isSaving : bool;
  isRollbackInProgress : bool;
  showDiscardConfirmation : bool;
  pendingOperations : list DocumentOperation;  (* documentManager.pendingOperations *)
  trace : list Event                           (* oldest event first *)
}.

Definition setPatient (f : Patient -> Patient) (s : State) : State :=
  {| patient := f (patient s); originalPatient := originalPatient s;
     hasUnsavedChanges := hasUnsavedChanges s; isSaving := isSaving s;
     isRollbackInProgress := isRollbackInProgress s;
     showDiscardConfirmation := showDiscardConfirmation s;
     pendingOperations := pendingOperations s; trace := trace s |}.

Definition setOriginalPatient (o : option Patient) (s : State) : State :=
  {| patient := patient s; originalPatient := o;
     hasUnsavedChanges := hasUnsavedChanges s; isSaving := isSaving s;
     isRollbackInProgress := isRollbackInProgress s;
     showDiscardConfirmation := showDiscardConfirmation s;
     pendingOperations := pendingOperations s; trace := trace s |}.

Definition setHasUnsavedChanges (b : bool) (s : State) : State :=
  {| patient := patient s; originalPatient := originalPatient s;
     hasUnsavedChanges := b; isSaving := isSaving s;
     isRollbackInProgress := isRollbackInProgress s;
     showDiscardConfirmation := showDiscardConfirmation s;
     pendingOperations := pendingOperations s; trace := trace s |}.

Definition setIsSaving (b : bool) (s : State) : State :=
  {| patient := patient s; originalPatient := originalPatient s;
     hasUnsavedChanges := hasUnsavedChanges s; isSaving := b;
     isRollbackInProgress := isRollbackInProgress s;
     showDiscardConfirmation := showDiscardConfirmation s;
     pendingOperations := pendingOperations s; trace := trace s |}.

Definition setIsRollbackInProgress (b : bool) (s : State) : State :=
  {| patient := patient s; originalPatient := originalPatient s;
     hasUnsavedChanges := hasUnsavedChanges s; isSaving := isSaving s;
     isRollbackInProgress := b;
     showDiscardConfirmation := showDiscardConfirmation s;
     pendingOperations := pendingOperations s; trace := trace s |}.

Definition setShowDiscardConfirmation (b : bool) (s : State) : State :=
  {| patient := patient s; originalPatient := originalPatient s;
     hasUnsavedChanges := hasUnsavedChanges s; isSaving := isSaving s;
     isRollbackInProgress := isRollbackInProgress s;
     showDiscardConfirmation := b;
     pendingOperations := pendingOperations s; trace := trace s |}.

Definition setPendingOperations (f : list DocumentOperation -> list DocumentOperation)
  (s : State) : State :=
  {| patient := patient s; originalPatient := originalPatient s;
     hasUnsavedChanges := hasUnsavedChanges s; isSaving := isSaving s;
     isRollbackInProgress := isRollbackInProgress s;
     showDiscardConfirmation := showDiscardConfirmation s;
     pendingOperations := f (pendingOperations s); trace := trace s |}.

Definition emit (e : Event) (s : State) : State :=
  {| patient := patient s; originalPatient := originalPatient s;
     hasUnsavedChanges := hasUnsavedChanges s; isSaving := isSaving s;
     isRollbackInProgress := isRollbackInProgress s;
     showDiscardConfirmation := showDiscardConfirmation s;
     pendingOperations := pendingOperations s; trace := trace s ++ [e] |}.

(** The state the component starts with. *)
Definition initialState : State :=
  {| patient := {| _id := None; name := Some ""%string; HN_code := Some ""%string;
                   ID_code := Some ""%string; lastVisit := None;
                   history := Some [] |};
     originalPatient := None; hasUnsavedChanges := false; isSaving := false;
     isRollbackInProgress := false; showDiscardConfirmation := false;
     pendingOperations := []; trace := [] |}.

(** ** The document manager *)

(** [urls.indexOf(u)], [-1] when [u] is not in the list. *)
Fixpoint indexOf_from (i : Z) (u : string) (urls : list string) : Z :=
  match urls with
  | [] => -1
  | x :: urls' => if String.eqb x u then i else indexOf_from (i + 1) u urls'
  end.

(** Modelled from the spec: how the hook unlinks a reference from a record
    of the buffer.  It goes through the page's [onRemoveDocument] callback,
    at the position the reference has in the record. *)
Definition unlink (recordIndex : Z) (url : string) (prev : Patient) : Patient :=
  match get (default [] (history prev)) recordIndex with
  | Elem record =>
      onRemoveDocument recordIndex
        (indexOf_from 0 url (default [] (document_urls record))) prev
  | _ => prev
  end.

(** Modelled from the spec: [addDocumentWithRollback] of the hook
    (recordAttach).  The object is uploaded already; the reference is linked
    into the buffer through [onAddDocument] and an Attach entry is
    recorded. *)
Definition addDocumentWithRollback (recordIndex : Z) (url : string) (s : State) : State :=
  setPendingOperations (record_operation (OpAdd recordIndex url))
    (setPatient (onAddDocument recordIndex url) s).

(** Modelled from the spec: [removeDocumentWithDeferred] of the hook
    (recordDetach).  The link leaves the buffer through [onRemoveDocument]
    and a Detach entry is recorded; storage is not called. *)
Definition removeDocumentWithDeferred (recordIndex documentIndex : Z) (url : string)
  (s : State) : State :=
  setPendingOperations (record_operation (OpRemove recordIndex url))
    (setPatient (onRemoveDocument recordIndex documentIndex) s).

(** Modelled from the spec: [markRecordForDeletion] of the hook
    (recordRecordDeletion).  A DeleteRecord entry with the attachments the
    record carries at this moment is recorded; the record stays in the
    buffer and counts as flagged while the entry is pending. *)
Definition markRecordForDeletion (recordIndex : Z) (documentUrls : list string)
  (s : State) : State :=
  setPendingOperations (record_operation (OpRemoveRecord recordIndex documentUrls)) s.

Fixpoint remove_nth {A} (n : nat) (l : list A) : list A :=
  match l, n with
  | [], _ => []
  | _ :: l', O => l'
  | x :: l', S n' => x :: remove_nth n' l'
  end.

(** Modelled from the spec: undo of one pending entry.  The entry leaves the
    log and its effect on the buffer is reversed: a detached reference is
    linked again, an attached one is unlinked, a record is no longer
    flagged.  A stale index is an error and changes nothing. *)
Definition undoOperation (operationIndex : nat) (s : State) : Outcome State :=
  match nth_error (pendingOperations s) operationIndex with
  | None => Throws "NotFoundError"
  | Some op =>
      let s := setPendingOperations (remove_nth operationIndex) s in
      Returns match op with
              | OpAdd i u => setPatient (unlink i u) s
              | OpRemove i u => setPatient (onAddDocument i u) s
              | OpRemoveRecord _ _ => s
              end
  end.

(** Modelled from the spec: the summary the hook's commit and rollback
    return.  Per kind of operation how many went through and how many met a
    failed remote call, and the identifiers that could not be deleted from
    storage. *)
Record Summary : Type := mkSummary {
  attachDone : nat;  attachFailed : nat;
  detachDone : nat;  detachFailed : nat;
  recordDone : nat;  recordFailed : nat;
  warnings : list string
}.

Definition noSummary : Summary :=
  {| attachDone := 0; attachFailed := 0; detachDone := 0; detachFailed := 0;
     recordDone := 0; recordFailed := 0; warnings := [] |}.

(** Modelled from the spec: one remote delete of the hook.  The storage
    client is asked, its answer is part of the trace. *)
Definition remoteDelete (env : Env) (url : string) (s : State) : bool * State :=
  let ok := storageDelete env (List.length (trace s)) url in
  (ok, emit (EvRemoteDelete url ok) s).

(** Modelled from the spec: the remote deletes of one DeleteRecord entry,
    one after the other and past failures; the identifiers that failed are
    returned. *)
Fixpoint deleteAll (env : Env) (urls : list string) (s : State) : list string * State :=
  match urls with
  | [] => ([], s)
  | u :: urls' =>
      let '(ok, s) := remoteDelete env u s in
      let '(failed, s) := deleteAll env urls' s in
      (if ok then failed else u :: failed, s)
  end.

(** Modelled from the spec: what commit does for one entry.  Attach: nothing
    remote.  Detach: a remote delete; when it fails the reference is linked
    into the buffer again and the failure is counted.  DeleteRecord: a
    remote delete for every attachment listed. *)
Definition commitOperation (env : Env) (acc : State * Summary) (op : DocumentOperation)
  : State * Summary :=
  let '(s, r) := acc in
  match op with
  | OpAdd _ _ =>
      (s, {| attachDone := S (attachDone r); attachFailed := attachFailed r;
             detachDone := detachDone r; detachFailed := detachFailed r;
             recordDone := recordDone r; recordFailed := recordFailed r;
             warnings := warnings r |})
  | OpRemove i u =>
      let '(ok, s) := remoteDelete env u s in
      if ok then
        (s, {| attachDone := attachDone r; attachFailed := attachFailed r;
               detachDone := S (detachDone r); detachFailed := detachFailed r;
               recordDone := recordDone r; recordFailed := recordFailed r;
               warnings := warnings r |})
      else
        (setPatient (onAddDocument i u) s,
         {| attachDone := attachDone r; attachFailed := attachFailed r;
            detachDone := detachDone r; detachFailed := S (detachFailed r);
            recordDone := recordDone r; recordFailed := recordFailed r;
            warnings := warnings r ++ [u] |})
  | OpRemoveRecord _ us =>
      let '(failed, s) := deleteAll env us s in
      match failed with
      | [] =>
          (s, {| attachDone := attachDone r; attachFailed := attachFailed r;
                 detachDone := detachDone r; detachFailed := detachFailed r;
                 recordDone := S (recordDone r); recordFailed := recordFailed r;
                 warnings := warnings r |})
      | _ =>
          (s, {| attachDone := attachDone r; attachFailed := attachFailed r;
                 detachDone := detachDone r; detachFailed := detachFailed r;
                 recordDone := recordDone r; recordFailed := S (recordFailed r);
                 warnings := warnings r ++ failed |})
      end
  end.

(** Modelled from the spec: [commitPendingOperations] of the hook.  The log
    is processed in recorded order, no failure of a remote call stops it,
    then the log is cleared. *)
Definition commitPendingOperations (env : Env) (s : State) : Outcome (State * Summary) :=
  let '(s', r) := fold_left (commitOperation env) (pendingOperations s) (s, noSummary) in
  Returns (setPendingOperations (fun _ => []) s', r).

(** Modelled from the spec: what rollback does for one entry.  Attach: the
    uploaded object is deleted from storage, best effort, and unlinked from
    the buffer.  Detach: the link is restored, storage was never touched.
    DeleteRecord: the record is no longer flagged. *)
Definition rollbackOperation (env : Env) (acc : State * Summary) (op : DocumentOperation)
  : State * Summary :=
  let '(s, r) := acc in
  match op with
  | OpAdd i u =>
      let '(ok, s) := remoteDelete env u s in
      let s := setPatient (unlink i u) s in
      if ok then
        (s, {| attachDone := S (attachDone r); attachFailed := attachFailed r;
               detachDone := detachDone r; detachFailed := detachFailed r;
               recordDone := recordDone r; recordFailed := recordFailed r;
               warnings := warnings r |})
      else
        (s, {| attachDone := attachDone r; attachFailed := S (attachFailed r);
               detachDone := detachDone r; detachFailed := detachFailed r;
               recordDone := recordDone r; recordFailed := recordFailed r;
               warnings := warnings r ++ [u] |})
  | OpRemove i u =>
      (setPatient (onAddDocument i u) s,
       {| attachDone := attachDone r; attachFailed := attachFailed r;
          detachDone := S (detachDone r); detachFailed := detachFailed r;
          recordDone := recordDone r; recordFailed := recordFailed r;
          warnings := warnings r |})
  | OpRemoveRecord _ _ =>
      (s, {| attachDone := attachDone r; attachFailed := attachFailed r;
             detachDone := detachDone r; detachFailed := detachFailed r;
             recordDone := S (recordDone r); recordFailed := recordFailed r;
             warnings := warnings r |})
  end.

(** Modelled from the spec: [rollbackPendingOperations] of the hook.  The
    log is processed in reverse order, no failure of a remote call stops
    it, then the log is cleared. *)
Definition rollbackPendingOperations (env : Env) (s : State) : Outcome (State * Summary) :=
  let '(s', r) :=
    fold_left (rollbackOperation env) (rev (pendingOperations s)) (s, noSummary) in
  Returns (setPendingOperations (fun _ => []) s', r).

(** ** The page: loading, tracking changes, saving, discarding *)

(** A value used as a condition: a missing or empty string is falsy. *)
Definition truthy (o : option string) : bool :=
  match o with
  | Some s => negb (String.eqb s "")
  | None => false
  end.

(** [history.map(record => ({...record, timestamp: ...}))] on load: holes
    are skipped by [map] and stay holes, [record.timestamp] of [undefined]
    or [null] throws. *)
Fixpoint processHistory (h : list (slot IHistoryRecord))
  : Outcome (list (slot IHistoryRecord)) :=
  match h with
  | [] => Returns []
  | Hole :: h' => let* r := processHistory h' in Returns (Hole :: r)
  | Elem record :: h' => let* r := processHistory h' in Returns (Elem record :: r)
  | _ :: _ => Throws "TypeError: cannot read properties of undefined"
  end.

(** The effect that runs when the patient arrives from the store: the
    history is sorted newest first, the buffer is set and a deep copy of it
    is kept as [originalPatient]. *)
Definition loadPatient (patientFromStore : Patient) (s : State) : Outcome State :=
  let* processedHistory :=
    match history patientFromStore with
    | Some h => processHistory h
    | None => Returns []
    end in
  let* sortedHistory := sort newestFirst (spread processedHistory) in
  let patientData := set_history sortedHistory patientFromStore in
  Returns (setHasUnsavedChanges false
             (setOriginalPatient (Some (JSON_copy patientData))
                (setPatient (fun _ => patientData) s))).

(** The effect that keeps [hasUnsavedChanges] up to date; it runs whenever
    the buffer, the snapshot or the pending operations change. *)
Definition checkUnsavedChanges (s : State) : State :=
  match originalPatient s with
  | Some original =>
      let hasChanges := JSON_differs (patient s) original in
      setHasUnsavedChanges
        (hasChanges || (0 <? Z.of_nat (List.length (pendingOperations s)))) s
  | None => s
  end.

(** [handleDiscard] *)
Definition handleDiscard (s : State) : State :=
  if hasUnsavedChanges s then setShowDiscardConfirmation true s
  else emit (EvNavigate "/dashboard") s.

(** The object [handleSave] hands to the persistence layer: the buffer
    without the records marked for deletion. *)
Definition patientToSave (s : State) : Patient :=
  let filteredHistory :=
    option_map
      (JsArray.filter
         (fun _ index => negb (isRecordMarkedForDeletion (pendingOperations s) index)))
      (history (patient s)) in
  {| _id := _id (patient s); name := name (patient s);
     HN_code := HN_code (patient s); ID_code := ID_code (patient s);
     lastVisit := lastVisit (patient s); history := filteredHistory |}.

(** The checks [handleSave] makes before it does anything. *)
Definition saveAllowed (clinicId : option string) (s : State) : bool :=
  truthy (_id (patient s)) && truthy clinicId
  && truthy (name (patient s)) && truthy (HN_code (patient s)).

(** The [catch] block of [handleSave]. *)
Definition saveFailed (env : Env) (s : State) : State :=
  let s := emit (EvConfirm (keepEditing env)) s in
  if keepEditing env then s else handleDiscard s.

(** [handleSave].  [clinicId] is the page's query parameter. *)
Definition handleSave (env : Env) (clinicId : option string) (s : State) : State :=
  if negb (truthy (_id (patient s))) || negb (truthy clinicId) then
    emit (EvAlert "Missing patient ID or clinic ID") s
  else if negb (truthy (name (patient s))) || negb (truthy (HN_code (patient s))) then
    emit (EvAlert "Name and Hospital Number (HN) are required fields") s
  else
    let s := setIsSaving true s in
    (* try *)
    let toSave := patientToSave s in
    (* First save patient data *)
    let s := emit (EvUpdatePatient (default "" (_id (patient s))) (default "" clinicId)
                     toSave (updatePatientOk env)) s in
    let s :=
      if updatePatientOk env then
        (* Then commit all pending file operations *)
        match commitPendingOperations env s with
        | Returns (s, _) =>
            let s := setOriginalPatient (Some (JSON_copy toSave)) s in
            let s := setHasUnsavedChanges false s in
            emit (EvNavigate "/dashboard") s
        | Throws _ => saveFailed env s
        end
      else saveFailed env s in
    (* finally *)
    setIsSaving false s.

(** [confirmDiscard] *)
Definition confirmDiscard (env : Env) (s : State) : State :=
  let s := setIsRollbackInProgress true s in
  let s :=
    match rollbackPendingOperations env s with
    | Returns (s, _) =>
        let s :=
          match originalPatient s with
          | Some original =>
              setHasUnsavedChanges false (setPatient (fun _ => JSON_copy original) s)
          | None => s
          end in
        let s := setShowDiscardConfirmation false s in
        emit (EvNavigate "/dashboard") s
    | Throws _ =>
        emit (EvAlert "There was an error discarding changes. Please try again.") s
    end in
  setIsRollbackInProgress false s.

(** [handleAddDocument] *)
Definition handleAddDocument (recordIndex : Z) (url : string) (s : State) : State :=
  addDocumentWithRollback recordIndex url s.

(** [urls[i]], [None] for [undefined]. *)
Definition url_at (urls : list string) (i : Z) : option string :=
  if i <? 0 then None else nth_error urls (Z.to_nat i).

(** [handleRemoveDocument]: the URL is looked up in the buffer; nothing
    happens when there is none. *)
Definition handleRemoveDocument (recordIndex documentIndex : Z) (s : State) : State :=
  let url :=
    match get (default [] (history (patient s))) recordIndex with
    | Elem record => url_at (default [] (document_urls record)) documentIndex
    | _ => None
    end in
  match url with
  | Some u =>
      if truthy (Some u) then removeDocumentWithDeferred recordIndex documentIndex u s
      else s
  | None => s
  end.

(** [handleRemoveRecord]: the record is marked for deferred deletion and
    stays in the state. *)
Definition handleRemoveRecord (index : Z) (s : State) : State :=
  match get (default [] (history (patient s))) index with
  | Elem recordToRemove =>
      let documentUrls := default [] (document_urls recordToRemove) in
      markRecordForDeletion index documentUrls s
  | _ => s
  end.

(** ** Cascading patient deletion *)

Module Deletion.

(** The argument of the [deletePatient] thunk the dashboard dispatches. *)
Record DeleteRequest : Type := mkRequest {
  clinicId : string;
  patientId : string;
  forceDelete : bool
}.

(** [confirmDeletePatient] of the dashboard: nothing is dispatched without
    a patient in the dialog and a selected clinic; otherwise the flag it
    is called with goes into the request unchanged. *)
Definition confirmDeletePatient (dialogPatient : option Patient)
  (selectedClinic : option string) (force : bool) : option DeleteRequest :=
  match dialogPatient, selectedClinic with
  | Some p, Some c =>
      Some {| clinicId := c; patientId := default "" (_id p); forceDelete := force |}
  | _, _ => None
  end.

(** State of [PatientDeleteDialog]. *)
Inductive Step : Type := initial | confirmation | processing.

Record Dialog : Type := mkDialog {
  step : Step;
  forceDeleteChecked : bool;             (* the "Force delete" checkbox *)
  deleteResult : option (bool * string)  (* success, error *)
}.

(** [handleConfirm] of the dialog: [onConfirm] is called with the state of
    the checkbox; when it throws, the error is kept and the dialog goes
    back to the confirmation step. *)
Definition handleConfirm {R} (onConfirm : bool -> Outcome R) (d : Dialog) : Dialog :=
  match onConfirm (forceDeleteChecked d) with
  | Returns _ =>
      {| step := initial; forceDeleteChecked := forceDeleteChecked d;
         deleteResult := deleteResult d |}
  | Throws e =>
      {| step := confirmation; forceDeleteChecked := forceDeleteChecked d;
         deleteResult := Some (false, e) |}
  end.

(** Modelled from the spec: [DeletionOutcome], the result of a cascading
    deletion. *)
Record DeletionOutcome : Type := mkOutcome {
  filesDeleted : nat;
  filesNotDeleted : nat;
  success : bool
}.

(** Modelled from the spec: the server side of the coordinator.  The
    patients of each clinic, and the remote deletes issued so far with
    their results, oldest first. *)
Record Server : Type := mkServer {
  db : gmap (string * string) Patient;
  remoteCalls : list (string * bool)
}.

(** A remote delete that succeeded, and one that the storage refused. *)
Definition succeeded (c : string * bool) : bool := snd c.
Definition refused (c : string * bool) : bool := negb (snd c).

(** Every attachment reference of every history record, in order. *)
Definition attachments (p : Patient) : list string :=
  flat_map (fun s => match s with
                     | Elem r => default [] (document_urls r)
                     | _ => []
                     end)
    (default [] (history p)).

(** Modelled from the spec: the enumeration of the Cascading Deletion
    Coordinator, which is not among the files at hand.  A remote delete is
    issued for each reference; successes and failures are counted and a
    failure does not stop the enumeration. *)
Fixpoint deleteEach (storage : nat -> string -> bool) (urls : list string)
  (calls : list (string * bool)) (deleted notDeleted : nat)
  : list (string * bool) * nat * nat :=
  match urls with
  | [] => (calls, deleted, notDeleted)
  | u :: urls' =>
      let ok := storage (List.length calls) u in
      deleteEach storage urls' (calls ++ [(u, ok)])
        (if ok then S deleted else deleted)
        (if ok then notDeleted else S notDeleted)
  end.

(** Modelled from the spec: the Cascading Deletion Coordinator.  Without
    force and with a failure it stops before the database and reports
    [success:false]; with force, or without a failure, the patient's
    record is deleted and [success:true] is reported.  A patient that is
    not in the database fails validation before any remote call. *)
Definition deletePatient (storage : nat -> string -> bool) (req : DeleteRequest)
  (srv : Server) : Outcome (DeletionOutcome * Server) :=
  match db srv !! (clinicId req, patientId req) with
  | None => Throws "Patient not found"
  | Some p =>
      let '(calls, deleted, failureCount) :=
        deleteEach storage (attachments p) (remoteCalls srv) 0%nat 0%nat in
      if negb (forceDelete req) && (0 <? failureCount)%nat then
        Returns ({| filesDeleted := deleted; filesNotDeleted := failureCount;
                    success := false |},
                 {| db := db srv; remoteCalls := calls |})
      else
        Returns ({| filesDeleted := deleted; filesNotDeleted := failureCount;
                    success := true |},
                 {| db := delete (clinicId req, patientId req) (db srv);
                    remoteCalls := calls |})
  end.

End Deletion.

(** ** Notions used to state the properties *)

(** The records of a history, in the order of the array. *)
Definition records (h : list (slot IHistoryRecord)) : list IHistoryRecord :=
  flat_map (fun s => match s with Elem r => [r] | _ => [] end) h.

(** A history is in descending order of timestamp when no record is older
    than a record that comes after it. *)
Definition descending (h : list (slot IHistoryRecord)) : Prop :=
  StronglySorted (fun a b => timestamp b <= timestamp a) (records h).

Definition history_descending (p : Patient) : Prop :=
  descending (default [] (history p)).

(** An array without [null]. *)
Definition null_free {A} (h : list (slot A)) : Prop :=
  Forall (fun s => s <> Null) h.

(** The document operations of an edit session: the three handlers of the
    page, the functions of the document manager the page hands to the
    history section as they are, and the undo of one pending entry. *)
Inductive Edit : Type :=
| HandleAddDocument (recordIndex : Z) (url : string)
| HandleRemoveDocument (recordIndex documentIndex : Z)
| HandleRemoveRecord (index : Z)
| AddDocumentWithRollback (recordIndex : Z) (url : string)
| RemoveDocumentWithDeferred (recordIndex documentIndex : Z) (url : string)
| MarkRecordForDeletion (recordIndex : Z) (documentUrls : list string)
| UndoOperation (operationIndex : nat).

Definition applyEdit (s : State) (e : Edit) : State :=
  match e with
  | HandleAddDocument i u => handleAddDocument i u s
  | HandleRemoveDocument i d => handleRemoveDocument i d s
  | HandleRemoveRecord i => handleRemoveRecord i s
  | AddDocumentWithRollback i u => addDocumentWithRollback i u s
  | RemoveDocumentWithDeferred i d u => removeDocumentWithDeferred i d u s
  | MarkRecordForDeletion i us => markRecordForDeletion i us s
  | UndoOperation n =>
      match undoOperation n s with
      | Returns s' => s'
      | Throws _ => s
      end
  end.

(** The state after a sequence of document operations. *)
Definition session (edits : list Edit) (s : State) : State :=
  fold_left applyEdit edits s.

(** The identifiers for which a remote delete was issued, oldest first. *)
Definition remoteDeletes (tr : list Event) : list string :=
  flat_map (fun e => match e with EvRemoteDelete u _ => [u] | _ => [] end) tr.

(** The identifiers whose remote delete failed, oldest first. *)
Definition failedDeletes (tr : list Event) : list string :=
  flat_map (fun e => match e with EvRemoteDelete u false => [u] | _ => [] end) tr.

(** The patient objects handed to the persistence layer, oldest first. *)
Definition persisted (tr : list Event) : list Patient :=
  flat_map (fun e => match e with EvUpdatePatient _ _ d _ => [d] | _ => [] end) tr.

(** The events a handler added to the trace. *)
Definition events_since (before after : State) : list Event :=
  skipn (List.length (trace before)) (trace after).

(** The state in which [handleSave] calls [commitPendingOperations]: the
    save call has been made. *)
Definition stateAtCommit (env : Env) (clinicId : option string) (s : State) : State :=
  emit (EvUpdatePatient (default "" (_id (patient s))) (default "" clinicId)
          (patientToSave s) (updatePatientOk env))
    (setIsSaving true s).

(** No remote delete comes after the first save call of the trace. *)
Fixpoint deletes_precede_save (tr : list Event) : bool :=
  match tr with
  | [] => true
  | EvUpdatePatient _ _ _ _ :: tr' =>
      match remoteDeletes tr' with [] => true | _ => false end
  | _ :: tr' => deletes_precede_save tr'
  end.

(** No remote delete comes before the first save call of the trace, and
    none at all without a save call. *)
Fixpoint save_precedes_deletes (tr : list Event) : bool :=
  match tr with
  | [] => true
  | EvUpdatePatient _ _ _ _ :: _ => true
  | EvRemoteDelete _ _ :: _ => false
  | _ :: tr' => save_precedes_deletes tr'
  end.

(** A sweep of remote deletes adds nothing but remote deletes to the trace. *)
Definition only_deletes (ev : list Event) : Prop :=
  persisted ev = [] /\ Forall (fun e => exists u ok, e = EvRemoteDelete u ok) ev.

(** The references of the pending Attach entries, and the references
    commit deletes remotely, in the order of the log. *)
Definition attachedUrls (log : list DocumentOperation) : list string :=
  flat_map (fun op => match op with OpAdd _ u => [u] | _ => [] end) log.

Definition committedUrls (log : list DocumentOperation) : list string :=
  flat_map (fun op => match op with
                      | OpAdd _ _ => []
                      | OpRemove _ u => [u]
                      | OpRemoveRecord _ us => us
                      end) log.

(** The number of entries of the log that refer to a pair. *)
Definition entries_for (p : Z * string) (log : list DocumentOperation) : nat :=
  List.length (List.filter (refers_to p) log).

(** The record index names no record of the buffer. *)
Definition record_index_invalid (recordIndex : Z) (p : Patient) : Prop :=
  match history p with
  | None => True
  | Some h => recordIndex < 0 \/ JsArray.length h <= recordIndex
  end.

(** The record index names a record and the document index names none of
    its documents. *)
Definition document_index_invalid (recordIndex documentIndex : Z) (p : Patient) : Prop :=
  exists h record,
    history p = Some h /\ get h recordIndex = Elem record /\
    (documentIndex < 0
     \/ Z.of_nat (List.length (default [] (document_urls record))) <= documentIndex).

(** ** Sample data: the scenario of the specification *)

(** A patient with two history records, carrying the attachments [a], [b]
    and [c]. *)
Definition record1 : IHistoryRecord :=
  {| timestamp := 20; document_urls := Some ["a"; "b"]%string; notes := None |}.
Definition record2 : IHistoryRecord :=
  {| timestamp := 10; document_urls := Some ["c"]%string; notes := None |}.
Definition storedPatient : Patient :=
  {| _id := Some "p1"%string; name := Some "Somchai"%string;
     HN_code := Some "HN001"%string; ID_code := None; lastVisit := None;
     history := Some [Elem record1; Elem record2] |}.

(** Storage that accepts every delete, and storage that refuses every one. *)
Definition storageUp : Env :=
  {| storageDelete := fun _ _ => true; updatePatientOk := true; keepEditing := true |}.
Definition storageDown : Env :=
  {| storageDelete := fun _ _ => false; updatePatientOk := true; keepEditing := true |}.

(** The edit session opened on the sample patient. *)
Definition openedSession : State :=
  match loadPatient storedPatient initialState with
  | Returns s => s
  | Throws _ => initialState
  end.

(** The second record of the sample patient, edited to carry a date newer
    than the first record's. *)
Definition record2Redated : IHistoryRecord :=
  {| timestamp := 30; document_urls := Some ["c"]%string; notes := None |}.

(** Document [b] of the first record is detached in the opened session. *)
Definition detachedB : State := handleRemoveDocument 0 1 openedSession.

(** Then the second record is marked for deletion. *)
Definition detachedBMarked2 : State := handleRemoveRecord 1 detachedB.

(** A document is uploaded and attached to the first record, then that
    record is marked for deletion. *)
Definition attachedThenMarked : State :=
  handleRemoveRecord 0 (handleAddDocument 0 "d" openedSession).

(** What the specification says of Save: the remote deletes of the commit
    are issued before the buffer is handed to the persistence layer. *)
Definition commit_precedes_persist : Prop :=
  forall env clinicId s,
    deletes_precede_save (events_since s (handleSave env clinicId s)) = true.


(** What the specification says of a discarded session: no remote object
    that a pending Detach or DeleteRecord entry references is deleted. *)
Definition discard_spares_detached : Prop :=
  forall env edits s u,
    In u (committedUrls (pendingOperations (session edits s))) ->
    ~ In u (remoteDeletes (events_since s (confirmDiscard env (session edits s)))).

(** Document [b] is detached from the first record of the sample patient
    and then attached to the second. *)
Definition detachedBReattached : State :=
  session [HandleRemoveDocument 0 1; HandleAddDocument 1 "b"] openedSession.

(** A record newer than both records of the sample patient. *)
Definition record3 : IHistoryRecord :=
  {| timestamp := 30; document_urls := None; notes := None |}.

(** The second record of the sample patient is marked for deletion. *)
Definition marked2 : State := handleRemoveRecord 1 openedSession.

(** Then the newer record is added: [setPatient] with the updater of
    [handleAddRecord]. *)
Definition marked2ThenAdded : State :=
  match handleAddRecord record3 (patient marked2) with
  | Returns next => setPatient (fun _ => next) marked2
  | Throws _ => marked2
  end.

(** At most one pending entry refers to any [(recordIndex, attachmentRef)]
    pair. *)
Definition one_entry_per_pair (log : list DocumentOperation) : Prop :=
  forall p, (entries_for p log <= 1)%nat.

(** A server holding the sample patient in clinic [c1], and the request to
    delete that patient. *)
Definition sampleServer : Deletion.Server :=
  {| Deletion.db := {[ ("c1"%string, "p1"%string) := storedPatient ]};
     Deletion.remoteCalls := [] |}.

Definition sampleRequest (force : bool) : Deletion.DeleteRequest :=
  {| Deletion.clinicId := "c1"; Deletion.patientId := "p1";
     Deletion.forceDelete := force |}.

(** Storage that refuses to delete [b] and accepts every other delete. *)
Definition storageKeepsB (n : nat) (url : string) : bool :=
  negb (String.eqb url "b").

(** An array whose every slot holds an element, as the type
    [IHistoryRecord[]] says. *)
Definition dense {A} (h : list (slot A)) : Prop :=
  Forall (fun s => falsy s = false) h.

(** [{...record, timestamp: t}] for a record. *)
Definition redated (record : IHistoryRecord) (t : Z) : IHistoryRecord :=
  with_timestamp (Elem record) t.

(** ** More of the edit page *)

(** The text inputs of the edit form whose [onChange] is [handleChange],
    by their [name] attribute. *)
Inductive TextInput : Type := InputName | InputHN_code | InputID_code.

(** The field of the patient object a text input is bound to. *)
Definition fieldOf (input : TextInput) (p : Patient) : option string :=
  match input with
  | InputName => name p
  | InputHN_code => HN_code p
  | InputID_code => ID_code p
  end.

(** [handleChange] for a text input: [{...prev, [name]: value}].  The date
    of the last visit is not set through [handleChange] on this page but
    by the date picker. *)
Definition handleChange (input : TextInput) (value : string) (prev : Patient) : Patient :=
  match input with
  | InputName =>
      {| _id := _id prev; name := Some value; HN_code := HN_code prev;
         ID_code := ID_code prev; lastVisit := lastVisit prev; history := history prev |}
  | InputHN_code =>
      {| _id := _id prev; name := name prev; HN_code := Some value;
         ID_code := ID_code prev; lastVisit := lastVisit prev; history := history prev |}
  | InputID_code =>
      {| _id := _id prev; name := name prev; HN_code := HN_code prev;
         ID_code := Some value; lastVisit := lastVisit prev; history := history prev |}
  end.

(** [cancelDiscard] *)
Definition cancelDiscard (s : State) : State := setShowDiscardConfirmation false s.

(** A history as the store can deliver it to [loadPatient] without an
    exception: no slot holds [undefined] or [null]. *)
Definition loadable (h : list (slot IHistoryRecord)) : Prop :=
  Forall (fun s => s <> Undefined /\ s <> Null) h.

(** ** The delete dialog and the dashboard *)

Module Dashboard.
Import Deletion.

(** [patient.history?.reduce((total, record) =>
      total + (record.document_urls?.length || 0), 0)]: [reduce] skips
    holes; reading [document_urls] of [undefined] or [null] throws. *)
Fixpoint countDocuments (h : list (slot IHistoryRecord)) (total : Z) : Outcome Z :=
  match h with
  | [] => Returns total
  | Hole :: h' => countDocuments h' total
  | Elem record :: h' =>
      countDocuments h'
        (total + Z.of_nat (List.length (default [] (document_urls record))))
  | _ :: _ => Throws "TypeError: cannot read properties of undefined"
  end.

(** [totalDocuments] of the delete dialog. *)
Definition totalDocuments (p : Patient) : Outcome Z :=
  match history p with
  | Some h => countDocuments h 0
  | None => Returns 0
  end.

(** The state the dialog starts with. *)
Definition closedDialog : Dialog :=
  {| step := initial; forceDeleteChecked := false; deleteResult := None |}.

(** What the dashboard dispatches to the store. *)
Inductive Action : Type :=
| DeletePatient (req : DeleteRequest)
| ChangePage (clinic : string) (page : Z)
| ClearPatients
| SetSelectedClinic (clinic : string)
| FetchPatientsWithPagination (clinic : string).

(** The part of the dashboard's state its handlers use.  A clinic is kept
    by its id. *)
Record Board : Type := mkBoard {
  dialogOpen : bool;
  dialogPatient : option Patient;
  selectedClinic : option string;
  clinics : list string;
  searchTerm : string;
  currentPage : option Z;
  dispatched : list Action
}.

(** [setDeleteDialog({ isOpen: false, patient: null })] *)
Definition closeDeleteDialog (b : Board) : Board :=
  {| dialogOpen := false; dialogPatient := None; selectedClinic := selectedClinic b;
     clinics := clinics b; searchTerm := searchTerm b; currentPage := currentPage b;
     dispatched := dispatched b |}.

Definition dispatch (a : list Action) (b : Board) : Board :=
  {| dialogOpen := dialogOpen b; dialogPatient := dialogPatient b;
     selectedClinic := selectedClinic b; clinics := clinics b;
     searchTerm := searchTerm b; currentPage := currentPage b;
     dispatched := dispatched b ++ a |}.

(** [patientsState.pagination?.currentPage || 1] *)
Definition pageOrFirst (page : option Z) : Z :=
  match page with
  | Some n => if n =? 0 then 1 else n
  | None => 1
  end.

(** [confirmDeletePatient] with what it does to the dashboard.  [thunk] is
    the outcome of [dispatch(deletePatient(...)).unwrap()]; its rejection
    is thrown on to the dialog. *)
Definition confirmDeletePatientOn (thunk : DeleteRequest -> Outcome unit)
  (force : bool) (b : Board) : Board * Outcome unit :=
  match confirmDeletePatient (dialogPatient b) (selectedClinic b) force with
  | None => (b, Returns tt)
  | Some req =>
      let b := dispatch [DeletePatient req] b in
      match thunk req with
      | Returns _ =>
          (dispatch [ChangePage (clinicId req) (pageOrFirst (currentPage b))]
             (closeDeleteDialog b),
           Returns tt)
      | Throws e => (b, Throws e)
      end
  end.

(** The user presses "Delete Permanently": the dialog's [handleConfirm]
    runs the dashboard's [confirmDeletePatient]. *)
Definition pressDelete (thunk : DeleteRequest -> Outcome unit) (b : Board) (d : Dialog)
  : Board * Dialog :=
  (fst (confirmDeletePatientOn thunk (forceDeleteChecked d) b),
   handleConfirm (fun force => snd (confirmDeletePatientOn thunk force b)) d).

(** [handleClinicChange] of the dashboard. *)
Definition handleClinicChange (clinic : string) (b : Board) : Board :=
  if String.eqb clinic "" then b
  else
    let b := dispatch [ClearPatients] b in
    let b :=
      {| dialogOpen := dialogOpen b; dialogPatient := dialogPatient b;
         selectedClinic := selectedClinic b; clinics := clinics b;
         searchTerm := ""; currentPage := currentPage b;
         dispatched := dispatched b |} in
    if existsb (String.eqb clinic) (clinics b) then
      dispatch [SetSelectedClinic clinic; FetchPatientsWithPagination clinic]
        {| dialogOpen := dialogOpen b; dialogPatient := dialogPatient b;
           selectedClinic := Some clinic; clinics := clinics b;
           searchTerm := searchTerm b; currentPage := currentPage b;
           dispatched := dispatched b |}
    else b.

End Dashboard.

(** ** The upload route *)

Module Upload.

(** The [File] entry of the form. *)
Record File : Type := mkFile {
  fileName : string;
  fileType : string;
  fileSize : Z
}.

(** The form of the request: what [formData.get] yields for each key,
    [None] for [null]. *)
Record Form : Type := mkForm {
  file : option File;
  clinicId : option string;
  patientId : option string;
  originalFilename : option string
}.

(** The options handed to [uploadToCloudinary]. *)
Record UploadOptions : Type := mkOptions {
  optClinicId : string;
  optClinicName : string;
  optFilename : string;
  optFileType : string;
  optPatientId : option string;
  optTags : list string
}.

(** What [uploadToCloudinary] resolves to. *)
Record UploadResult : Type := mkResult {
  uploaded : bool;
  uploadError : option string;
  url : option string;
  public_id : option string
}.

(** The document handed to [FileMetadata.create].  [uploadedAt], the time
    of the call, and [encodedFilename], the URI encoding of the file name,
    are left out. *)
Record Metadata : Type := mkMetadata {
  metaOriginalFilename : string;
  metaSize : Z;
  metaType : string;
  metaClinicId : string;
  metaPatientId : option string;
  metaUrl : option string;
  metaPublicId : option string
}.

(** The collaborators of the route and what they answer; each may throw. *)
Record Services : Type := mkServices {
  isValidObjectId : string -> bool;
  dbConnect : Outcome unit;
  findClinicById : string -> Outcome (option string);  (* the clinic's name *)
  uploadToCloudinary : UploadOptions -> Outcome UploadResult;
  createMetadata : Metadata -> Outcome unit
}.

(** The calls the route makes, oldest first. *)
Inductive Call : Type :=
| CallDbConnect
| CallFindClinic (id : string)
| CallUpload (options : UploadOptions)
| CallCreateMetadata (m : Metadata)
| LogWarning (msg : string).

(** The [file] object of a successful response. *)
Record ResponseFile : Type := mkResponseFile {
  resultOf : UploadResult;
  respOriginalFilename : string;
  respSize : Z;
  respType : string
}.

Record Response : Type := mkResponse {
  status : Z;
  success : bool;
  error : option string;
  responseFile : option ResponseFile
}.

Definition failure (code : Z) (msg : option string) : Response :=
  {| status := code; success := false; error := msg; responseFile := None |}.

(** [value || undefined] for a form entry: [null] and the empty string
    both give [undefined]. *)
Definition orUndefined (v : option string) : option string :=
  match v with
  | Some s => if String.eqb s "" then None else Some s
  | None => None
  end.

(** [s.replace('/', '_')]: the first slash only. *)
Fixpoint replaceFirstSlash (s : string) : string :=
  match s with
  | EmptyString => EmptyString
  | String c s' =>
      if String.eqb (String c EmptyString) "/" then ("_" ++ s')%string
      else String c (replaceFirstSlash s')
  end.

(** The body of [POST] after the form has been parsed, with the calls it
    makes.  An exception of a collaborator is caught by the outer [catch],
    which answers 500; an exception of the metadata store is caught by the
    inner one and only logged. *)
Definition handleForm (svc : Services) (form : Form) : Response * list Call :=
  let patientId := orUndefined (patientId form) in
  let originalFilename := orUndefined (originalFilename form) in
  let failed := failure 500 (Some "File upload failed"%string) in
  match file form with
  | None => (failure 400 (Some "No file provided"%string), [])
  | Some f =>
      match orUndefined (clinicId form) with
      | None => (failure 400 (Some "Valid clinic ID is required"%string), [])
      | Some clinicId =>
          if negb (isValidObjectId svc clinicId) then
            (failure 400 (Some "Valid clinic ID is required"%string), [])
          else
            match dbConnect svc with
            | Throws _ => (failed, [CallDbConnect])
            | Returns _ =>
                match findClinicById svc clinicId with
                | Throws _ => (failed, [CallDbConnect; CallFindClinic clinicId])
                | Returns None =>
                    (failure 404 (Some "Clinic not found"%string),
                     [CallDbConnect; CallFindClinic clinicId])
                | Returns (Some clinicName) =>
                    let filename := default (fileName f) originalFilename in
                    let options :=
                      {| optClinicId := clinicId; optClinicName := clinicName;
                         optFilename := filename; optFileType := fileType f;
                         optPatientId := patientId;
                         optTags := ["medical_document"%string;
                                     ("type_" ++ replaceFirstSlash (fileType f))%string] |} in
                    let calls :=
                      [CallDbConnect; CallFindClinic clinicId; CallUpload options] in
                    match uploadToCloudinary svc options with
                    | Throws _ => (failed, calls)
                    | Returns result =>
                        if negb (uploaded result) then
                          (failure 500 (uploadError result), calls)
                        else
                          let m :=
                            {| metaOriginalFilename := filename; metaSize := fileSize f;
                               metaType := fileType f; metaClinicId := clinicId;
                               metaPatientId := patientId; metaUrl := url result;
                               metaPublicId := public_id result |} in
                          let stored :=
                            match createMetadata svc m with
                            | Returns _ => [CallCreateMetadata m]
                            | Throws _ =>
                                [CallCreateMetadata m;
                                 LogWarning "Failed to store file metadata:"]
                            end in
                          ({| status := 200; success := true; error := None;
                              responseFile :=
                                Some {| resultOf := result;
                                        respOriginalFilename := filename;
                                        respSize := fileSize f;
                                        respType := fileType f |} |},
                           calls ++ stored)
                    end
                end
            end
      end
  end.

(** [POST]: [request.formData()] may throw, which the outer [catch]
    answers as well. *)
Definition POST (svc : Services) (request : Outcome Form) : Response * list Call :=
  match request with
  | Returns form => handleForm svc form
  | Throws _ => (failure 500 (Some "File upload failed"%string), [])
  end.

End Upload.

(** ** The add-patient page *)

Module AddPatient.

(** The patient object of the add form: every field is the text of an
    input. *)
Record Draft : Type := mkDraft {
  draftName : string;
  draftID_code : string;
  draftLastVisit : string
}.

Definition emptyDraft : Draft :=
  {| draftName := ""; draftID_code := ""; draftLastVisit := "" |}.

(** The keys of the draft that [handleChange] is given as [name]. *)
Inductive Key : Type := KeyName | KeyID_code | KeyLastVisit.

(** [handleChange]: [{...prev, [name]: value}] *)
Definition handleChange (key : Key) (value : string) (prev : Draft) : Draft :=
  match key with
  | KeyName =>
      {| draftName := value; draftID_code := draftID_code prev;
         draftLastVisit := draftLastVisit prev |}
  | KeyID_code =>
      {| draftName := draftName prev; draftID_code := value;
         draftLastVisit := draftLastVisit prev |}
  | KeyLastVisit =>
      {| draftName := draftName prev; draftID_code := draftID_code prev;
         draftLastVisit := value |}
  end.

(** [patientToSubmit].  [lastVisit] holds the text [new Date] is applied
    to, [None] for [undefined]; [HN_code] is what [useNextHNCode] gave;
    [history] is the empty array the draft starts with and is left out. *)
Record Submission : Type := mkSubmission {
  subName : string;
  subID_code : string;
  subHN_code : option string;
  subLastVisit : option string
}.

Inductive Effect : Type :=
| Alert (msg : string)
| AddPatientCall (clinicId : string) (patientData : Submission)
| Navigate (path : string).

(** [handleSubmit]; [addPatientOk] is whether
    [dispatch(addPatient(...)).unwrap()] resolves. *)
Definition handleSubmit (clinicId : option string) (nextHNCode : option string)
  (addPatientOk : bool) (patient : Draft) : list Effect :=
  match clinicId with
  | None => [Alert "Missing clinic ID"]
  | Some c =>
      if String.eqb c "" then [Alert "Missing clinic ID"]
      else if String.eqb (draftName patient) "" then [Alert "Name is required"]
      else
        let patientToSubmit :=
          {| subName := draftName patient; subID_code := draftID_code patient;
             subHN_code := nextHNCode;
             subLastVisit :=
               if String.eqb (draftLastVisit patient) "" then None
               else Some (draftLastVisit patient) |} in
        if addPatientOk then [AddPatientCall c patientToSubmit; Navigate "/dashboard"]
        else [AddPatientCall c patientToSubmit;
              Alert "Failed to add patient. Please try again."]
  end.

End AddPatient.

(** Collaborators of the upload route for the examples: the clinic [c1]
    exists, the upload succeeds and the metadata store is down. *)
Definition sampleServices : Upload.Services :=
  {| Upload.isValidObjectId := fun id => String.eqb id "c1";
     Upload.dbConnect := Returns tt;
     Upload.findClinicById :=
       fun id => Returns (if String.eqb id "c1" then Some "Clinic One"%string else None);
     Upload.uploadToCloudinary :=
       fun _ => Returns {| Upload.uploaded := true; Upload.uploadError := None;
                           Upload.url := Some "https://res.example/report"%string;
                           Upload.public_id := Some "report"%string |};
     Upload.createMetadata := fun _ => Throws "metadata store is down" |}.

(** A form with a file, the clinic [c1] and an empty original filename. *)
Definition sampleForm : Upload.Form :=
  {| Upload.file := Some {| Upload.fileName := "report.pdf";
                            Upload.fileType := "application/pdf";
                            Upload.fileSize := 1024 |};
     Upload.clinicId := Some "c1"%string;
     Upload.patientId := Some ""%string;
     Upload.originalFilename := Some ""%string |}.

(** A filled add form. *)
Definition sampleDraft : AddPatient.Draft :=
  {| AddPatient.draftName := "Somchai"; AddPatient.draftID_code := "";
     AddPatient.draftLastVisit := "" |}.

(** A patient object that has a history and nothing else. *)
Definition historyOnly (h : list (slot IHistoryRecord)) : Patient :=
  {| _id := None; name := None; HN_code := None; ID_code := None;
     lastVisit := None; history := Some h |}.

(** * Properties *)

(** ** Arrays *)

Section ArrayFacts.
Context {A : Type}.
Implicit Types (a : list (slot A)) (i : Z).

Lemma length_spread a : JsArray.length (spread a) = JsArray.length a.
Proof. unfold JsArray.length, spread. now rewrite length_map. Qed.

Lemma get_spread a i : get (spread a) i = get a i.
Proof.
  unfold get, spread. destruct (i <? 0); [reflexivity |].
  rewrite nth_error_map. destruct (nth_error a (Z.to_nat i)) as [[]|]; reflexivity.
Qed.

Lemma get_out_of_range a i : i < 0 \/ JsArray.length a <= i -> get a i = Undefined.
Proof.
  unfold get, JsArray.length. intros [H|H].
  - apply Z.ltb_lt in H. now rewrite H.
  - destruct (i <? 0); [reflexivity |].
    assert (Hn : nth_error a (Z.to_nat i) = None) by (apply nth_error_None; lia).
    now rewrite Hn.
Qed.
End ArrayFacts.

(** ** Invalid indices leave the buffer alone *)

Lemma onAddDocument_invalid_record recordIndex url prev :
  record_index_invalid recordIndex prev -> onAddDocument recordIndex url prev = prev.
Proof.
  unfold record_index_invalid, onAddDocument, getActualRecordIndex.
  destruct (history prev) as [h|]; [| reflexivity].
  intros [H|H].
  - apply Z.ltb_lt in H. now rewrite H.
  - apply Z.geb_le in H. rewrite H. now rewrite orb_true_r.
Qed.

Lemma onRemoveDocument_invalid_record recordIndex documentIndex prev :
  record_index_invalid recordIndex prev ->
  onRemoveDocument recordIndex documentIndex prev = prev.
Proof.
  unfold record_index_invalid, onRemoveDocument, getActualRecordIndex.
  destruct (history prev) as [h|]; [| reflexivity].
  intros [H|H].
  - apply Z.ltb_lt in H. now rewrite H.
  - apply Z.geb_le in H. rewrite H. now rewrite orb_true_r.
Qed.

Lemma onRemoveDocument_invalid_document recordIndex documentIndex prev :
  document_index_invalid recordIndex documentIndex prev ->
  onRemoveDocument recordIndex documentIndex prev = prev.
Proof.
  intros (h & record & Hh & Hget & Hd).
  unfold onRemoveDocument, getActualRecordIndex. rewrite Hh.
  destruct ((recordIndex <? 0) || (recordIndex >=? JsArray.length h)); [reflexivity |].
  rewrite get_spread, Hget.
  destruct (document_urls record) as [urls|]; [| reflexivity].
  simpl in Hd. destruct Hd as [Hd|Hd].
  - apply Z.ltb_lt in Hd. now rewrite Hd.
  - apply Z.geb_le in Hd. rewrite Hd. now rewrite orb_true_r.
Qed.

(** C10.  An add-document or remove-document callback whose record index is
    out of bounds of the history, and a remove-document callback whose
    document index is out of bounds of the record's [document_urls],
    return the previous buffer state itself: nothing is changed. *)
Theorem C10_invalid_index_keeps_buffer :
  forall (recordIndex documentIndex : Z) (url : string) (prev : Patient),
    (record_index_invalid recordIndex prev ->
       onAddDocument recordIndex url prev = prev
       /\ onRemoveDocument recordIndex documentIndex prev = prev)
    /\ (document_index_invalid recordIndex documentIndex prev ->
          onRemoveDocument recordIndex documentIndex prev = prev).
Proof.
  intros. split.
  - intros H. split.
    + now apply onAddDocument_invalid_record.
    + now apply onRemoveDocument_invalid_record.
  - apply onRemoveDocument_invalid_document.
Qed.

Lemma C10_invalid_index_keeps_buffer_witness :
  onAddDocument 2 "d" storedPatient = storedPatient
  /\ onRemoveDocument (-1) 0 storedPatient = storedPatient
  /\ onRemoveDocument 1 1 storedPatient = storedPatient.
Proof.
  split; [| split].
  - refine (proj1 (proj1 (C10_invalid_index_keeps_buffer 2 0 "d" storedPatient) _)).
    unfold record_index_invalid, JsArray.length. simpl. right. lia.
  - refine (proj2 (proj1 (C10_invalid_index_keeps_buffer (-1) 0 "d" storedPatient) _)).
    unfold record_index_invalid. simpl. left. lia.
  - refine (proj2 (C10_invalid_index_keeps_buffer 1 1 "d" storedPatient) _).
    exists [Elem record1; Elem record2], record2.
    split; [reflexivity |]. split; [reflexivity |]. right. simpl. lia.
Defined.

(** ** Valid indices *)

Lemma remove_index_from_past j documentIndex urls :
  documentIndex < j -> remove_index_from j documentIndex urls = urls.
Proof.
  revert j. induction urls as [|u urls IH]; intros j Hj; simpl; [reflexivity |].
  replace (j =? documentIndex) with false by (symmetry; apply Z.eqb_neq; lia).
  f_equal. apply IH. lia.
Qed.

(** [filter((_, i) => i !== documentIndex)] drops the document at that
    index and keeps the others in order. *)
Lemma remove_index_from_spec i documentIndex urls :
  i <= documentIndex ->
  remove_index_from i documentIndex urls
  = firstn (Z.to_nat (documentIndex - i)) urls
    ++ skipn (S (Z.to_nat (documentIndex - i))) urls.
Proof.
  revert i. induction urls as [|u urls IH]; intros i Hi; simpl.
  - now rewrite firstn_nil.
  - destruct (i =? documentIndex) eqn:E.
    + apply Z.eqb_eq in E. subst. rewrite Z.sub_diag. simpl.
      apply remove_index_from_past. lia.
    + apply Z.eqb_neq in E.
      rewrite IH by lia.
      replace (Z.to_nat (documentIndex - i)) with (S (Z.to_nat (documentIndex - (i + 1))))
        by lia.
      reflexivity.
Qed.

(** With valid indices [onRemoveDocument] takes the document at
    [documentIndex] out of the record at [recordIndex] and [onAddDocument]
    appends the URL to the documents of the record. *)
Lemma onRemoveDocument_valid recordIndex documentIndex prev h record urls :
  history prev = Some h ->
  get h recordIndex = Elem record ->
  0 <= recordIndex < JsArray.length h ->
  document_urls record = Some urls ->
  0 <= documentIndex < Z.of_nat (List.length urls) ->
  onRemoveDocument recordIndex documentIndex prev
  = set_history
      (replace_at (Z.to_nat recordIndex)
         (Elem (set_document_urls
                  (firstn (Z.to_nat documentIndex) urls
                   ++ skipn (S (Z.to_nat documentIndex)) urls) record))
         (spread h))
      prev.
Proof.
  intros Hh Hget Hi Hurls Hd.
  unfold onRemoveDocument, getActualRecordIndex. rewrite Hh.
  replace (recordIndex <? 0) with false by (symmetry; apply Z.ltb_ge; lia).
  replace (recordIndex >=? JsArray.length h) with false
    by (symmetry; rewrite Z.geb_leb; apply Z.leb_gt; lia).
  simpl. rewrite get_spread, Hget, Hurls.
  replace (documentIndex <? 0) with false by (symmetry; apply Z.ltb_ge; lia).
  replace (documentIndex >=? Z.of_nat (List.length urls)) with false
    by (symmetry; rewrite Z.geb_leb; apply Z.leb_gt; lia).
  simpl. unfold set.
  replace (recordIndex <? 0) with false by (symmetry; apply Z.ltb_ge; lia).
  rewrite length_spread.
  replace (recordIndex <? JsArray.length h) with true
    by (symmetry; apply Z.ltb_lt; lia).
  rewrite remove_index_from_spec by lia. now rewrite Z.sub_0_r.
Qed.

Lemma onAddDocument_valid recordIndex url prev h record :
  history prev = Some h ->
  get h recordIndex = Elem record ->
  0 <= recordIndex < JsArray.length h ->
  onAddDocument recordIndex url prev
  = set_history
      (replace_at (Z.to_nat recordIndex)
         (Elem (set_document_urls (default [] (document_urls record) ++ [url]) record))
         (spread h))
      prev.
Proof.
  intros Hh Hget Hi.
  unfold onAddDocument, getActualRecordIndex. rewrite Hh.
  replace (recordIndex <? 0) with false by (symmetry; apply Z.ltb_ge; lia).
  replace (recordIndex >=? JsArray.length h) with false
    by (symmetry; rewrite Z.geb_leb; apply Z.leb_gt; lia).
  simpl. rewrite get_spread, Hget. unfold set.
  replace (recordIndex <? 0) with false by (symmetry; apply Z.ltb_ge; lia).
  rewrite length_spread.
  replace (recordIndex <? JsArray.length h) with true
    by (symmetry; apply Z.ltb_lt; lia).
  reflexivity.
Qed.

(** ** Sorting newest first *)

Lemma records_app h1 h2 : records (h1 ++ h2) = records h1 ++ records h2.
Proof. unfold records. apply flat_map_app. Qed.

Lemma records_no_elem h :
  Forall (fun s => falsy s = true) h -> records h = [].
Proof.
  induction 1 as [|s h Hs _ IH]; [reflexivity |].
  destruct s; simpl in *; try discriminate; exact IH.
Qed.

Lemma records_filter_undefined (h : list (slot IHistoryRecord)) :
  records (List.filter is_undefined h) = [].
Proof.
  apply records_no_elem. apply List.Forall_forall. intros s Hs.
  apply List.filter_In in Hs. destruct Hs as [_ Hs]. now destruct s.
Qed.

Lemma records_filter_hole (h : list (slot IHistoryRecord)) :
  records (List.filter is_hole h) = [].
Proof.
  apply records_no_elem. apply List.Forall_forall. intros s Hs.
  apply List.filter_In in Hs. destruct Hs as [_ Hs]. now destruct s.
Qed.

Lemma records_filter_value (h : list (slot IHistoryRecord)) :
  records (List.filter is_value h) = records h.
Proof.
  induction h as [|s h IH]; [reflexivity |].
  destruct s; simpl; try exact IH. now rewrite IH.
Qed.

Lemma records_spread h : records (spread h) = records h.
Proof.
  induction h as [|s h IH]; [reflexivity |].
  destruct s; simpl; try exact IH. now rewrite IH.
Qed.

(** Inserting into a descending list gives a descending list with the same
    records and the new one. *)
Lemma insert_descending x l l' :
  descending l ->
  insert newestFirst x l = Returns l' ->
  descending l' /\ Permutation (records (x :: l)) (records l').
Proof.
  revert l'. induction l as [|y l IH]; intros l' Hl Hins.
  - simpl in Hins. inversion Hins; subst. split; [| reflexivity].
    unfold descending. destruct x; simpl; repeat constructor.
  - simpl in Hins.
    destruct x as [| | |rx]; simpl in Hins; try discriminate.
    destruct y as [| | |ry]; simpl in Hins; try discriminate.
    destruct (timestamp ry - timestamp rx <=? 0) eqn:Hc.
    + inversion Hins; subst. split; [| reflexivity].
      apply Z.leb_le in Hc. unfold descending in *. simpl in *.
      constructor; [exact Hl |].
      inversion Hl as [| ? ? _ Hall]; subst.
      constructor; [lia |].
      eapply List.Forall_impl; [| exact Hall]. simpl. intros; lia.
    + apply Z.leb_gt in Hc.
      destruct (insert newestFirst (Elem rx) l) as [r|] eqn:Hr; simpl in Hins;
        [| discriminate].
      inversion Hins; subst.
      unfold descending in Hl. simpl in Hl.
      inversion Hl as [| ? ? Hl' Hall]; subst.
      destruct (IH r Hl' eq_refl) as [Hr' Hperm]. simpl in Hperm.
      split.
      * unfold descending. simpl. constructor; [exact Hr' |].
        eapply Permutation_Forall; [exact Hperm |].
        constructor; [lia | exact Hall].
      * simpl. rewrite perm_swap. now constructor.
Qed.

Lemma sort_values_descending l l' :
  sort_values newestFirst l = Returns l' ->
  descending l' /\ Permutation (records l) (records l').
Proof.
  revert l'. induction l as [|x l IH]; intros l' H.
  - inversion H; subst. split; [constructor | reflexivity].
  - simpl in H.
    destruct (sort_values newestFirst l) as [s|] eqn:Hs; simpl in H; [| discriminate].
    destruct (IH s eq_refl) as [Hd Hp].
    destruct (insert_descending x s l' Hd H) as [Hd' Hp'].
    split; [exact Hd' |].
    etransitivity; [| exact Hp'].
    change (x :: l) with ([x] ++ l). change (x :: s) with ([x] ++ s).
    rewrite !records_app. now apply Permutation_app_head.
Qed.

Lemma insert_length {A} (cmp : slot A -> slot A -> Outcome Z) x l l' :
  insert cmp x l = Returns l' -> List.length l' = S (List.length l).
Proof.
  revert l'. induction l as [|y l IH]; intros l' H; simpl in H.
  - now inversion H.
  - destruct (cmp x y) as [c|]; simpl in H; [| discriminate].
    destruct (c <=? 0); [now inversion H |].
    destruct (insert cmp x l) as [r|]; simpl in H; [| discriminate].
    inversion H; subst. simpl. now rewrite (IH r eq_refl).
Qed.

Lemma sort_values_length {A} (cmp : slot A -> slot A -> Outcome Z) l l' :
  sort_values cmp l = Returns l' -> List.length l' = List.length l.
Proof.
  revert l'. induction l as [|x l IH]; intros l' H; simpl in H.
  - now inversion H.
  - destruct (sort_values cmp l) as [s|]; simpl in H; [| discriminate].
    apply insert_length in H. rewrite H. simpl. now rewrite (IH s eq_refl).
Qed.

Lemma slots_partition_length {A} (h : list (slot A)) :
  (List.length (List.filter is_value h)
   + (List.length (List.filter is_undefined h)
      + List.length (List.filter is_hole h)))%nat = List.length h.
Proof.
  induction h as [|s h IH]; [reflexivity |].
  destruct s; simpl; lia.
Qed.

(** What [sort] returns is in descending order, holds the records it was
    given and has the length of the array it was given. *)
Lemma sort_descending h h' :
  sort newestFirst h = Returns h' ->
  descending h' /\ Permutation (records h) (records h')
  /\ List.length h' = List.length h.
Proof.
  unfold sort. intros H.
  destruct (sort_values newestFirst (List.filter is_value h)) as [s|] eqn:Hs;
    simpl in H; [| discriminate].
  inversion H; subst. clear H.
  destruct (sort_values_descending _ _ Hs) as [Hd Hp].
  rewrite records_filter_value in Hp.
  unfold descending.
  rewrite !records_app, records_filter_undefined, records_filter_hole, !app_nil_r.
  split; [exact Hd |]. split; [exact Hp |].
  rewrite !length_app, (sort_values_length _ _ _ Hs).
  apply slots_partition_length.
Qed.

Lemma insert_returns x l :
  falsy x = false -> Forall (fun s => falsy s = false) l ->
  exists l', insert newestFirst x l = Returns l'
             /\ Forall (fun s => falsy s = false) l'.
Proof.
  intros Hx Hl. induction Hl as [|y l Hy Hl IH].
  - exists [x]. split; [reflexivity | now constructor].
  - destruct x as [| | |rx]; try discriminate.
    destruct y as [| | |ry]; try discriminate.
    simpl. destruct (timestamp ry - timestamp rx <=? 0).
    + eexists. split; [reflexivity |]. now repeat constructor.
    + destruct IH as (r & Hr & Hall). simpl in Hr. rewrite Hr. simpl.
      eexists. split; [reflexivity |]. now constructor.
Qed.

Lemma sort_values_returns l :
  Forall (fun s => falsy s = false) l ->
  exists l', sort_values newestFirst l = Returns l'
             /\ Forall (fun s => falsy s = false) l'.
Proof.
  induction 1 as [|x l Hx Hl IH].
  - exists []. split; [reflexivity | constructor].
  - destruct IH as (s & Hs & Hall). simpl. rewrite Hs. simpl.
    now apply insert_returns.
Qed.

(** On an array without [null] the comparator never throws. *)
Lemma sort_returns h :
  null_free h -> exists h', sort newestFirst h = Returns h'.
Proof.
  intros Hnf. unfold sort.
  destruct (sort_values_returns (List.filter is_value h)) as (s & Hs & _).
  - apply List.Forall_forall. intros x Hx. apply List.filter_In in Hx.
    destruct Hx as [Hin Hv]. unfold null_free in Hnf.
    rewrite List.Forall_forall in Hnf. specialize (Hnf x Hin).
    destruct x; simpl in *; congruence.
  - rewrite Hs. simpl. eauto.
Qed.

Lemma null_free_spread {A} (h : list (slot A)) : null_free h -> null_free (spread h).
Proof.
  unfold null_free, spread. intros H. apply List.Forall_map.
  eapply List.Forall_impl; [| exact H]. intros s Hs. now destruct s.
Qed.

Lemma null_free_replace_at {A} n (v : slot A) h :
  v <> Null -> null_free h -> null_free (replace_at n v h).
Proof.
  intros Hv Hh. revert n. unfold null_free in *.
  induction Hh as [|s h Hs Hh IH]; intros n.
  - destruct n; constructor.
  - destruct n; simpl; constructor; solve [assumption | apply IH].
Qed.

Lemma null_free_set {A} (h : list (slot A)) i a :
  null_free h -> null_free (set h i (Elem a)).
Proof.
  intros Hh. unfold set.
  destruct (i <? 0); [exact Hh |].
  destruct (i <? JsArray.length h).
  - now apply null_free_replace_at.
  - destruct (i <? index_limit); [| exact Hh].
    unfold null_free. rewrite !List.Forall_app. split; [exact Hh |]. split.
    + apply List.Forall_forall. intros s Hs. apply repeat_spec in Hs. now subst.
    + now repeat constructor.
Qed.

(** [handleAddRecord] leaves the history in descending order of timestamp:
    it holds the records it held and the new one. *)
Theorem handleAddRecord_descending newRecord prev next :
  handleAddRecord newRecord prev = Returns next ->
  history_descending next
  /\ Permutation (newRecord :: records (default [] (history prev)))
       (records (default [] (history next))).
Proof.
  unfold handleAddRecord. intros H.
  destruct (sort newestFirst (spread (default [] (history prev)) ++ [Elem newRecord]))
    as [h'|] eqn:Hs; simpl in H; [| discriminate].
  inversion H; subst. clear H.
  destruct (sort_descending _ _ Hs) as (Hd & Hp & _).
  split; [exact Hd |].
  simpl. rewrite records_app, records_spread in Hp. simpl in Hp.
  etransitivity; [| exact Hp]. apply Permutation_cons_append.
Qed.

(** [handleAddRecord] returns on every buffer whose history has no [null]. *)
Theorem handleAddRecord_returns newRecord prev :
  null_free (default [] (history prev)) ->
  exists next, handleAddRecord newRecord prev = Returns next.
Proof.
  intros Hnf. unfold handleAddRecord.
  destruct (sort_returns (spread (default [] (history prev)) ++ [Elem newRecord]))
    as (h' & Hs).
  - unfold null_free. rewrite List.Forall_app. split.
    + now apply null_free_spread.
    + now repeat constructor.
  - rewrite Hs. simpl. eauto.
Qed.

(** [handleUpdateRecordDate] leaves the history in descending order of
    timestamp. *)
Theorem handleUpdateRecordDate_descending index newDate prev next :
  history prev <> None ->
  handleUpdateRecordDate index newDate prev = Returns next ->
  history_descending next.
Proof.
  unfold handleUpdateRecordDate. intros Hh H.
  destruct (history prev) as [h|]; [| congruence].
  destruct (sort newestFirst _) as [h'|] eqn:Hs; simpl in H; [| discriminate].
  inversion H; subst. clear H.
  exact (proj1 (sort_descending _ _ Hs)).
Qed.

(** [handleUpdateRecordDate] returns on every buffer whose history has no
    [null]. *)
Theorem handleUpdateRecordDate_returns index newDate prev :
  null_free (default [] (history prev)) ->
  exists next, handleUpdateRecordDate index newDate prev = Returns next.
Proof.
  intros Hnf. unfold handleUpdateRecordDate.
  destruct (history prev) as [h|]; [| eauto]. simpl in Hnf.
  match goal with |- context [sort newestFirst ?a] =>
    destruct (sort_returns a) as (h' & Hs) end.
  - apply null_free_set. now apply null_free_spread.
  - rewrite Hs. simpl. eauto.
Qed.

(** C4.  [handleUpdateRecord] replaces the record at the index and does not
    sort: on the sample patient, whose history is in descending order,
    giving the second record a date newer than the first record's leaves
    the newer record after the older one. *)
Theorem C4_handleUpdateRecord_leaves_history_unsorted :
  history_descending storedPatient
  /\ history (handleUpdateRecord 1 record2Redated storedPatient)
     = Some [Elem record1; Elem record2Redated]
  /\ ~ history_descending (handleUpdateRecord 1 record2Redated storedPatient).
Proof.
  split; [| split].
  - unfold history_descending, descending. simpl.
    repeat constructor. unfold record1, record2. simpl. lia.
  - reflexivity.
  - unfold history_descending, descending. simpl. intros H.
    inversion H as [| ? ? _ Hall]; subst.
    inversion Hall as [| ? ? Hle _]; subst.
    unfold record1, record2Redated in Hle. simpl in Hle. lia.
Qed.

(** ** What the document manager leaves alone *)

(** Commit and rollback change neither the snapshot nor any flag of the
    page; they add the remote deletes they issue to the trace. *)
Lemma deleteAll_frame env urls s :
  let s' := snd (deleteAll env urls s) in
  patient s' = patient s /\ originalPatient s' = originalPatient s
  /\ pendingOperations s' = pendingOperations s.
Proof.
  revert s. induction urls as [|u urls IH]; intros s; simpl; [auto |].
  destruct (deleteAll env urls (emit _ s)) as [failed s'] eqn:Hd.
  specialize (IH (emit (EvRemoteDelete u (storageDelete env (List.length (trace s)) u)) s)).
  rewrite Hd in IH. simpl in *. exact IH.
Qed.

Lemma rollbackOperation_original env acc op :
  originalPatient (fst (rollbackOperation env acc op)) = originalPatient (fst acc).
Proof.
  destruct acc as [s r]. destruct op as [i u|i u|i us]; simpl; try reflexivity.
  destruct (storageDelete env (List.length (trace s)) u); reflexivity.
Qed.

Lemma rollback_fold_original env ops acc :
  originalPatient (fst (fold_left (rollbackOperation env) ops acc))
  = originalPatient (fst acc).
Proof.
  revert acc. induction ops as [|op ops IH]; intros acc; simpl; [reflexivity |].
  rewrite IH. apply rollbackOperation_original.
Qed.

Lemma rollbackPendingOperations_returns env s :
  exists s' r,
    rollbackPendingOperations env s = Returns (s', r)
    /\ originalPatient s' = originalPatient s
    /\ pendingOperations s' = [].
Proof.
  unfold rollbackPendingOperations.
  pose proof (rollback_fold_original env (rev (pendingOperations s)) (s, noSummary)) as H.
  destruct (fold_left _ _ _) as [s' r]. simpl in H.
  exists (setPendingOperations (fun _ => []) s'), r. auto.
Qed.

(** The document operations of a session do not touch the snapshot. *)
Lemma applyEdit_original s e : originalPatient (applyEdit s e) = originalPatient s.
Proof.
  destruct e as [i u|i d|i|i u|i d u|i us|n]; simpl; try reflexivity.
  - unfold handleRemoveDocument.
    destruct (get _ i) as [| | |r]; try reflexivity.
    destruct (url_at _ d) as [u|]; [| reflexivity].
    destruct (truthy (Some u)); reflexivity.
  - unfold handleRemoveRecord. destruct (get _ i); reflexivity.
  - unfold undoOperation. destruct (nth_error _ n) as [[]|]; reflexivity.
Qed.

Lemma session_original edits s :
  originalPatient (session edits s) = originalPatient s.
Proof.
  unfold session. revert s. induction edits as [|e edits IH]; intros s; simpl.
  - reflexivity.
  - rewrite IH. apply applyEdit_original.
Qed.

(** ** Discarding restores the snapshot *)

Lemma JSON_copy_idempotent p : JSON_copy (JSON_copy p) = JSON_copy p.
Proof.
  unfold JSON_copy. simpl. f_equal.
  destruct (history p) as [h|]; [| reflexivity]. simpl. f_equal.
  rewrite map_map. apply map_ext. now intros [].
Qed.

(** The snapshot taken on load is the JSON copy of the buffer. *)
Lemma loadPatient_snapshot fromStore s0 s :
  loadPatient fromStore s0 = Returns s ->
  originalPatient s = Some (JSON_copy (patient s))
  /\ pendingOperations s = pendingOperations s0
  /\ hasUnsavedChanges s = false.
Proof.
  unfold loadPatient. intros H.
  destruct (match history fromStore with Some h => processHistory h | None => Returns [] end)
    as [ph|]; simpl in H; [| discriminate].
  destruct (sort newestFirst (spread ph)) as [sh|]; simpl in H; [| discriminate].
  inversion H; subst. simpl. auto.
Qed.

(** Whatever the buffer holds and whatever the remote calls of the reversal
    answer, [confirmDiscard] puts the JSON copy of the snapshot into the
    buffer and leaves no pending operation. *)
Lemma confirmDiscard_restores env s snapshot :
  originalPatient s = Some snapshot ->
  patient (confirmDiscard env s) = JSON_copy snapshot
  /\ pendingOperations (confirmDiscard env s) = []
  /\ originalPatient (confirmDiscard env s) = Some snapshot
  /\ hasUnsavedChanges (confirmDiscard env s) = false.
Proof.
  intros Ho. unfold confirmDiscard.
  destruct (rollbackPendingOperations_returns env (setIsRollbackInProgress true s))
    as (s' & r & Hr & Ho' & Hp').
  rewrite Hr. simpl in Ho'. rewrite Ho in Ho'. rewrite Ho'. simpl. auto.
Qed.

(** C2.  After any sequence of attach, detach and record-deletion
    operations of an edit session, [confirmDiscard] leaves the buffer equal
    to the snapshot taken when the patient was last loaded or committed,
    whatever the remote deletes of the reversal answer. *)
Theorem C2_rollback_restores_snapshot :
  forall (env : Env) (edits : list Edit) (s : State) (snapshot : Patient),
    originalPatient s = Some snapshot ->
    JSON_copy snapshot = snapshot ->
    patient (confirmDiscard env (session edits s)) = snapshot
    /\ pendingOperations (confirmDiscard env (session edits s)) = [].
Proof.
  intros env edits s snapshot Ho Hn.
  destruct (confirmDiscard_restores env (session edits s) snapshot) as (Hp & Hl & _).
  - rewrite session_original. exact Ho.
  - rewrite Hp, Hn. auto.
Qed.

Lemma C2_rollback_restores_snapshot_witness :
  patient (confirmDiscard storageDown
             (session [HandleAddDocument 0 "d"; HandleRemoveDocument 0 1;
                       HandleRemoveRecord 1] openedSession))
  = JSON_copy storedPatient.
Proof.
  refine (proj1 (C2_rollback_restores_snapshot storageDown
                   [HandleAddDocument 0 "d"; HandleRemoveDocument 0 1;
                    HandleRemoveRecord 1]
                   openedSession (JSON_copy storedPatient) _ _)).
  - reflexivity.
  - reflexivity.
Defined.

(** Every session opened by loading a patient has a snapshot that is its
    own JSON copy, so that the theorem above applies to it. *)
Lemma loaded_snapshot_is_json fromStore s0 s :
  loadPatient fromStore s0 = Returns s ->
  exists snapshot, originalPatient s = Some snapshot /\ JSON_copy snapshot = snapshot.
Proof.
  intros H. apply loadPatient_snapshot in H. destruct H as (Ho & _).
  eexists. split; [exact Ho |]. apply JSON_copy_idempotent.
Qed.

Lemma commitOperation_original env acc op :
  originalPatient (fst (commitOperation env acc op)) = originalPatient (fst acc).
Proof.
  destruct acc as [s r]. destruct op as [i u|i u|i us]; simpl; try reflexivity.
  - destruct (storageDelete env (List.length (trace s)) u); reflexivity.
  - pose proof (deleteAll_frame env us s) as (_ & Ho & _).
    destruct (deleteAll env us s) as [failed s']. simpl in *.
    destruct failed; exact Ho.
Qed.

Lemma commit_fold_original env ops acc :
  originalPatient (fst (fold_left (commitOperation env) ops acc))
  = originalPatient (fst acc).
Proof.
  revert acc. induction ops as [|op ops IH]; intros acc; cbn [fold_left]; [reflexivity |].
  rewrite IH. apply commitOperation_original.
Qed.

(** The snapshot stays a JSON copy across a save: it is either kept or
    replaced by the JSON copy of what was saved. *)
Lemma handleSave_snapshot_is_json env clinicId s :
  (forall snapshot, originalPatient s = Some snapshot -> JSON_copy snapshot = snapshot) ->
  forall snapshot,
    originalPatient (handleSave env clinicId s) = Some snapshot ->
    JSON_copy snapshot = snapshot.
Proof.
  intros Hs snapshot. unfold handleSave.
  destruct (negb (truthy (_id (patient s))) || negb (truthy clinicId)); [apply Hs |].
  destruct (negb (truthy (name (patient s))) || negb (truthy (HN_code (patient s))));
    [apply Hs |].
  set (s1 := emit _ (setIsSaving true s)).
  assert (Hfail : originalPatient (saveFailed env s1) = originalPatient s).
  { unfold saveFailed, handleDiscard.
    destruct (keepEditing env); [reflexivity |]. simpl.
    destruct (hasUnsavedChanges s); reflexivity. }
  destruct (updatePatientOk env).
  - unfold commitPendingOperations.
    destruct (fold_left _ _ _) as [s' r]. simpl.
    intros H. inversion H. apply JSON_copy_idempotent.
  - simpl. rewrite Hfail. apply Hs.
Qed.

(** ** Unsaved changes *)



(** ** The pending operation log *)

Lemma refers_to_overlaps p new old :
  refers_to p new = true -> refers_to p old = true -> overlaps new old = true.
Proof.
  unfold overlaps, refers_to. intros Hn Ho.
  apply bool_decide_eq_true in Hn.
  apply existsb_exists. exists p. split; [| exact Ho].
  now apply list_elem_of_In.
Qed.

(** After an operation is recorded, it is the one entry for each pair it
    refers to. *)
Lemma record_operation_replaces new log p :
  refers_to p new = true ->
  List.filter (refers_to p) (record_operation new log) = [new].
Proof.
  intros Hp. unfold record_operation.
  rewrite List.filter_app. simpl. rewrite Hp.
  replace (List.filter (refers_to p) (List.filter (fun old => negb (overlaps new old)) log))
    with (@nil DocumentOperation); [reflexivity |].
  symmetry. induction log as [|old log IH]; [reflexivity |].
  simpl. destruct (overlaps new old) eqn:Hov; simpl; [exact IH |].
  destruct (refers_to p old) eqn:Hold; [| exact IH].
  rewrite (refers_to_overlaps p new old Hp Hold) in Hov. discriminate.
Qed.

Lemma filter_filter_length {A} (f g : A -> bool) (l : list A) :
  (List.length (List.filter f (List.filter g l)) <= List.length (List.filter f l))%nat.
Proof.
  induction l as [|x l IH]; [reflexivity |].
  simpl. destruct (g x); simpl; destruct (f x); simpl; lia.
Qed.

Lemma record_operation_other new log p :
  refers_to p new = false ->
  (entries_for p (record_operation new log) <= entries_for p log)%nat.
Proof.
  intros Hp. unfold entries_for, record_operation.
  rewrite List.filter_app, length_app. simpl. rewrite Hp. simpl.
  rewrite Nat.add_0_r. apply filter_filter_length.
Qed.

Lemma record_operation_invariant new log :
  one_entry_per_pair log -> one_entry_per_pair (record_operation new log).
Proof.
  intros H p. destruct (refers_to p new) eqn:Hp.
  - unfold entries_for. now rewrite record_operation_replaces.
  - etransitivity; [now apply record_operation_other | apply H].
Qed.

Lemma remove_nth_filter_length {A} (f : A -> bool) n (l : list A) :
  (List.length (List.filter f (remove_nth n l)) <= List.length (List.filter f l))%nat.
Proof.
  revert n. induction l as [|x l IH]; intros n; [now destruct n |].
  destruct n; simpl.
  - destruct (f x); simpl; lia.
  - specialize (IH n). destruct (f x); simpl; lia.
Qed.

Lemma applyEdit_invariant s e :
  one_entry_per_pair (pendingOperations s) ->
  one_entry_per_pair (pendingOperations (applyEdit s e)).
Proof.
  intros H.
  destruct e as [i u|i d|i|i u|i d u|i us|n]; simpl;
    try (now apply record_operation_invariant).
  - unfold handleRemoveDocument.
    destruct (get _ i) as [| | |r]; try exact H.
    destruct (url_at _ d) as [u|]; [| exact H].
    destruct (truthy (Some u)); [| exact H].
    now apply record_operation_invariant.
  - unfold handleRemoveRecord.
    destruct (get _ i) as [| | |r]; try exact H.
    now apply record_operation_invariant.
  - unfold undoOperation.
    destruct (nth_error (pendingOperations s) n) as [op|] eqn:Hn; [| exact H].
    assert (Hrm : one_entry_per_pair (remove_nth n (pendingOperations s))).
    { intros p. etransitivity; [apply remove_nth_filter_length | apply H]. }
    destruct op; exact Hrm.
Qed.

Lemma session_invariant edits s :
  one_entry_per_pair (pendingOperations s) ->
  one_entry_per_pair (pendingOperations (session edits s)).
Proof.
  unfold session. revert s. induction edits as [|e edits IH]; intros s H; simpl.
  - exact H.
  - apply IH. now apply applyEdit_invariant.
Qed.

(** C8.  At every point of an edit session opened by loading a patient the
    log holds at most one entry for any [(recordIndex, attachmentRef)]
    pair, and recording an operation leaves it as the only entry for each
    pair it refers to: it replaces the entries it finds there. *)
Theorem C8_one_entry_per_pair :
  forall (fromStore : Patient) (s0 : State) (edits : list Edit),
    loadPatient fromStore initialState = Returns s0 ->
    one_entry_per_pair (pendingOperations (session edits s0))
    /\ forall (new : DocumentOperation) (p : Z * string),
         refers_to p new = true ->
         List.filter (refers_to p)
           (record_operation new (pendingOperations (session edits s0))) = [new].
Proof.
  intros fromStore s0 edits Hload. split.
  - apply session_invariant.
    apply loadPatient_snapshot in Hload. destruct Hload as (_ & Hlog & _).
    rewrite Hlog. intros p. unfold entries_for. simpl. lia.
  - intros new p Hp. now apply record_operation_replaces.
Qed.

Lemma C8_one_entry_per_pair_witness :
  one_entry_per_pair
    (pendingOperations
       (session [HandleAddDocument 0 "d"; RemoveDocumentWithDeferred 0 2 "d";
                 HandleRemoveRecord 0] openedSession))
  /\ List.filter (refers_to (0, "d"%string))
       (record_operation (OpRemove 0 "d")
          (pendingOperations (session [HandleAddDocument 0 "d"] openedSession)))
     = [OpRemove 0 "d"].
Proof.
  split.
  - exact (proj1 (C8_one_entry_per_pair storedPatient openedSession
                    [HandleAddDocument 0 "d"; RemoveDocumentWithDeferred 0 2 "d";
                     HandleRemoveRecord 0] eq_refl)).
  - exact (proj2 (C8_one_entry_per_pair storedPatient openedSession
                    [HandleAddDocument 0 "d"] eq_refl)
             (OpRemove 0 "d") (0, "d"%string) eq_refl).
Defined.

(** A document is attached to the first record and the record is then
    marked for deletion: the DeleteRecord entry, which carries the new
    document, is the only entry left. *)
Example supersession_scenario :
  pendingOperations (handleAddDocument 0 "d" openedSession) = [OpAdd 0 "d"]
  /\ pendingOperations attachedThenMarked = [OpRemoveRecord 0 ["a"; "b"; "d"]%string].
Proof. split; reflexivity. Qed.

(** ** Marking a record for deletion *)

Lemma isRecordMarked_after_record index urls log :
  isRecordMarkedForDeletion (record_operation (OpRemoveRecord index urls) log) index
  = true.
Proof.
  unfold isRecordMarkedForDeletion, record_operation.
  rewrite existsb_app. simpl. rewrite Z.eqb_refl. now rewrite orb_true_r.
Qed.

(** Marking a record for deferred deletion leaves the history of the
    buffer as it is, the marked record included; the record is flagged
    through the pending entry, which names it by its index. *)
Lemma handleRemoveRecord_keeps_history :
  forall (index : Z) (s : State),
    history (patient (handleRemoveRecord index s)) = history (patient s)
    /\ (forall urls,
          patient (markRecordForDeletion index urls s) = patient s
          /\ isRecordMarkedForDeletion
               (pendingOperations (markRecordForDeletion index urls s)) index = true)
    /\ (forall record,
          get (default [] (history (patient s))) index = Elem record ->
          isRecordMarkedForDeletion
            (pendingOperations (handleRemoveRecord index s)) index = true).
Proof.
  intros index s. split; [| split].
  - unfold handleRemoveRecord. destruct (get _ index); reflexivity.
  - intros urls. split; [reflexivity |]. apply isRecordMarked_after_record.
  - intros record Hget. unfold handleRemoveRecord. rewrite Hget.
    apply isRecordMarked_after_record.
Qed.

(** C9.  Marking a record leaves the history as it is, but the indices do
    not stay stable until save.  In the sample session the second record
    is marked, then a record newer than both is added: [handleAddRecord]
    sorts it to the front, the pending entry still names index 1, which
    is now the first record of the patient, and Save persists a history
    without that record and with the marked one, whose document it then
    deletes from storage. *)
Theorem C9_added_record_moves_marked_index :
  (forall index s, history (patient (handleRemoveRecord index s)) = history (patient s))
  /\ history (patient marked2) = Some [Elem record1; Elem record2]
  /\ pendingOperations marked2 = [OpRemoveRecord 1 ["c"%string]]
  /\ handleAddRecord record3 (patient marked2) = Returns (patient marked2ThenAdded)
  /\ history (patient marked2ThenAdded)
     = Some [Elem record3; Elem record1; Elem record2]
  /\ pendingOperations marked2ThenAdded = [OpRemoveRecord 1 ["c"%string]]
  /\ isRecordMarkedForDeletion (pendingOperations marked2ThenAdded) 1 = true
  /\ isRecordMarkedForDeletion (pendingOperations marked2ThenAdded) 2 = false
  /\ history (patientToSave marked2ThenAdded) = Some [Elem record3; Elem record2]
  /\ events_since marked2ThenAdded
       (handleSave storageUp (Some "c1"%string) marked2ThenAdded)
     = [EvUpdatePatient "p1" "c1" (patientToSave marked2ThenAdded) true;
        EvRemoteDelete "c" true;
        EvNavigate "/dashboard"].
Proof.
  split.
  - intros index s. unfold handleRemoveRecord. destruct (get _ index); reflexivity.
  - repeat split.
Qed.

(** ** Traces *)

Lemma skipn_length_app {A} (l x : list A) : skipn (List.length l) (l ++ x) = x.
Proof. induction l as [|a l IH]; [reflexivity | exact IH]. Qed.

Lemma events_since_app before after ev :
  trace after = trace before ++ ev -> events_since before after = ev.
Proof. unfold events_since. intros ->. apply skipn_length_app. Qed.

Lemma remoteDeletes_app t1 t2 : remoteDeletes (t1 ++ t2) = remoteDeletes t1 ++ remoteDeletes t2.
Proof. apply flat_map_app. Qed.

Lemma failedDeletes_app t1 t2 : failedDeletes (t1 ++ t2) = failedDeletes t1 ++ failedDeletes t2.
Proof. apply flat_map_app. Qed.

Lemma persisted_app t1 t2 : persisted (t1 ++ t2) = persisted t1 ++ persisted t2.
Proof. apply flat_map_app. Qed.

Lemma only_deletes_nil : only_deletes [].
Proof. split; [reflexivity | constructor]. Qed.

Lemma only_deletes_app e1 e2 : only_deletes e1 -> only_deletes e2 -> only_deletes (e1 ++ e2).
Proof.
  intros [P1 F1] [P2 F2]. split.
  - now rewrite persisted_app, P1, P2.
  - apply List.Forall_app. now split.
Qed.

Lemma only_deletes_one u ok : only_deletes [EvRemoteDelete u ok].
Proof. split; [reflexivity |]. repeat constructor. eauto. Qed.

(** No document operation of a session adds an event. *)
Lemma applyEdit_trace s e : trace (applyEdit s e) = trace s.
Proof.
  destruct e as [i u|i d|i|i u|i d u|i us|n]; simpl; try reflexivity.
  - unfold handleRemoveDocument.
    destruct (get _ i) as [| | |r]; try reflexivity.
    destruct (url_at _ d) as [u|]; [| reflexivity].
    destruct (truthy (Some u)); reflexivity.
  - unfold handleRemoveRecord. destruct (get _ i); reflexivity.
  - unfold undoOperation. destruct (nth_error _ n) as [[]|]; reflexivity.
Qed.

Lemma session_trace edits s : trace (session edits s) = trace s.
Proof.
  unfold session. revert s. induction edits as [|e edits IH]; intros s; simpl.
  - reflexivity.
  - rewrite IH. apply applyEdit_trace.
Qed.

Lemma deleteAll_trace env urls s :
  exists ev,
    trace (snd (deleteAll env urls s)) = trace s ++ ev
    /\ remoteDeletes ev = urls
    /\ failedDeletes ev = fst (deleteAll env urls s)
    /\ only_deletes ev.
Proof.
  revert s. induction urls as [|u urls IH]; intros s; simpl.
  - exists []. rewrite app_nil_r. auto using only_deletes_nil.
  - set (ok := storageDelete env (List.length (trace s)) u).
    destruct (IH (emit (EvRemoteDelete u ok) s)) as (ev & Ht & Hd & Hf & Ho).
    destruct (deleteAll env urls (emit (EvRemoteDelete u ok) s)) as [failed s'].
    simpl in *. exists (EvRemoteDelete u ok :: ev).
    split; [| split; [| split]].
    + rewrite Ht, <- app_assoc. reflexivity.
    + simpl. now rewrite Hd.
    + simpl. rewrite Hf. now destruct ok.
    + apply (only_deletes_app [_] ev); [apply only_deletes_one | exact Ho].
Qed.

(** Commit issues the remote deletes of the Detach and DeleteRecord entries
    and lists in its warnings the identifiers whose delete failed. *)
Lemma commitOperation_trace env s r op :
  exists ev,
    trace (fst (commitOperation env (s, r) op)) = trace s ++ ev
    /\ remoteDeletes ev = committedUrls [op]
    /\ warnings (snd (commitOperation env (s, r) op)) = warnings r ++ failedDeletes ev
    /\ only_deletes ev.
Proof.
  destruct op as [i u|i u|i us]; simpl.
  - exists []. rewrite !app_nil_r. auto using only_deletes_nil.
  - exists [EvRemoteDelete u (storageDelete env (List.length (trace s)) u)].
    destruct (storageDelete env (List.length (trace s)) u); simpl;
      rewrite ?app_nil_r; auto using only_deletes_one.
  - destruct (deleteAll_trace env us s) as (ev & Ht & Hd & Hf & Ho).
    destruct (deleteAll env us s) as [failed s']. simpl in *.
    exists ev. rewrite app_nil_r, Hf.
    destruct failed; simpl; rewrite ?app_nil_r; auto.
Qed.

Lemma commit_fold_trace env ops s r :
  exists ev,
    trace (fst (fold_left (commitOperation env) ops (s, r))) = trace s ++ ev
    /\ remoteDeletes ev = committedUrls ops
    /\ warnings (snd (fold_left (commitOperation env) ops (s, r)))
       = warnings r ++ failedDeletes ev
    /\ only_deletes ev.
Proof.
  revert s r. induction ops as [|op ops IH]; intros s r; cbn [fold_left].
  - exists []. simpl. rewrite !app_nil_r. auto using only_deletes_nil.
  - destruct (commitOperation_trace env s r op) as (e1 & Ht1 & Hd1 & Hw1 & Ho1).
    destruct (commitOperation env (s, r) op) as [s1 r1]. simpl in *.
    destruct (IH s1 r1) as (e2 & Ht2 & Hd2 & Hw2 & Ho2).
    exists (e1 ++ e2). split; [| split; [| split]].
    + rewrite Ht2, Ht1. now rewrite app_assoc.
    + rewrite remoteDeletes_app, Hd1, Hd2. now rewrite app_nil_r.
    + rewrite Hw2, Hw1, failedDeletes_app. now rewrite app_assoc.
    + now apply only_deletes_app.
Qed.

Lemma commitPendingOperations_trace env s :
  exists s' r ev,
    commitPendingOperations env s = Returns (s', r)
    /\ trace s' = trace s ++ ev
    /\ remoteDeletes ev = committedUrls (pendingOperations s)
    /\ warnings r = failedDeletes ev
    /\ only_deletes ev.
Proof.
  unfold commitPendingOperations.
  destruct (commit_fold_trace env (pendingOperations s) s noSummary)
    as (ev & Ht & Hd & Hw & Ho).
  destruct (fold_left _ _ _) as [s' r]. simpl in *.
  exists (setPendingOperations (fun _ => []) s'), r, ev. auto.
Qed.

(** Rollback issues a remote delete for each Attach entry and for no other
    entry. *)
Lemma rollbackOperation_trace env s r op :
  exists ev,
    trace (fst (rollbackOperation env (s, r) op)) = trace s ++ ev
    /\ remoteDeletes ev = attachedUrls [op].
Proof.
  destruct op as [i u|i u|i us]; simpl.
  - exists [EvRemoteDelete u (storageDelete env (List.length (trace s)) u)].
    destruct (storageDelete env (List.length (trace s)) u); simpl; auto.
  - exists []. rewrite app_nil_r. auto.
  - exists []. rewrite app_nil_r. auto.
Qed.

Lemma rollback_fold_trace env ops s r :
  exists ev,
    trace (fst (fold_left (rollbackOperation env) ops (s, r))) = trace s ++ ev
    /\ remoteDeletes ev = attachedUrls ops.
Proof.
  revert s r. induction ops as [|op ops IH]; intros s r; cbn [fold_left].
  - exists []. simpl. rewrite app_nil_r. auto.
  - destruct (rollbackOperation_trace env s r op) as (e1 & Ht1 & Hd1).
    destruct (rollbackOperation env (s, r) op) as [s1 r1]. simpl in *.
    destruct (IH s1 r1) as (e2 & Ht2 & Hd2).
    exists (e1 ++ e2). split.
    + rewrite Ht2, Ht1. now rewrite app_assoc.
    + rewrite remoteDeletes_app, Hd1, Hd2. now rewrite app_nil_r.
Qed.

Lemma attachedUrls_rev log : attachedUrls (rev log) = rev (attachedUrls log).
Proof.
  unfold attachedUrls. induction log as [|op log IH]; [reflexivity |].
  simpl. rewrite flat_map_app, IH. simpl. rewrite app_nil_r.
  destruct op; simpl; rewrite ?app_nil_r; reflexivity.
Qed.

Lemma confirmDiscard_trace env s :
  remoteDeletes (events_since s (confirmDiscard env s))
  = rev (attachedUrls (pendingOperations s)).
Proof.
  unfold confirmDiscard, rollbackPendingOperations.
  destruct (rollback_fold_trace env (rev (pendingOperations s))
              (setIsRollbackInProgress true s) noSummary) as (ev & Ht & Hd).
  simpl in *.
  destruct (fold_left _ _ _) as [s' r]. simpl in *.
  rewrite attachedUrls_rev in Hd. rewrite <- Hd.
  assert (Hev : events_since s
            (setIsRollbackInProgress false
               (emit (EvNavigate "/dashboard")
                  (setShowDiscardConfirmation false
                     (match originalPatient s' with
                      | Some original =>
                          setHasUnsavedChanges false
                            (setPatient (fun _ => JSON_copy original)
                               (setPendingOperations (fun _ => []) s'))
                      | None => setPendingOperations (fun _ => []) s'
                      end))))
          = ev ++ [EvNavigate "/dashboard"]).
  { apply events_since_app. destruct (originalPatient s'); simpl;
      rewrite Ht, <- app_assoc; reflexivity. }
  simpl in Hev |- *. rewrite Hev, remoteDeletes_app. simpl. now rewrite app_nil_r.
Qed.

(** ** Deferred deletion *)

(** The specification's last clause does not hold as it stands: in the
    sample session [b] is detached from the first record and attached to
    the second.  The Detach entry for [b] is pending, and Discard deletes
    [b] from storage, which is what rollback does for the Attach entry. *)
Lemma C6_discard_spares_detached_fails :
  pendingOperations detachedBReattached = [OpRemove 0 "b"; OpAdd 1 "b"]
  /\ events_since openedSession (confirmDiscard storageUp detachedBReattached)
     = [EvRemoteDelete "b" true; EvNavigate "/dashboard"]
  /\ ~ discard_spares_detached.
Proof.
  split; [reflexivity |]. split; [reflexivity |].
  intros H.
  apply (H storageUp [HandleRemoveDocument 0 1; HandleAddDocument 1 "b"]
           openedSession "b"%string).
  - vm_compute. left. reflexivity.
  - vm_compute. left. reflexivity.
Qed.

(** C6.  No attach, detach or record-deletion operation of an edit session
    adds an event to the trace, so none issues a remote delete before
    commit; and when the session is discarded the remote deletes issued
    are those of the pending Attach entries, newest first: none is issued
    for a Detach or a DeleteRecord entry, so the object such an entry
    references is not deleted unless a pending Attach entry carries the
    same reference. *)
Theorem C6_detach_and_mark_defer_remote_deletes :
  forall (env : Env) (edits : list Edit) (s : State),
    trace (session edits s) = trace s
    /\ remoteDeletes (events_since s (confirmDiscard env (session edits s)))
       = rev (attachedUrls (pendingOperations (session edits s)))
    /\ forall u,
         ~ In u (attachedUrls (pendingOperations (session edits s))) ->
         ~ In u (remoteDeletes (events_since s (confirmDiscard env (session edits s)))).
Proof.
  intros env edits s.
  assert (Hev : remoteDeletes (events_since s (confirmDiscard env (session edits s)))
                = rev (attachedUrls (pendingOperations (session edits s)))).
  { rewrite <- confirmDiscard_trace with (env := env).
    unfold events_since. now rewrite session_trace. }
  split; [apply session_trace |]. split; [exact Hev |].
  intros u Hu Hin. apply Hu. rewrite Hev in Hin. now apply in_rev.
Qed.

Lemma C6_detach_and_mark_defer_remote_deletes_witness :
  ~ In "b"%string
      (remoteDeletes
         (events_since openedSession
            (confirmDiscard storageUp
               (session [HandleAddDocument 0 "d"; HandleRemoveDocument 0 1;
                         HandleRemoveRecord 1] openedSession)))).
Proof.
  refine (proj2 (proj2 (C6_detach_and_mark_defer_remote_deletes storageUp
                          [HandleAddDocument 0 "d"; HandleRemoveDocument 0 1;
                           HandleRemoveRecord 1] openedSession)) "b"%string _).
  vm_compute. intros [H|[]]. discriminate.
Defined.

(** The scenario of the specification: [b] is detached, the second record
    is marked, the session is discarded.  No remote delete is issued and
    the buffer holds [a, b] and [c] as loaded. *)
Example discard_scenario :
  trace detachedBMarked2 = []
  /\ remoteDeletes (trace (confirmDiscard storageUp detachedBMarked2)) = []
  /\ history (patient (confirmDiscard storageUp detachedBMarked2))
     = Some [Elem record1; Elem record2].
Proof. repeat split. Qed.

(** ** Saving *)

Lemma saveFailed_events env s :
  exists tail,
    trace (saveFailed env s) = trace s ++ tail
    /\ remoteDeletes tail = [] /\ persisted tail = [].
Proof.
  unfold saveFailed, handleDiscard.
  destruct (keepEditing env); simpl.
  - exists [EvConfirm true]. auto.
  - destruct (hasUnsavedChanges s); simpl.
    + exists [EvConfirm false]. auto.
    + exists [EvConfirm false; EvNavigate "/dashboard"].
      rewrite <- app_assoc. auto.
Qed.

(** What a save that passes the checks adds to the trace: first the call of
    the persistence layer with [patientToSave], then, if that call
    succeeded, the remote deletes of the commit. *)
Lemma handleSave_events env clinicId s :
  saveAllowed clinicId s = true ->
  exists ev tail,
    events_since s (handleSave env clinicId s)
    = EvUpdatePatient (default "" (_id (patient s))) (default "" clinicId)
        (patientToSave s) (updatePatientOk env) :: ev ++ tail
    /\ only_deletes ev
    /\ remoteDeletes tail = [] /\ persisted tail = []
    /\ (updatePatientOk env = true -> remoteDeletes ev = committedUrls (pendingOperations s))
    /\ (updatePatientOk env = false -> ev = []).
Proof.
  unfold saveAllowed. rewrite !andb_true_iff. intros [[[H1 H2] H3] H4].
  unfold handleSave. rewrite H1, H2, H3, H4. cbn [negb orb].
  set (s1 := emit _ (setIsSaving true s)).
  destruct (updatePatientOk env) eqn:Hok.
  - destruct (commitPendingOperations_trace env s1) as (s' & r & ev & Hc & Ht & Hd & _ & Ho).
    rewrite Hc. exists ev, [EvNavigate "/dashboard"].
    split; [| split; [exact Ho | split; [reflexivity | split; [reflexivity | split]]]].
    + apply events_since_app. simpl. rewrite Ht. subst s1. simpl.
      rewrite <- !app_assoc. reflexivity.
    + intros _. exact Hd.
    + discriminate.
  - destruct (saveFailed_events env s1) as (tail & Ht & Hd & Hp).
    exists [], tail.
    split; [| split; [apply only_deletes_nil | split; [exact Hd | split; [exact Hp | split]]]].
    + apply events_since_app. simpl. rewrite Ht. subst s1. simpl.
      rewrite <- !app_assoc. reflexivity.
    + discriminate.
    + reflexivity.
Qed.

(** After a successful save call, the commit that [handleSave] runs issues
    the remote deletes of the log, and the identifiers whose delete failed
    are the warnings of its summary. *)
Lemma handleSave_commit_summary env clinicId s :
  saveAllowed clinicId s = true ->
  updatePatientOk env = true ->
  exists committed summary,
    commitPendingOperations env (stateAtCommit env clinicId s)
    = Returns (committed, summary)
    /\ warnings summary = failedDeletes (events_since s (handleSave env clinicId s))
    /\ remoteDeletes (events_since s (handleSave env clinicId s))
       = committedUrls (pendingOperations s)
    /\ pendingOperations (handleSave env clinicId s) = [].
Proof.
  unfold saveAllowed. rewrite !andb_true_iff. intros [[[H1 H2] H3] H4] Hok.
  unfold handleSave. rewrite H1, H2, H3, H4. cbn [negb orb].
  change (emit _ (setIsSaving true s)) with (stateAtCommit env clinicId s).
  rewrite Hok.
  destruct (commitPendingOperations_trace env (stateAtCommit env clinicId s))
    as (s' & r & ev & Hc & Ht & Hd & Hw & _).
  rewrite Hc. exists s', r. split; [reflexivity |].
  assert (Hev : events_since s
            (setIsSaving false
               (emit (EvNavigate "/dashboard")
                  (setHasUnsavedChanges false
                     (setOriginalPatient
                        (Some (JSON_copy (patientToSave (setIsSaving true s)))) s'))))
          = EvUpdatePatient (default "" (_id (patient s))) (default "" clinicId)
              (patientToSave s) (updatePatientOk env) :: ev ++ [EvNavigate "/dashboard"]).
  { apply events_since_app. simpl. rewrite Ht. unfold stateAtCommit. simpl.
    rewrite <- !app_assoc. reflexivity. }
  rewrite Hev. simpl. rewrite failedDeletes_app, remoteDeletes_app. simpl.
  rewrite !app_nil_r. split; [exact Hw |]. split; [exact Hd |].
  unfold commitPendingOperations in Hc.
  destruct (fold_left _ _ _) as [s'' r'']. now inversion Hc.
Qed.

Lemma handleSave_refused env clinicId s :
  saveAllowed clinicId s = false ->
  exists msg, events_since s (handleSave env clinicId s) = [EvAlert msg].
Proof.
  unfold saveAllowed, handleSave. intros H.
  destruct (truthy (_id (patient s))), (truthy clinicId); simpl in *;
    try (eexists; apply events_since_app; reflexivity).
  destruct (truthy (name (patient s))), (truthy (HN_code (patient s))); simpl in *;
    try discriminate; eexists; apply events_since_app; reflexivity.
Qed.

(** The specification's order does not hold: in the sample session with [b]
    detached, Save calls the persistence layer first and issues the remote
    delete of [b] after it. *)
Lemma C3_commit_precedes_persist_fails :
  events_since detachedB (handleSave storageUp (Some "c1"%string) detachedB)
  = [EvUpdatePatient "p1" "c1" (patientToSave detachedB) true;
     EvRemoteDelete "b" true;
     EvNavigate "/dashboard"]
  /\ ~ commit_precedes_persist.
Proof.
  split; [reflexivity |].
  intros H. specialize (H storageUp (Some "c1"%string) detachedB).
  vm_compute in H. discriminate.
Qed.

(** C3.  On every Save the buffer is handed to the persistence layer before
    any remote delete of the commit is issued; when the save call fails no
    remote delete is issued at all; when it succeeds the commit issues the
    remote deletes of the pending Detach and DeleteRecord entries. *)
Theorem C3_persist_precedes_commit :
  forall (env : Env) (clinicId : option string) (s : State),
    save_precedes_deletes (events_since s (handleSave env clinicId s)) = true
    /\ (updatePatientOk env = false ->
          remoteDeletes (events_since s (handleSave env clinicId s)) = [])
    /\ (saveAllowed clinicId s = true -> updatePatientOk env = true ->
          exists id cid rest,
            events_since s (handleSave env clinicId s)
            = EvUpdatePatient id cid (patientToSave s) true :: rest
            /\ remoteDeletes rest = committedUrls (pendingOperations s)).
Proof.
  intros env clinicId s.
  destruct (saveAllowed clinicId s) eqn:Hallowed.
  - destruct (handleSave_events env clinicId s Hallowed)
      as (ev & tail & He & Ho & Hd & Hp & Hok & Hko).
    rewrite He. split; [reflexivity |]. split.
    + intros Hfail. rewrite (Hko Hfail). simpl. exact Hd.
    + intros _ Hsucc. rewrite Hsucc. do 3 eexists. split; [reflexivity |].
      rewrite remoteDeletes_app, Hd, app_nil_r. now apply Hok.
  - destruct (handleSave_refused env clinicId s Hallowed) as (msg & He).
    rewrite He. split; [reflexivity |]. split; [reflexivity | discriminate].
Qed.

Lemma C3_persist_precedes_commit_witness :
  exists id cid rest,
    events_since detachedBMarked2 (handleSave storageDown (Some "c1"%string) detachedBMarked2)
    = EvUpdatePatient id cid (patientToSave detachedBMarked2) true :: rest
    /\ remoteDeletes rest = ["b"; "c"]%string.
Proof.
  exact (proj2 (proj2 (C3_persist_precedes_commit storageDown (Some "c1"%string)
                         detachedBMarked2)) eq_refl eq_refl).
Defined.






(** The save scenario of the specification with storage refusing every
    delete: the persisted patient has the first record only, with [a];
    remote deletes were issued for [b] and [c] and both are reported. *)
Example save_scenario :
  Deletion.attachments (patientToSave detachedBMarked2) = ["a"]%string
  /\ records (default [] (history (patientToSave detachedBMarked2)))
     = [{| timestamp := 20; document_urls := Some ["a"]%string; notes := None |}]
  /\ remoteDeletes (events_since detachedBMarked2
                      (handleSave storageDown (Some "c1"%string) detachedBMarked2))
     = ["b"; "c"]%string
  /\ (match commitPendingOperations storageDown detachedBMarked2 with
      | Returns (_, summary) => warnings summary
      | Throws _ => []
      end) = ["b"; "c"]%string.
Proof. repeat split. Qed.

(** ** Cascading deletion *)

Module DeletionFacts.
Import Deletion.

(** The dashboard hands the flag of the dialog's checkbox to the thunk. *)
Lemma confirmDeletePatient_passes_flag dialogPatient selectedClinic force req :
  confirmDeletePatient dialogPatient selectedClinic force = Some req ->
  forceDelete req = force.
Proof.
  unfold confirmDeletePatient.
  destruct dialogPatient, selectedClinic; intros H; inversion H; reflexivity.
Qed.

Lemma handleConfirm_passes_checkbox {R} (onConfirm : bool -> Outcome R) d :
  step (handleConfirm onConfirm d) =
  match onConfirm (forceDeleteChecked d) with
  | Returns _ => initial
  | Throws _ => confirmation
  end.
Proof. unfold handleConfirm. now destruct (onConfirm (forceDeleteChecked d)). Qed.

(** The enumeration issues one remote delete per reference, in order, and
    counts the successes and the failures. *)
Lemma deleteEach_counts storage urls calls deleted notDeleted :
  exists new,
    deleteEach storage urls calls deleted notDeleted
    = (calls ++ new,
       (deleted + List.length (List.filter succeeded new))%nat,
       (notDeleted + List.length (List.filter refused new))%nat)
    /\ map fst new = urls.
Proof.
  revert calls deleted notDeleted.
  induction urls as [|u urls IH]; intros calls deleted notDeleted; simpl.
  - exists []. rewrite app_nil_r. simpl. rewrite !Nat.add_0_r. auto.
  - set (ok := storage (List.length calls) u).
    destruct (IH (calls ++ [(u, ok)])
                (if ok then S deleted else deleted)
                (if ok then notDeleted else S notDeleted)) as (new & Hnew & Hurls).
    exists ((u, ok) :: new). rewrite Hnew, <- app_assoc. simpl.
    split; [| now rewrite Hurls].
    unfold succeeded, refused. simpl. destruct ok; simpl; repeat f_equal; lia.
Qed.

(** C1.  A cascading deletion of a patient that is in the database deletes
    the patient's record exactly when [forceDelete] is set or no remote
    delete failed.  Without [forceDelete] and with a failed remote delete
    the database is left as it was and the outcome has [success:false]
    and the counts accumulated; the counts are those of the remote
    deletes issued, one per attachment. *)
Theorem C1_record_deleted_iff_forced_or_clean :
  forall (storage : nat -> string -> bool) (req : DeleteRequest) (srv : Server)
         (p : Patient),
    db srv !! (clinicId req, patientId req) = Some p ->
    exists out srv' calls,
      deletePatient storage req srv = Returns (out, srv')
      /\ (db srv' !! (clinicId req, patientId req) = None
          <-> forceDelete req = true \/ filesNotDeleted out = 0%nat)
      /\ (forceDelete req = false -> filesNotDeleted out <> 0%nat ->
            db srv' = db srv /\ success out = false)
      /\ (success out = true
          <-> forceDelete req = true \/ filesNotDeleted out = 0%nat)
      /\ remoteCalls srv' = remoteCalls srv ++ calls
      /\ map fst calls = attachments p
      /\ filesDeleted out = List.length (List.filter succeeded calls)
      /\ filesNotDeleted out = List.length (List.filter refused calls).
Proof.
  intros storage req srv p Hp. unfold deletePatient. rewrite Hp.
  destruct (deleteEach_counts storage (attachments p) (remoteCalls srv) 0 0)
    as (calls & Hcalls & Hurls).
  rewrite Hcalls. simpl.
  set (failureCount := List.length (List.filter refused calls)).
  destruct (forceDelete req) eqn:Hforce; simpl.
  - do 3 eexists. split; [reflexivity |]. simpl.
    rewrite lookup_delete_eq. repeat split; auto; discriminate.
  - destruct (0 <? failureCount)%nat eqn:Hfail.
    + apply Nat.ltb_lt in Hfail.
      do 3 eexists. split; [reflexivity |]. simpl.
      repeat split; auto; try discriminate.
      * rewrite Hp. discriminate.
      * intros [H|H]; [discriminate | fold failureCount in H; lia].
      * intros [H|H]; [discriminate | fold failureCount in H; lia].
    + apply Nat.ltb_ge in Hfail.
      do 3 eexists. split; [reflexivity |]. simpl.
      rewrite lookup_delete_eq. fold failureCount.
      repeat split; auto; try discriminate; try (right; lia); intros; lia.
Qed.

Lemma C1_record_deleted_iff_forced_or_clean_witness :
  exists out srv' calls,
    deletePatient storageKeepsB (sampleRequest false) sampleServer
    = Returns (out, srv')
    /\ (db srv' !! ("c1"%string, "p1"%string) = None
        <-> false = true \/ filesNotDeleted out = 0%nat)
    /\ (false = false -> filesNotDeleted out <> 0%nat ->
          db srv' = db sampleServer /\ success out = false)
    /\ (success out = true <-> false = true \/ filesNotDeleted out = 0%nat)
    /\ remoteCalls srv' = [] ++ calls
    /\ map fst calls = ["a"; "b"; "c"]%string
    /\ filesDeleted out = List.length (List.filter succeeded calls)
    /\ filesNotDeleted out = List.length (List.filter refused calls).
Proof.
  exact (C1_record_deleted_iff_forced_or_clean storageKeepsB (sampleRequest false)
           sampleServer storedPatient (lookup_singleton_eq _ _)).
Defined.

(** The two cases of the specification on the sample patient, with storage
    refusing to delete [b]: without force the record stays and the
    outcome reports two files deleted and one not; with force the record
    is deleted with the same counts. *)
Example cascade_without_force :
  exists srv',
    deletePatient storageKeepsB (sampleRequest false) sampleServer
    = Returns ({| filesDeleted := 2; filesNotDeleted := 1; success := false |}, srv')
    /\ db srv' = db sampleServer.
Proof. eexists. split; reflexivity. Qed.

Example cascade_with_force :
  exists srv',
    deletePatient storageKeepsB (sampleRequest true) sampleServer
    = Returns ({| filesDeleted := 2; filesNotDeleted := 1; success := true |}, srv')
    /\ db srv' !! ("c1"%string, "p1"%string) = None.
Proof.
  eexists. split; [reflexivity |]. simpl. apply lookup_delete_eq.
Qed.

End DeletionFacts.

(** * Further properties of the code *)

(** ** Reading and writing array slots *)

Section SlotFacts.
Context {A : Type}.
Implicit Types (a : list (slot A)) (n m : nat) (i j : Z).

Lemma nth_error_replace_at n (v : slot A) a m :
  nth_error (replace_at n v a) m
  = if (n <? List.length a)%nat && (m =? n)%nat then Some v else nth_error a m.
Proof.
  revert n m. induction a as [|s a IH]; intros n m.
  - destruct n; simpl; destruct m; reflexivity.
  - destruct n as [|n]; destruct m as [|m]; try reflexivity.
    + cbn [replace_at nth_error]. change (0 =? S n)%nat with false.
      now rewrite andb_false_r.
    + cbn [replace_at nth_error]. rewrite IH. reflexivity.
Qed.

Lemma length_replace_at n (v : slot A) a :
  List.length (replace_at n v a) = List.length a.
Proof.
  revert n. induction a as [|s a IH]; intros n; destruct n; simpl; auto.
Qed.

Lemma replace_at_same n (v : slot A) a :
  nth_error a n = Some v -> replace_at n v a = a.
Proof.
  revert n. induction a as [|s a IH]; intros n H; destruct n; simpl in *;
    try discriminate.
  - now inversion H.
  - now rewrite IH.
Qed.

Lemma replace_at_twice n (v w : slot A) a :
  replace_at n v (replace_at n w a) = replace_at n v a.
Proof.
  revert n. induction a as [|s a IH]; intros n; destruct n; simpl; auto.
  now rewrite IH.
Qed.

Lemma spread_replace_at n (x : A) a :
  spread (replace_at n (Elem x) a) = replace_at n (Elem x) (spread a).
Proof.
  revert n. induction a as [|s a IH]; intros n; destruct n; simpl; auto.
  now rewrite IH.
Qed.

Lemma spread_dense a : dense a -> spread a = a.
Proof.
  induction 1 as [|s a Hs _ IH]; [reflexivity |].
  simpl. rewrite IH. now destruct s.
Qed.

Lemma dense_null_free a : dense a -> null_free a.
Proof.
  unfold dense, null_free. apply List.Forall_impl. intros s Hs ->. discriminate.
Qed.

Lemma get_elem_nth a i (x : A) :
  get a i = Elem x <-> 0 <= i /\ nth_error a (Z.to_nat i) = Some (Elem x).
Proof.
  unfold get. destruct (i <? 0) eqn:E.
  - apply Z.ltb_lt in E. split; [discriminate | lia].
  - apply Z.ltb_ge in E.
    destruct (nth_error a (Z.to_nat i)) as [[]|]; split;
      try discriminate; try (intros [_ H]; discriminate); auto.
    + intros H. inversion H. auto.
    + intros [_ H]. inversion H. auto.
Qed.

Lemma get_elem_in_range a i (x : A) :
  get a i = Elem x -> 0 <= i < JsArray.length a.
Proof.
  intros H. apply get_elem_nth in H. destruct H as [Hi H].
  assert (Hlt : (Z.to_nat i < List.length a)%nat).
  { apply nth_error_Some. congruence. }
  unfold JsArray.length. lia.
Qed.

(** [a[i] = v] for an element [v] and an array index [i]: afterwards index
    [i] reads [v], every other index reads what it read before, and the
    array is as long as before or reaches just past [i]. *)
Lemma get_set_elem a i (x : A) j :
  0 <= i -> i < JsArray.length a \/ i < index_limit ->
  get (set a i (Elem x)) j = if j =? i then Elem x else get a j.
Proof.
  intros Hi Hlim. unfold set.
  replace (i <? 0) with false by (symmetry; apply Z.ltb_ge; lia).
  unfold get. destruct (j <? 0) eqn:Hj.
  - apply Z.ltb_lt in Hj.
    replace (j =? i) with false by (symmetry; apply Z.eqb_neq; lia). reflexivity.
  - apply Z.ltb_ge in Hj.
    destruct (i <? JsArray.length a) eqn:Hin.
    + apply Z.ltb_lt in Hin. unfold JsArray.length in Hin.
      rewrite nth_error_replace_at.
      replace (Z.to_nat i <? List.length a)%nat with true
        by (symmetry; apply Nat.ltb_lt; lia).
      simpl. destruct (j =? i) eqn:E.
      * apply Z.eqb_eq in E. subst. now rewrite Nat.eqb_refl.
      * apply Z.eqb_neq in E.
        replace (Z.to_nat j =? Z.to_nat i)%nat with false
          by (symmetry; apply Nat.eqb_neq; lia).
        reflexivity.
    + apply Z.ltb_ge in Hin.
      replace (i <? index_limit) with true by (symmetry; apply Z.ltb_lt; lia).
      unfold JsArray.length in Hin |- *.
      set (k := Z.to_nat (i - Z.of_nat (List.length a))).
      destruct (j =? i) eqn:E.
      * apply Z.eqb_eq in E. subst j.
        rewrite nth_error_app2 by lia.
        rewrite nth_error_app2 by (rewrite repeat_length; lia).
        rewrite repeat_length.
        replace (Z.to_nat i - List.length a - k)%nat with O by lia.
        reflexivity.
      * apply Z.eqb_neq in E.
        destruct (Z.to_nat j <? List.length a)%nat eqn:Hja.
        { apply Nat.ltb_lt in Hja. now rewrite nth_error_app1 by lia. }
        apply Nat.ltb_ge in Hja.
        assert (Hnone : nth_error a (Z.to_nat j) = None)
          by (apply nth_error_None; lia).
        rewrite Hnone. rewrite nth_error_app2 by lia.
        destruct (Z.to_nat j - List.length a <? k)%nat eqn:Hjk.
        { apply Nat.ltb_lt in Hjk.
          rewrite nth_error_app1 by (rewrite repeat_length; lia).
          now rewrite nth_error_repeat by lia. }
        apply Nat.ltb_ge in Hjk.
        rewrite nth_error_app2 by (rewrite repeat_length; lia).
        rewrite repeat_length.
        assert (Hnone' : nth_error [Elem x] (Z.to_nat j - List.length a - k) = None).
        { apply nth_error_None. simpl. lia. }
        now rewrite Hnone'.
Qed.

Lemma length_set a i (v : slot A) :
  0 <= i -> i < JsArray.length a \/ i < index_limit ->
  JsArray.length (set a i v) = Z.max (JsArray.length a) (i + 1).
Proof.
  intros Hi Hlim. unfold set.
  replace (i <? 0) with false by (symmetry; apply Z.ltb_ge; lia).
  destruct (i <? JsArray.length a) eqn:Hin.
  - apply Z.ltb_lt in Hin. unfold JsArray.length in *.
    rewrite length_replace_at. lia.
  - apply Z.ltb_ge in Hin.
    replace (i <? index_limit) with true by (symmetry; apply Z.ltb_lt; lia).
    unfold JsArray.length in *.
    rewrite !length_app, repeat_length. simpl. lia.
Qed.

(** [a[i] = v] for an [i] that is not an array index changes no slot. *)
Lemma set_not_index a i (v : slot A) :
  i < 0 \/ (JsArray.length a <= i /\ index_limit <= i) -> set a i v = a.
Proof.
  intros Hi. unfold set.
  destruct (i <? 0) eqn:H0; [reflexivity |]. apply Z.ltb_ge in H0.
  replace (i <? JsArray.length a) with false by (symmetry; apply Z.ltb_ge; lia).
  replace (i <? index_limit) with false by (symmetry; apply Z.ltb_ge; lia).
  reflexivity.
Qed.

End SlotFacts.

(** ** Linking and unlinking documents *)

Lemma onAddDocument_set recordIndex url prev h record :
  history prev = Some h ->
  get h recordIndex = Elem record ->
  onAddDocument recordIndex url prev
  = set_history
      (set (spread h) recordIndex
         (Elem (set_document_urls (default [] (document_urls record) ++ [url]) record)))
      prev.
Proof.
  intros Hh Hget. pose proof (get_elem_in_range _ _ _ Hget) as Hi.
  unfold onAddDocument, getActualRecordIndex. rewrite Hh.
  replace (recordIndex <? 0) with false by (symmetry; apply Z.ltb_ge; lia).
  replace (recordIndex >=? JsArray.length h) with false
    by (symmetry; rewrite Z.geb_leb; apply Z.leb_gt; lia).
  simpl. now rewrite get_spread, Hget.
Qed.

Lemma onRemoveDocument_set recordIndex documentIndex prev h record urls :
  history prev = Some h ->
  get h recordIndex = Elem record ->
  document_urls record = Some urls ->
  0 <= documentIndex < Z.of_nat (List.length urls) ->
  onRemoveDocument recordIndex documentIndex prev
  = set_history
      (set (spread h) recordIndex
         (Elem (set_document_urls
                  (firstn (Z.to_nat documentIndex) urls
                   ++ skipn (S (Z.to_nat documentIndex)) urls) record)))
      prev.
Proof.
  intros Hh Hget Hurls Hd. pose proof (get_elem_in_range _ _ _ Hget) as Hi.
  unfold onRemoveDocument, getActualRecordIndex. rewrite Hh.
  replace (recordIndex <? 0) with false by (symmetry; apply Z.ltb_ge; lia).
  replace (recordIndex >=? JsArray.length h) with false
    by (symmetry; rewrite Z.geb_leb; apply Z.leb_gt; lia).
  simpl. rewrite get_spread, Hget, Hurls.
  replace (documentIndex <? 0) with false by (symmetry; apply Z.ltb_ge; lia).
  replace (documentIndex >=? Z.of_nat (List.length urls)) with false
    by (symmetry; rewrite Z.geb_leb; apply Z.leb_gt; lia).
  simpl. rewrite remove_index_from_spec by lia. now rewrite Z.sub_0_r.
Qed.

(** X1.  When the record index names a record of the buffer,
    [onAddDocument] appends the URL at the end of that record's documents
    and changes nothing else: the other fields of the patient, the length
    of the history and what every other index holds stay as they were. *)
Theorem X1_onAddDocument_appends_url :
  forall (recordIndex : Z) (url : string) (prev : Patient)
         (h : list (slot IHistoryRecord)) (record : IHistoryRecord),
    history prev = Some h ->
    get h recordIndex = Elem record ->
    exists h',
      onAddDocument recordIndex url prev = set_history h' prev
      /\ JsArray.length h' = JsArray.length h
      /\ forall j,
           get h' j
           = if j =? recordIndex
             then Elem {| timestamp := timestamp record;
                          document_urls :=
                            Some (default [] (document_urls record) ++ [url]);
                          notes := notes record |}
             else get h j.
Proof.
  intros recordIndex url prev h record Hh Hget.
  pose proof (get_elem_in_range _ _ _ Hget) as Hi.
  eexists. split; [exact (onAddDocument_set _ url _ _ _ Hh Hget) |]. split.
  - rewrite length_set, length_spread by (rewrite ?length_spread; lia). lia.
  - intros j. rewrite get_set_elem, get_spread by (rewrite ?length_spread; lia).
    reflexivity.
Qed.

Lemma X1_onAddDocument_appends_url_witness :
  exists h',
    onAddDocument 1 "d" storedPatient = set_history h' storedPatient
    /\ JsArray.length h' = 2
    /\ get h' 1
       = Elem {| timestamp := 10; document_urls := Some ["c"; "d"]%string;
                 notes := None |}.
Proof.
  destruct (X1_onAddDocument_appends_url 1 "d" storedPatient
              [Elem record1; Elem record2] record2 eq_refl eq_refl)
    as (h' & H1 & H2 & H3).
  exists h'. split; [exact H1 |]. split; [exact H2 |]. exact (H3 1).
Defined.

(** X2.  When the record index names a record and the document index names
    one of its documents, [onRemoveDocument] takes exactly that document
    out of the record, the others keeping their order, and changes nothing
    else. *)
Theorem X2_onRemoveDocument_removes_one :
  forall (recordIndex documentIndex : Z) (prev : Patient)
         (h : list (slot IHistoryRecord)) (record : IHistoryRecord)
         (urls : list string),
    history prev = Some h ->
    get h recordIndex = Elem record ->
    document_urls record = Some urls ->
    0 <= documentIndex < Z.of_nat (List.length urls) ->
    exists h',
      onRemoveDocument recordIndex documentIndex prev = set_history h' prev
      /\ JsArray.length h' = JsArray.length h
      /\ forall j,
           get h' j
           = if j =? recordIndex
             then Elem {| timestamp := timestamp record;
                          document_urls :=
                            Some (firstn (Z.to_nat documentIndex) urls
                                  ++ skipn (S (Z.to_nat documentIndex)) urls);
                          notes := notes record |}
             else get h j.
Proof.
  intros recordIndex documentIndex prev h record urls Hh Hget Hurls Hd.
  pose proof (get_elem_in_range _ _ _ Hget) as Hi.
  eexists. split; [exact (onRemoveDocument_set _ _ _ _ _ _ Hh Hget Hurls Hd) |]. split.
  - rewrite length_set, length_spread by (rewrite ?length_spread; lia). lia.
  - intros j. rewrite get_set_elem, get_spread by (rewrite ?length_spread; lia).
    reflexivity.
Qed.

Lemma X2_onRemoveDocument_removes_one_witness :
  exists h',
    onRemoveDocument 0 0 storedPatient = set_history h' storedPatient
    /\ JsArray.length h' = 2
    /\ get h' 0
       = Elem {| timestamp := 20; document_urls := Some ["b"]%string; notes := None |}.
Proof.
  destruct (X2_onRemoveDocument_removes_one 0 0 storedPatient
              [Elem record1; Elem record2] record1 ["a"; "b"]%string
              eq_refl eq_refl eq_refl) as (h' & H1 & H2 & H3).
  - simpl. lia.
  - exists h'. split; [exact H1 |]. split; [exact H2 |]. exact (H3 0).
Defined.

(** X3.  Removing the document that [onAddDocument] has just appended gives
    the buffer back as it was, for a history whose slots all hold records
    and a record that has a document list. *)
Theorem X3_add_then_remove_document :
  forall (recordIndex : Z) (url : string) (prev : Patient)
         (h : list (slot IHistoryRecord)) (record : IHistoryRecord)
         (urls : list string),
    history prev = Some h ->
    dense h ->
    get h recordIndex = Elem record ->
    document_urls record = Some urls ->
    onRemoveDocument recordIndex (Z.of_nat (List.length urls))
      (onAddDocument recordIndex url prev) = prev.
Proof.
  intros recordIndex url prev h record urls Hh Hdense Hget Hurls.
  pose proof (get_elem_in_range _ _ _ Hget) as Hi.
  pose proof (proj1 (get_elem_nth _ _ _) Hget) as [_ Hnth].
  rewrite (onAddDocument_valid recordIndex url prev h record Hh Hget Hi).
  rewrite Hurls. simpl. rewrite (spread_dense h Hdense).
  set (added := set_document_urls (urls ++ [url]) record).
  set (h1 := replace_at (Z.to_nat recordIndex) (Elem added) h).
  assert (Hget1 : get h1 recordIndex = Elem added).
  { apply get_elem_nth. split; [lia |]. subst h1.
    rewrite nth_error_replace_at, Nat.eqb_refl.
    replace (Z.to_nat recordIndex <? List.length h)%nat with true
      by (symmetry; apply Nat.ltb_lt; unfold JsArray.length in Hi; lia).
    reflexivity. }
  rewrite (onRemoveDocument_valid recordIndex (Z.of_nat (List.length urls))
             (set_history h1 prev) h1 added (urls ++ [url]) eq_refl Hget1).
  - rewrite Nat2Z.id, firstn_app, firstn_all, Nat.sub_diag. simpl.
    rewrite app_nil_r.
    replace (skipn (S (List.length urls)) (urls ++ [url])) with (@nil string).
    2:{ symmetry. apply skipn_all2. rewrite length_app. simpl. lia. }
    rewrite app_nil_r. subst h1. rewrite spread_replace_at, replace_at_twice.
    rewrite (spread_dense h Hdense).
    replace (set_document_urls urls added) with record.
    2:{ subst added. destruct record as [t d n]. simpl in *. now subst d. }
    rewrite (replace_at_same _ _ _ Hnth).
    destruct prev as [pid pname phn pidc plv ph]. simpl in *. now subst ph.
  - subst h1. unfold JsArray.length in *. rewrite length_replace_at. lia.
  - reflexivity.
  - rewrite length_app. simpl. lia.
Qed.

Lemma X3_add_then_remove_document_witness :
  onRemoveDocument 0 2 (onAddDocument 0 "d" storedPatient) = storedPatient.
Proof.
  refine (X3_add_then_remove_document 0 "d" storedPatient
            [Elem record1; Elem record2] record1 ["a"; "b"]%string
            eq_refl _ eq_refl eq_refl).
  repeat constructor.
Defined.

(** ** Replacing a record *)

Lemma replace_at_split {A} (l1 l2 : list (slot A)) (x v : slot A) :
  replace_at (List.length l1) v (l1 ++ x :: l2) = l1 ++ v :: l2.
Proof. induction l1 as [|y l1 IH]; simpl; [reflexivity | now rewrite IH]. Qed.

Lemma spread_app {A} (l1 l2 : list (slot A)) : spread (l1 ++ l2) = spread l1 ++ spread l2.
Proof. unfold spread. apply map_app. Qed.

(** The record that index [i] holds splits the history in two. *)
Lemma get_elem_split (h : list (slot IHistoryRecord)) i record :
  get h i = Elem record ->
  exists h1 h2, h = h1 ++ Elem record :: h2 /\ List.length h1 = Z.to_nat i.
Proof.
  intros H. apply get_elem_nth in H. destruct H as [_ H].
  apply nth_error_split in H. exact H.
Qed.

Lemma descending_app_inv h1 h2 : descending (h1 ++ h2) -> descending h1 /\ descending h2.
Proof.
  unfold descending. rewrite records_app. induction (records h1) as [|r l IH]; simpl.
  - intros H. split; [constructor | exact H].
  - intros H. inversion H as [| ? ? Hs Hall]; subst.
    destruct (IH Hs) as [H1 H2]. split; [| exact H2].
    constructor; [exact H1 |]. apply List.Forall_app in Hall. tauto.
Qed.

(** Whether a list of records is in descending order depends on their
    timestamps only. *)
Lemma descending_timestamps (l l' : list IHistoryRecord) :
  map timestamp l = map timestamp l' ->
  StronglySorted (fun a b => timestamp b <= timestamp a) l ->
  StronglySorted (fun a b => timestamp b <= timestamp a) l'.
Proof.
  revert l'. induction l as [|r l IH]; intros [|r' l'] Hm Hs;
    try discriminate; [constructor |].
  simpl in Hm. inversion Hm as [[Ht Hm']]. inversion Hs as [| ? ? Hs' Hall]; subst.
  constructor; [now apply IH |].
  rewrite <- Ht.
  apply (proj1 (List.Forall_map timestamp (fun t => t <= timestamp r) l')).
  rewrite <- Hm'.
  now apply (proj2 (List.Forall_map timestamp (fun t => t <= timestamp r) l)).
Qed.

(** X4.  [handleUpdateRecord] writes the record at the index it is given,
    whatever the index.  At an index of the array only that slot changes.
    At an array index at or past the end (below [2^32 - 1]) the history
    grows to reach the index, the slots in between reading [undefined].
    An index that is no array index (negative, or from [2^32 - 1] on and
    past the end) leaves the length and every other index as they were. *)
Theorem X4_handleUpdateRecord_writes_one_slot :
  forall (index : Z) (updatedRecord : IHistoryRecord) (prev : Patient)
         (h : list (slot IHistoryRecord)),
    history prev = Some h ->
    exists h',
      handleUpdateRecord index updatedRecord prev = set_history h' prev
      /\ (0 <= index -> index < JsArray.length h \/ index < index_limit ->
            JsArray.length h' = Z.max (JsArray.length h) (index + 1)
            /\ forall j, get h' j = if j =? index then Elem updatedRecord else get h j)
      /\ (index < 0 \/ (JsArray.length h <= index /\ index_limit <= index) ->
            JsArray.length h' = JsArray.length h
            /\ forall j, j <> index -> get h' j = get h j).
Proof.
  intros index updatedRecord prev h Hh.
  unfold handleUpdateRecord. rewrite Hh.
  eexists. split; [reflexivity |]. split.
  - intros Hi Hlim. split.
    + rewrite length_set, length_spread by (rewrite ?length_spread; lia).
      reflexivity.
    + intros j. rewrite get_set_elem, get_spread by (rewrite ?length_spread; lia).
      reflexivity.
  - intros Hi. rewrite set_not_index by (rewrite length_spread; exact Hi).
    split; [apply length_spread | intros j _; apply get_spread].
Qed.

Lemma X4_handleUpdateRecord_writes_one_slot_witness :
  (exists h',
     handleUpdateRecord 3 record2Redated storedPatient = set_history h' storedPatient
     /\ JsArray.length h' = 4
     /\ get h' 2 = Undefined
     /\ get h' 3 = Elem record2Redated)
  /\ (exists h',
        handleUpdateRecord 4294967295 record2Redated storedPatient
        = set_history h' storedPatient
        /\ JsArray.length h' = 2
        /\ get h' 1 = Elem record2).
Proof.
  split.
  - destruct (X4_handleUpdateRecord_writes_one_slot 3 record2Redated storedPatient
                [Elem record1; Elem record2] eq_refl) as (h' & H1 & H2 & _).
    destruct H2 as [Hlen Hget]; [lia | right; unfold index_limit; lia |].
    exists h'. split; [exact H1 |]. split; [exact Hlen |].
    split; [exact (Hget 2) | exact (Hget 3)].
  - destruct (X4_handleUpdateRecord_writes_one_slot 4294967295 record2Redated
                storedPatient [Elem record1; Elem record2] eq_refl)
      as (h' & H1 & _ & H3).
    destruct H3 as [Hlen Hget].
    { right. unfold index_limit, JsArray.length. simpl. lia. }
    exists h'. split; [exact H1 |]. split; [exact Hlen |].
    apply (Hget 1). lia.
Defined.

(** X5.  When [handleUpdateRecord] replaces a record by one with the same
    timestamp, a history in descending order stays in descending order. *)
Theorem X5_handleUpdateRecord_same_date_keeps_order :
  forall (index : Z) (updatedRecord old : IHistoryRecord) (prev : Patient)
         (h : list (slot IHistoryRecord)),
    history prev = Some h ->
    get h index = Elem old ->
    timestamp updatedRecord = timestamp old ->
    descending h ->
    history_descending (handleUpdateRecord index updatedRecord prev).
Proof.
  intros index updatedRecord old prev h Hh Hget Ht Hd.
  pose proof (get_elem_in_range _ _ _ Hget) as Hi.
  destruct (get_elem_split h index old Hget) as (h1 & h2 & -> & Hlen).
  unfold handleUpdateRecord, history_descending. rewrite Hh. simpl.
  unfold set.
  replace (index <? 0) with false by (symmetry; apply Z.ltb_ge; lia).
  rewrite length_spread.
  replace (index <? JsArray.length (h1 ++ Elem old :: h2)) with true
    by (symmetry; apply Z.ltb_lt; lia).
  rewrite spread_app. simpl. rewrite <- Hlen.
  replace (List.length h1) with (List.length (spread h1))
    by (unfold spread; apply length_map).
  rewrite replace_at_split.
  unfold descending in *.
  rewrite records_app in *. simpl in *. rewrite !records_spread.
  eapply descending_timestamps; [| exact Hd].
  rewrite !map_app. simpl. now rewrite Ht.
Qed.

Lemma X5_handleUpdateRecord_same_date_keeps_order_witness :
  history_descending
    (handleUpdateRecord 1
       {| timestamp := 10; document_urls := None; notes := Some "seen"%string |}
       storedPatient).
Proof.
  refine (X5_handleUpdateRecord_same_date_keeps_order 1
            {| timestamp := 10; document_urls := None; notes := Some "seen"%string |}
            record2 storedPatient
            [Elem record1; Elem record2] eq_refl eq_refl eq_refl _).
  unfold descending. simpl. repeat constructor. unfold record1, record2. simpl. lia.
Defined.

(** ** Where the sort puts a record *)

Lemma filter_value_dense {A} (l : list (slot A)) : dense l -> List.filter is_value l = l.
Proof.
  induction 1 as [|s l Hs _ IH]; [reflexivity |].
  destruct s; try discriminate. simpl. now rewrite IH.
Qed.

Lemma filter_undefined_dense {A} (l : list (slot A)) :
  dense l -> List.filter is_undefined l = [].
Proof.
  induction 1 as [|s l Hs _ IH]; [reflexivity |].
  destruct s; try discriminate. exact IH.
Qed.

Lemma filter_hole_dense {A} (l : list (slot A)) : dense l -> List.filter is_hole l = [].
Proof.
  induction 1 as [|s l Hs _ IH]; [reflexivity |].
  destruct s; try discriminate. exact IH.
Qed.

Lemma sort_dense l :
  dense l -> sort newestFirst l = let* s := sort_values newestFirst l in Returns s.
Proof.
  intros H. unfold sort.
  rewrite (filter_value_dense l H), (filter_undefined_dense l H), (filter_hole_dense l H).
  destruct (sort_values newestFirst l); simpl; [| reflexivity]. now rewrite app_nil_r.
Qed.

Lemma dense_app {A} (l1 l2 : list (slot A)) : dense (l1 ++ l2) <-> dense l1 /\ dense l2.
Proof. apply List.Forall_app. Qed.

(** A record at least as new as the first record of the list stays in
    front of it. *)
Lemma insert_front rx l :
  dense l ->
  Forall (fun y => timestamp y <= timestamp rx) (records l) ->
  insert newestFirst (Elem rx) l = Returns (Elem rx :: l).
Proof.
  intros Hd Hle. destruct l as [|y l]; [reflexivity |].
  inversion Hd as [| ? ? Hy _]; subst. destruct y as [| | |ry]; try discriminate.
  simpl in Hle. inversion Hle as [| ? ? Hry _]; subst.
  simpl. replace (timestamp ry - timestamp rx <=? 0) with true
    by (symmetry; apply Z.leb_le; lia).
  reflexivity.
Qed.

(** Sorting a list that is in descending order leaves it as it is. *)
Lemma sort_values_sorted l :
  dense l -> descending l -> sort_values newestFirst l = Returns l.
Proof.
  intros Hd. induction Hd as [|x l Hx Hd IH]; intros Hs; [reflexivity |].
  destruct x as [| | |rx]; try discriminate.
  unfold descending in Hs. simpl in Hs. inversion Hs as [| ? ? Hs' Hall]; subst.
  simpl. rewrite (IH Hs'). simpl. now apply insert_front.
Qed.

(** Sorting a descending list with one more record at its end puts the
    record after the records at least as new and before the older ones. *)
Lemma sort_values_snoc l r :
  dense l -> descending l ->
  exists before after,
    l = before ++ after
    /\ Forall (fun b => timestamp r <= timestamp b) (records before)
    /\ Forall (fun a => timestamp a < timestamp r) (records after)
    /\ sort_values newestFirst (l ++ [Elem r]) = Returns (before ++ Elem r :: after).
Proof.
  intros Hd. induction Hd as [|x l Hx Hd IH]; intros Hs.
  - exists [], []. repeat split; constructor.
  - destruct x as [| | |rx]; try discriminate.
    unfold descending in Hs. simpl in Hs. inversion Hs as [| ? ? Hs' Hall]; subst.
    destruct (IH Hs') as (before & after & Hl & Hb & Ha & Hsort).
    simpl. rewrite Hsort. simpl.
    destruct (Z_le_gt_dec (timestamp r) (timestamp rx)) as [Hle|Hgt].
    + exists (Elem rx :: before), after.
      split; [simpl; now rewrite Hl |]. split; [now constructor |]. split; [exact Ha |].
      apply insert_front.
      * apply dense_app. subst l. apply dense_app in Hd. destruct Hd as [Hd1 Hd2].
        split; [exact Hd1 |]. constructor; [reflexivity | exact Hd2].
      * rewrite records_app. simpl. apply List.Forall_app. split.
        -- subst l. rewrite records_app in Hall. apply List.Forall_app in Hall. tauto.
        -- constructor; [exact Hle |].
           subst l. rewrite records_app in Hall. apply List.Forall_app in Hall. tauto.
    + assert (Hnil : records before = []).
      { subst l. rewrite records_app in Hall. apply List.Forall_app in Hall.
        destruct Hall as [Hall _].
        destruct (records before) as [|b bs]; [reflexivity |].
        inversion Hb; subst. inversion Hall; subst. lia. }
      assert (Hbefore : before = []).
      { subst l. apply dense_app in Hd. destruct Hd as [Hd1 _].
        destruct before as [|s before]; [reflexivity |].
        inversion Hd1 as [| ? ? Hsd _]; subst.
        destruct s; discriminate. }
      subst before. simpl in *. subst after.
      exists [], (Elem rx :: l).
      split; [reflexivity |]. split; [constructor |]. split.
      * simpl. constructor; [lia |].
        eapply List.Forall_impl; [| exact Hall]. simpl. intros; lia.
      * simpl.
        replace (timestamp r - timestamp rx <=? 0) with false
          by (symmetry; apply Z.leb_gt; lia).
        now rewrite (insert_front rx l Hd Hall).
Qed.

(** X6.  On a buffer whose history has no [null], [handleAddRecord] returns
    a buffer that differs in its history only: the history is in
    descending order of timestamp, holds the records it held and the new
    one, none lost and none twice, and is one slot longer. *)
Theorem X6_handleAddRecord_adds_and_sorts :
  forall (newRecord : IHistoryRecord) (prev : Patient),
    null_free (default [] (history prev)) ->
    exists h',
      handleAddRecord newRecord prev = Returns (set_history h' prev)
      /\ descending h'
      /\ Permutation (newRecord :: records (default [] (history prev))) (records h')
      /\ List.length h' = S (List.length (default [] (history prev))).
Proof.
  intros newRecord prev Hnf.
  destruct (handleAddRecord_returns newRecord prev Hnf) as (next & Hnext).
  pose proof Hnext as Hunf. unfold handleAddRecord in Hunf.
  destruct (sort newestFirst _) as [h'|] eqn:Hs; simpl in Hunf; [| discriminate].
  inversion Hunf; subst next. clear Hunf.
  exists h'. split; [exact Hnext |].
  destruct (sort_descending _ _ Hs) as (Hd & Hp & Hlen).
  split; [exact Hd |]. split.
  - rewrite records_app, records_spread in Hp. simpl in Hp.
    etransitivity; [| exact Hp]. apply Permutation_cons_append.
  - rewrite Hlen, length_app. unfold spread. rewrite length_map. simpl. lia.
Qed.

Lemma X6_handleAddRecord_adds_and_sorts_witness :
  exists h',
    handleAddRecord record2Redated storedPatient = Returns (set_history h' storedPatient)
    /\ descending h'
    /\ Permutation (record2Redated :: [record1; record2]) (records h')
    /\ List.length h' = 3%nat.
Proof.
  refine (X6_handleAddRecord_adds_and_sorts record2Redated storedPatient _).
  repeat constructor; discriminate.
Defined.

(** X7.  On a history whose slots all hold records and which is in
    descending order, [handleAddRecord] puts the new record after every
    record that is as new or newer and before every older record, and
    leaves the others in their order. *)
Theorem X7_handleAddRecord_places_record :
  forall (newRecord : IHistoryRecord) (prev : Patient)
         (h : list (slot IHistoryRecord)),
    history prev = Some h ->
    dense h ->
    descending h ->
    exists before after,
      h = before ++ after
      /\ Forall (fun b => timestamp newRecord <= timestamp b) (records before)
      /\ Forall (fun a => timestamp a < timestamp newRecord) (records after)
      /\ handleAddRecord newRecord prev
         = Returns (set_history (before ++ Elem newRecord :: after) prev).
Proof.
  intros newRecord prev h Hh Hd Hs.
  destruct (sort_values_snoc h newRecord Hd Hs) as (before & after & Hl & Hb & Ha & Hsort).
  exists before, after. split; [exact Hl |]. split; [exact Hb |]. split; [exact Ha |].
  unfold handleAddRecord. rewrite Hh. simpl. rewrite (spread_dense h Hd).
  rewrite sort_dense.
  - rewrite Hsort. reflexivity.
  - apply dense_app. split; [exact Hd | now repeat constructor].
Qed.

Lemma X7_handleAddRecord_places_record_witness :
  exists before after,
    [Elem record1; Elem record2] = before ++ after
    /\ Forall (fun b => 10 <= timestamp b) (records before)
    /\ Forall (fun a => timestamp a < 10) (records after)
    /\ handleAddRecord {| timestamp := 10; document_urls := None; notes := None |}
         storedPatient
       = Returns (set_history
                    (before
                       ++ Elem {| timestamp := 10; document_urls := None; notes := None |}
                       :: after)
                    storedPatient).
Proof.
  refine (X7_handleAddRecord_places_record
            {| timestamp := 10; document_urls := None; notes := None |}
            storedPatient [Elem record1; Elem record2] eq_refl _ _).
  - repeat constructor.
  - unfold descending. simpl. repeat constructor. unfold record1, record2. simpl. lia.
Defined.

(** ** Changing the date of a record *)

Lemma redated_same record : redated record (timestamp record) = record.
Proof. now destruct record. Qed.

(** The array [handleUpdateRecordDate] sorts: the history with the record
    at the index redated. *)
Lemma updateRecordDate_array (h1 h2 : list (slot IHistoryRecord)) record index newDate :
  List.length h1 = Z.to_nat index -> 0 <= index ->
  set (spread (h1 ++ Elem record :: h2)) index
    (Elem (with_timestamp (get (spread (h1 ++ Elem record :: h2)) index) newDate))
  = spread h1 ++ Elem (redated record newDate) :: spread h2.
Proof.
  intros Hlen Hi.
  assert (Hget : get (h1 ++ Elem record :: h2) index = Elem record).
  { apply get_elem_nth. split; [exact Hi |].
    rewrite <- Hlen, nth_error_app2, Nat.sub_diag by lia. reflexivity. }
  rewrite get_spread, Hget. unfold set.
  replace (index <? 0) with false by (symmetry; apply Z.ltb_ge; lia).
  rewrite length_spread.
  replace (index <? JsArray.length (h1 ++ Elem record :: h2)) with true.
  2:{ symmetry. apply Z.ltb_lt. unfold JsArray.length. rewrite length_app. simpl. lia. }
  rewrite spread_app. simpl. rewrite <- Hlen.
  replace (List.length h1) with (List.length (spread h1))
    by (unfold spread; apply length_map).
  apply replace_at_split.
Qed.

(** X8.  When the index names a record of a history without [null],
    [handleUpdateRecordDate] returns a buffer that differs in its history
    only: the history is in descending order, has the length it had, and
    holds the records it held, the one at the index with its new date and
    with its documents and notes as they were. *)
Theorem X8_handleUpdateRecordDate_redates_and_sorts :
  forall (index newDate : Z) (prev : Patient)
         (h : list (slot IHistoryRecord)) (record : IHistoryRecord),
    history prev = Some h ->
    null_free h ->
    get h index = Elem record ->
    exists h' before after,
      handleUpdateRecordDate index newDate prev = Returns (set_history h' prev)
      /\ descending h'
      /\ List.length h' = List.length h
      /\ records h = before ++ record :: after
      /\ Permutation
           (before
              ++ {| timestamp := newDate; document_urls := document_urls record;
                    notes := notes record |} :: after)
           (records h').
Proof.
  intros index newDate prev h record Hh Hnf Hget.
  pose proof (get_elem_in_range _ _ _ Hget) as Hi.
  destruct (get_elem_split h index record Hget) as (h1 & h2 & Hsplit & Hlen).
  destruct (handleUpdateRecordDate_returns index newDate prev) as (next & Hnext).
  { now rewrite Hh. }
  pose proof Hnext as Hunf. unfold handleUpdateRecordDate in Hunf.
  rewrite Hh in Hunf. subst h.
  rewrite updateRecordDate_array in Hunf by lia.
  destruct (sort newestFirst _) as [h'|] eqn:Hs; simpl in Hunf; [| discriminate].
  inversion Hunf; subst next. clear Hunf.
  destruct (sort_descending _ _ Hs) as (Hd & Hp & Hl).
  exists h', (records h1), (records h2).
  split; [exact Hnext |]. split; [exact Hd |]. split.
  - rewrite Hl, !length_app. simpl. unfold spread. now rewrite !length_map.
  - split; [now rewrite records_app |].
    rewrite records_app in Hp. simpl in Hp. rewrite !records_spread in Hp. exact Hp.
Qed.

Lemma X8_handleUpdateRecordDate_redates_and_sorts_witness :
  exists h' before after,
    handleUpdateRecordDate 1 30 storedPatient = Returns (set_history h' storedPatient)
    /\ descending h'
    /\ List.length h' = 2%nat
    /\ [record1; record2] = before ++ record2 :: after
    /\ Permutation (before ++ record2Redated :: after) (records h').
Proof.
  refine (X8_handleUpdateRecordDate_redates_and_sorts 1 30 storedPatient
            [Elem record1; Elem record2] record2 eq_refl _ eq_refl).
  repeat constructor; discriminate.
Defined.

(** X9.  Giving a record the date it already has changes nothing, on a
    history whose slots all hold records and which is in descending order:
    the sort is stable and keeps a sorted history as it is. *)
Theorem X9_handleUpdateRecordDate_same_date :
  forall (index : Z) (prev : Patient)
         (h : list (slot IHistoryRecord)) (record : IHistoryRecord),
    history prev = Some h ->
    dense h ->
    descending h ->
    get h index = Elem record ->
    handleUpdateRecordDate index (timestamp record) prev = Returns prev.
Proof.
  intros index prev h record Hh Hdense Hd Hget.
  pose proof (get_elem_in_range _ _ _ Hget) as Hi.
  destruct (get_elem_split h index record Hget) as (h1 & h2 & Hsplit & Hlen).
  unfold handleUpdateRecordDate. rewrite Hh.
  assert (Harr : set (spread h) index
                   (Elem (with_timestamp (get (spread h) index) (timestamp record)))
                 = h).
  { rewrite Hsplit at 1 2. rewrite updateRecordDate_array by lia.
    rewrite redated_same, <- (spread_dense h Hdense), Hsplit, spread_app.
    reflexivity. }
  rewrite Harr, (sort_dense h Hdense), (sort_values_sorted h Hdense Hd). simpl.
  destruct prev as [pid pname phn pidc plv ph]. simpl in *. now subst ph.
Qed.

Lemma X9_handleUpdateRecordDate_same_date_witness :
  handleUpdateRecordDate 0 20 storedPatient = Returns storedPatient.
Proof.
  refine (X9_handleUpdateRecordDate_same_date 0 storedPatient
            [Elem record1; Elem record2] record1 eq_refl _ _ eq_refl).
  - repeat constructor.
  - unfold descending. simpl. repeat constructor. unfold record1, record2. simpl. lia.
Defined.

(** ** Loading a patient *)

Lemma processHistory_loadable h : loadable h -> processHistory h = Returns h.
Proof.
  induction 1 as [|s h [Hu Hn] _ IH]; [reflexivity |].
  destruct s; simpl; try congruence; now rewrite IH.
Qed.

Lemma processHistory_throws h :
  In Undefined h \/ In Null h -> exists msg, processHistory h = Throws msg.
Proof.
  induction h as [|s h IH]; intros H.
  - destruct H as [[]|[]].
  - destruct s; simpl; try (eexists; reflexivity).
    + destruct IH as (msg & Hmsg).
      { destruct H as [[H|H]|[H|H]]; try discriminate; auto. }
      rewrite Hmsg. simpl. eauto.
    + destruct IH as (msg & Hmsg).
      { destruct H as [[H|H]|[H|H]]; try discriminate; auto. }
      rewrite Hmsg. simpl. eauto.
Qed.

Lemma loadable_null_free h : loadable h -> null_free h.
Proof. unfold loadable, null_free. apply List.Forall_impl. tauto. Qed.

(** X10.  Loading a patient whose stored history holds no [undefined] and
    no [null] entry succeeds.  The buffer is the stored patient with its
    history sorted newest first, no record lost or added; the snapshot is
    the JSON copy of the buffer; and when no operation is pending the page
    reports no unsaved changes, also after its effect has run. *)
Theorem X10_loadPatient_opens_clean_session :
  forall (fromStore : Patient) (s0 : State),
    loadable (default [] (history fromStore)) ->
    exists s h',
      loadPatient fromStore s0 = Returns s
      /\ patient s = set_history h' fromStore
      /\ descending h'
      /\ Permutation (records (default [] (history fromStore))) (records h')
      /\ List.length h' = List.length (default [] (history fromStore))
      /\ originalPatient s = Some (JSON_copy (patient s))
      /\ pendingOperations s = pendingOperations s0
      /\ trace s = trace s0
      /\ hasUnsavedChanges s = false
      /\ (pendingOperations s0 = [] ->
            hasUnsavedChanges (checkUnsavedChanges s) = false).
Proof.
  intros fromStore s0 Hl.
  assert (Hproc : match history fromStore with
                  | Some h => processHistory h
                  | None => Returns []
                  end = Returns (default [] (history fromStore))).
  { destruct (history fromStore) as [h|]; [| reflexivity]. now apply processHistory_loadable. }
  destruct (sort_returns (spread (default [] (history fromStore)))) as (h' & Hs).
  { apply null_free_spread. now apply loadable_null_free. }
  destruct (sort_descending _ _ Hs) as (Hd & Hp & Hlen).
  unfold loadPatient. rewrite Hproc. simpl. rewrite Hs. simpl.
  eexists. exists h'. split; [reflexivity |]. simpl.
  split; [reflexivity |]. split; [exact Hd |]. split.
  { now rewrite records_spread in Hp. }
  split.
  { rewrite Hlen. unfold spread. apply length_map. }
  repeat (split; [reflexivity |]).
  intros Hlog. unfold checkUnsavedChanges. simpl. rewrite Hlog. simpl.
  unfold JSON_differs. rewrite JSON_copy_idempotent.
  rewrite bool_decide_eq_true_2 by reflexivity. reflexivity.
Qed.

Lemma X10_loadPatient_opens_clean_session_witness :
  exists s h',
    loadPatient storedPatient initialState = Returns s
    /\ patient s = set_history h' storedPatient
    /\ descending h'
    /\ Permutation [record1; record2] (records h')
    /\ List.length h' = 2%nat
    /\ originalPatient s = Some (JSON_copy (patient s))
    /\ pendingOperations s = []
    /\ trace s = []
    /\ hasUnsavedChanges s = false
    /\ ([] = @nil DocumentOperation ->
          hasUnsavedChanges (checkUnsavedChanges s) = false).
Proof.
  refine (X10_loadPatient_opens_clean_session storedPatient initialState _).
  repeat constructor; discriminate.
Defined.

(** X11.  Loading a patient whose stored history holds an [undefined] or a
    [null] entry throws: reading [record.timestamp] fails, and neither the
    buffer nor the snapshot is set. *)
Theorem X11_loadPatient_throws_on_missing_record :
  forall (fromStore : Patient) (s0 : State) (h : list (slot IHistoryRecord)),
    history fromStore = Some h ->
    In Undefined h \/ In Null h ->
    exists msg, loadPatient fromStore s0 = Throws msg.
Proof.
  intros fromStore s0 h Hh Hin. unfold loadPatient. rewrite Hh.
  destruct (processHistory_throws h Hin) as (msg & Hmsg).
  rewrite Hmsg. simpl. eauto.
Qed.

Lemma X11_loadPatient_throws_on_missing_record_witness :
  exists msg,
    loadPatient (set_history [Elem record1; Null] storedPatient) initialState
    = Throws msg.
Proof.
  refine (X11_loadPatient_throws_on_missing_record
            (set_history [Elem record1; Null] storedPatient) initialState
            [Elem record1; Null] eq_refl _).
  right. simpl. auto.
Defined.

(** ** Editing a text field *)

Lemma JSON_copy_handleChange input value p :
  JSON_copy (handleChange input value p) = handleChange input value (JSON_copy p).
Proof. now destruct input. Qed.

Lemma handleChange_same input value p :
  fieldOf input p = Some value -> handleChange input value p = p.
Proof. destruct input, p; simpl; now intros ->. Qed.

Lemma fieldOf_handleChange input value p :
  fieldOf input (handleChange input value p) = Some value.
Proof. now destruct input. Qed.

Lemma fieldOf_JSON_copy input p : fieldOf input (JSON_copy p) = fieldOf input p.
Proof. now destruct input. Qed.

(** X12.  In a session without unsaved changes, typing into a text input is
    reported as an unsaved change exactly when the text differs from what
    the field held; typing the held text back leaves the session clean. *)
Theorem X12_handleChange_detected_iff_different :
  forall (input : TextInput) (value : string) (s : State) (snapshot : Patient),
    originalPatient s = Some snapshot ->
    JSON_copy (patient s) = JSON_copy snapshot ->
    pendingOperations s = [] ->
    hasUnsavedChanges (checkUnsavedChanges (setPatient (handleChange input value) s))
    = true
    <-> fieldOf input (patient s) <> Some value.
Proof.
  intros input value s snapshot Ho Hclean Hlog.
  unfold checkUnsavedChanges. simpl. rewrite Ho. simpl. rewrite Hlog. simpl.
  rewrite orb_false_r. unfold JSON_differs.
  rewrite negb_true_iff, bool_decide_eq_false, JSON_copy_handleChange, Hclean.
  split.
  - intros Hne Hf. apply Hne.
    apply handleChange_same. rewrite <- Hclean, fieldOf_JSON_copy. exact Hf.
  - intros Hne Heq. apply Hne.
    rewrite <- (fieldOf_JSON_copy input (patient s)), Hclean, <- Heq.
    apply fieldOf_handleChange.
Qed.

Lemma X12_handleChange_detected_iff_different_witness :
  hasUnsavedChanges
    (checkUnsavedChanges (setPatient (handleChange InputName "Somsak") openedSession))
  = true
  /\ hasUnsavedChanges
       (checkUnsavedChanges (setPatient (handleChange InputName "Somchai") openedSession))
     = false.
Proof.
  split.
  - apply (X12_handleChange_detected_iff_different InputName "Somsak" openedSession
             (JSON_copy storedPatient) eq_refl eq_refl eq_refl).
    discriminate.
  - destruct (hasUnsavedChanges
                (checkUnsavedChanges
                   (setPatient (handleChange InputName "Somchai") openedSession))) eqn:E;
      [| reflexivity].
    apply (X12_handleChange_detected_iff_different InputName "Somchai" openedSession
             (JSON_copy storedPatient) eq_refl eq_refl eq_refl) in E.
    exfalso. apply E. reflexivity.
Defined.

(** ** Save: refused, failed, succeeded *)

(** X13.  Save does nothing but alert when the patient id or the clinic id
    is missing or empty, and else when the name or the hospital number is
    missing or empty: the first check takes precedence, nothing is handed
    to the persistence layer and the state is otherwise untouched. *)
Theorem X13_handleSave_refuses_incomplete_patient :
  forall (env : Env) (clinicId : option string) (s : State),
    (truthy (_id (patient s)) = false \/ truthy clinicId = false ->
       handleSave env clinicId s
       = emit (EvAlert "Missing patient ID or clinic ID") s)
    /\ (truthy (_id (patient s)) = true -> truthy clinicId = true ->
        truthy (name (patient s)) = false \/ truthy (HN_code (patient s)) = false ->
          handleSave env clinicId s
          = emit (EvAlert "Name and Hospital Number (HN) are required fields") s).
Proof.
  intros env clinicId s. unfold handleSave. split.
  - intros [H|H]; rewrite H; simpl; [reflexivity | now rewrite orb_true_r].
  - intros H1 H2 [H|H]; rewrite H1, H2, H; simpl; [reflexivity | now rewrite orb_true_r].
Qed.

Lemma X13_handleSave_refuses_incomplete_patient_witness :
  handleSave storageUp None openedSession
  = emit (EvAlert "Missing patient ID or clinic ID") openedSession
  /\ handleSave storageUp (Some "c1"%string)
       (setPatient (handleChange InputName "") openedSession)
     = emit (EvAlert "Name and Hospital Number (HN) are required fields")
         (setPatient (handleChange InputName "") openedSession).
Proof.
  split.
  - refine (proj1 (X13_handleSave_refuses_incomplete_patient storageUp None
                     openedSession) _).
    right. reflexivity.
  - refine (proj2 (X13_handleSave_refuses_incomplete_patient storageUp
                     (Some "c1"%string)
                     (setPatient (handleChange InputName "") openedSession))
              eq_refl eq_refl _).
    left. reflexivity.
Defined.

(** X14.  When the save call of the persistence layer fails, Save loses
    nothing: the buffer, the snapshot and the pending operations are as
    before, no remote delete is issued and [isSaving] is off again.  If
    the user chooses to keep editing nothing else happens; otherwise the
    page behaves as on Cancel: it asks for confirmation when there are
    unsaved changes and goes to the dashboard when there are none. *)
Theorem X14_handleSave_failure_keeps_session :
  forall (env : Env) (clinicId : option string) (s : State),
    saveAllowed clinicId s = true ->
    updatePatientOk env = false ->
    let s' := handleSave env clinicId s in
    patient s' = patient s
    /\ originalPatient s' = originalPatient s
    /\ pendingOperations s' = pendingOperations s
    /\ hasUnsavedChanges s' = hasUnsavedChanges s
    /\ isSaving s' = false
    /\ remoteDeletes (events_since s s') = []
    /\ persisted (events_since s s') = [patientToSave s]
    /\ (keepEditing env = true ->
          showDiscardConfirmation s' = showDiscardConfirmation s
          /\ ~ In (EvNavigate "/dashboard") (events_since s s'))
    /\ (keepEditing env = false -> hasUnsavedChanges s = true ->
          showDiscardConfirmation s' = true
          /\ ~ In (EvNavigate "/dashboard") (events_since s s'))
    /\ (keepEditing env = false -> hasUnsavedChanges s = false ->
          showDiscardConfirmation s' = showDiscardConfirmation s
          /\ In (EvNavigate "/dashboard") (events_since s s')).
Proof.
  intros env clinicId s Hallowed Hfail. simpl.
  unfold saveAllowed in Hallowed. rewrite !andb_true_iff in Hallowed.
  destruct Hallowed as [[[H1 H2] H3] H4].
  unfold handleSave. rewrite H1, H2, H3, H4, Hfail. cbn [negb orb].
  unfold saveFailed, handleDiscard, events_since.
  destruct (keepEditing env); simpl.
  - rewrite <- !app_assoc, skipn_length_app. simpl.
    repeat split; intros; try reflexivity; try discriminate.
    intros [Hin|[Hin|[]]]; discriminate.
  - destruct (hasUnsavedChanges s) eqn:Hu; simpl.
    + rewrite <- !app_assoc, skipn_length_app. simpl.
      repeat split; intros; try reflexivity; try assumption; try discriminate.
      intros [Hin|[Hin|[]]]; discriminate.
    + rewrite <- !app_assoc, skipn_length_app. simpl.
      repeat split; intros; try reflexivity; try assumption; try discriminate.
      auto.
Qed.

Lemma X14_handleSave_failure_keeps_session_witness :
  patient (handleSave {| storageDelete := fun _ _ => true; updatePatientOk := false;
                         keepEditing := false |} (Some "c1"%string) detachedB)
  = patient detachedB
  /\ pendingOperations
       (handleSave {| storageDelete := fun _ _ => true; updatePatientOk := false;
                      keepEditing := false |} (Some "c1"%string) detachedB)
     = [OpRemove 0 "b"].
Proof.
  pose proof (X14_handleSave_failure_keeps_session
                {| storageDelete := fun _ _ => true; updatePatientOk := false;
                   keepEditing := false |} (Some "c1"%string) detachedB
                eq_refl eq_refl) as H.
  simpl in H. destruct H as (Hp & _ & Hl & _). split; [exact Hp | exact Hl].
Defined.

Lemma filter_from_keep_all {A} (keep : slot A -> Z -> bool) i (h : list (slot A)) :
  (forall s j, keep s j = true) ->
  Forall (fun s => s <> Hole) h ->
  JsArray.filter_from keep i h = h.
Proof.
  intros Hk Hh. revert i. induction Hh as [|s h Hs _ IH]; intros i; [reflexivity |].
  destruct s; simpl; try congruence; now rewrite Hk, IH.
Qed.

(** X15.  With no record marked for deletion, the object Save hands to the
    persistence layer is the buffer itself, for a history without holes:
    every field and every record as the buffer holds them. *)
Theorem X15_patientToSave_is_buffer_without_marks :
  forall (s : State),
    (forall index, isRecordMarkedForDeletion (pendingOperations s) index = false) ->
    Forall (fun slot => slot <> Hole) (default [] (history (patient s))) ->
    patientToSave s = patient s.
Proof.
  intros s Hmark Hholes. unfold patientToSave.
  destruct (patient s) as [pid pname phn pidc plv ph]. simpl in *.
  f_equal. destruct ph as [h|]; [| reflexivity]. simpl in *. f_equal.
  apply filter_from_keep_all; [| exact Hholes].
  intros slot j. now rewrite Hmark.
Qed.

Lemma X15_patientToSave_is_buffer_without_marks_witness :
  patientToSave detachedB = patient detachedB.
Proof.
  refine (X15_patientToSave_is_buffer_without_marks detachedB _ _).
  - intros index. reflexivity.
  - repeat constructor; discriminate.
Defined.

(** X16.  After a Save whose save call succeeded, the snapshot is the JSON
    copy of the object that was handed to the persistence layer, the page
    has no operation pending, [isSaving] is off and the last thing the
    page did is to go to the dashboard. *)
Theorem X16_handleSave_success_resets_snapshot :
  forall (env : Env) (clinicId : option string) (s : State),
    saveAllowed clinicId s = true ->
    updatePatientOk env = true ->
    let s' := handleSave env clinicId s in
    originalPatient s' = Some (JSON_copy (patientToSave s))
    /\ persisted (events_since s s') = [patientToSave s]
    /\ pendingOperations s' = []
    /\ hasUnsavedChanges s' = false
    /\ isSaving s' = false
    /\ exists ev, trace s' = ev ++ [EvNavigate "/dashboard"].
Proof.
  intros env clinicId s Hallowed Hok. simpl.
  destruct (handleSave_events env clinicId s Hallowed)
    as (ev & tail & He & [Hpe _] & _ & Hp & _).
  destruct (handleSave_commit_summary env clinicId s Hallowed Hok)
    as (s1 & r & _ & _ & _ & Hlog).
  split; [| split; [rewrite He; simpl; now rewrite persisted_app, Hpe, Hp |
                    split; [exact Hlog |]]].
  - unfold saveAllowed in Hallowed. rewrite !andb_true_iff in Hallowed.
    destruct Hallowed as [[[H1 H2] H3] H4].
    unfold handleSave. rewrite H1, H2, H3, H4, Hok. cbn [negb orb].
    unfold commitPendingOperations. destruct (fold_left _ _ _) as [s2 r2].
    reflexivity.
  - unfold saveAllowed in Hallowed. rewrite !andb_true_iff in Hallowed.
    destruct Hallowed as [[[H1 H2] H3] H4].
    unfold handleSave. rewrite H1, H2, H3, H4, Hok. cbn [negb orb].
    unfold commitPendingOperations. destruct (fold_left _ _ _) as [s2 r2].
    simpl. repeat split. eexists. reflexivity.
Qed.

Lemma X16_handleSave_success_resets_snapshot_witness :
  originalPatient (handleSave storageDown (Some "c1"%string) detachedBMarked2)
  = Some (JSON_copy (patientToSave detachedBMarked2)).
Proof.
  exact (proj1 (X16_handleSave_success_resets_snapshot storageDown (Some "c1"%string)
                  detachedBMarked2 eq_refl eq_refl)).
Defined.

(** ** Cancel *)

(** X17.  In an open session, Cancel after the page's effect has run asks
    for confirmation exactly when the JSON text of the buffer differs from
    the snapshot's or an operation is pending, and then does nothing else;
    otherwise it goes straight to the dashboard.  [cancelDiscard] takes
    the request for confirmation back. *)
Theorem X17_handleDiscard_asks_iff_unsaved :
  forall (s : State) (snapshot : Patient),
    originalPatient s = Some snapshot ->
    showDiscardConfirmation s = false ->
    let s' := handleDiscard (checkUnsavedChanges s) in
    (JSON_copy (patient s) <> JSON_copy snapshot \/ pendingOperations s <> [] ->
       showDiscardConfirmation s' = true
       /\ trace s' = trace s
       /\ cancelDiscard s' = checkUnsavedChanges s)
    /\ (JSON_copy (patient s) = JSON_copy snapshot -> pendingOperations s = [] ->
          showDiscardConfirmation s' = false
          /\ trace s' = trace s ++ [EvNavigate "/dashboard"]).
Proof.
  intros s snapshot Ho Hshow. simpl.
  unfold handleDiscard, checkUnsavedChanges, JSON_differs. rewrite Ho. simpl.
  split.
  - intros Hdirty.
    replace (negb (bool_decide (JSON_copy (patient s) = JSON_copy snapshot))
             || (0 <? Z.of_nat (List.length (pendingOperations s)))) with true.
    + simpl. repeat split. unfold cancelDiscard. simpl.
      destruct s. simpl in *. now subst.
    + symmetry. apply orb_true_iff. destruct Hdirty as [H|H].
      * left. apply negb_true_iff. now apply bool_decide_eq_false.
      * right. destruct (pendingOperations s); [congruence | reflexivity].
  - intros Hclean Hlog. rewrite Hlog. simpl.
    rewrite bool_decide_eq_true_2 by exact Hclean. simpl. auto.
Qed.

Lemma X17_handleDiscard_asks_iff_unsaved_witness :
  showDiscardConfirmation (handleDiscard (checkUnsavedChanges detachedB)) = true
  /\ trace (handleDiscard (checkUnsavedChanges openedSession))
     = [EvNavigate "/dashboard"].
Proof.
  split.
  - refine (proj1 (proj1 (X17_handleDiscard_asks_iff_unsaved detachedB
                            (JSON_copy storedPatient) eq_refl eq_refl) _)).
    right. discriminate.
  - exact (proj2 (proj2 (X17_handleDiscard_asks_iff_unsaved openedSession
                           (JSON_copy storedPatient) eq_refl eq_refl)
                    eq_refl eq_refl)).
Defined.

(** ** The delete dialog and the dashboard *)

Module DashboardFacts.
Import Deletion Dashboard.

Lemma countDocuments_loadable h total :
  loadable h ->
  countDocuments h total
  = Returns (total + Z.of_nat (List.length (attachments (historyOnly h)))).
Proof.
  unfold attachments. simpl. intros Hl. revert total.
  induction Hl as [|s h [Hu Hn] _ IH]; intros total; simpl.
  - now rewrite Z.add_0_r.
  - destruct s; try congruence; simpl.
    + apply IH.
    + rewrite IH, length_app. f_equal. lia.
Qed.

Lemma attachments_history p h :
  history p = Some h -> attachments p = attachments (historyOnly h).
Proof. unfold attachments. now intros ->. Qed.

Lemma totalDocuments_loadable p :
  loadable (default [] (history p)) ->
  totalDocuments p = Returns (Z.of_nat (List.length (attachments p))).
Proof.
  intros Hl. unfold totalDocuments.
  destruct (history p) as [h|] eqn:Hh.
  - rewrite (countDocuments_loadable h 0 Hl), (attachments_history p h Hh). reflexivity.
  - unfold attachments. now rewrite Hh.
Qed.

(** X18.  The number of documents the delete dialog announces is the number
    of attachment references the records of the patient carry, for a
    history without [undefined] and [null] entries; a patient without a
    history has none. *)
Theorem X18_totalDocuments_counts_attachments :
  forall (p : Patient),
    loadable (default [] (history p)) ->
    totalDocuments p = Returns (Z.of_nat (List.length (attachments p))).
Proof.
  intros p Hl. now apply totalDocuments_loadable.
Qed.

Lemma X18_totalDocuments_counts_attachments_witness :
  totalDocuments storedPatient = Returns 3.
Proof.
  refine (X18_totalDocuments_counts_attachments storedPatient _).
  repeat constructor; discriminate.
Defined.

Lemma dense_loadable (h : list (slot IHistoryRecord)) : dense h -> loadable h.
Proof.
  unfold dense, loadable. apply List.Forall_impl.
  intros s Hs. split; intros ->; discriminate.
Qed.

Lemma set_in_dense (h1 h2 : list (slot IHistoryRecord)) record record' i :
  dense (h1 ++ Elem record :: h2) ->
  List.length h1 = Z.to_nat i -> 0 <= i ->
  set (spread (h1 ++ Elem record :: h2)) i (Elem record')
  = h1 ++ Elem record' :: h2.
Proof.
  intros Hd Hlen Hi. rewrite (spread_dense _ Hd). unfold set.
  replace (i <? 0) with false by (symmetry; apply Z.ltb_ge; lia).
  replace (i <? JsArray.length (h1 ++ Elem record :: h2)) with true.
  2:{ symmetry. apply Z.ltb_lt. unfold JsArray.length. rewrite length_app. simpl. lia. }
  rewrite <- Hlen. apply replace_at_split.
Qed.

Lemma attachments_split (h1 h2 : list (slot IHistoryRecord)) record :
  List.length (attachments (historyOnly (h1 ++ Elem record :: h2)))
  = (List.length (attachments (historyOnly h1))
     + List.length (default [] (document_urls record))
     + List.length (attachments (historyOnly h2)))%nat.
Proof.
  unfold attachments. simpl. rewrite flat_map_app. simpl.
  rewrite !length_app. lia.
Qed.

Lemma dense_replace (h1 h2 : list (slot IHistoryRecord)) record record' :
  dense (h1 ++ Elem record :: h2) -> dense (h1 ++ Elem record' :: h2).
Proof.
  intros H. apply dense_app in H. destruct H as [H1 H2].
  apply dense_app. split; [exact H1 |].
  inversion H2; subst. now constructor.
Qed.

(** X19.  On a history whose slots all hold records, linking a document
    into a record raises the number of documents the delete dialog
    announces by one, and unlinking one of its documents lowers it by
    one. *)
Theorem X19_totalDocuments_follows_links :
  forall (recordIndex : Z) (url : string) (prev : Patient)
         (h : list (slot IHistoryRecord)) (record : IHistoryRecord),
    history prev = Some h ->
    dense h ->
    get h recordIndex = Elem record ->
    exists n,
      totalDocuments prev = Returns n
      /\ totalDocuments (onAddDocument recordIndex url prev) = Returns (n + 1)
      /\ forall documentIndex urls,
           document_urls record = Some urls ->
           0 <= documentIndex < Z.of_nat (List.length urls) ->
           totalDocuments (onRemoveDocument recordIndex documentIndex prev)
           = Returns (n - 1).
Proof.
  intros recordIndex url prev h record Hh Hd Hget.
  pose proof (get_elem_in_range _ _ _ Hget) as Hi.
  destruct (get_elem_split h recordIndex record Hget) as (h1 & h2 & Hsplit & Hlen).
  subst h.
  exists (Z.of_nat (List.length (attachments prev))). split; [| split].
  - apply totalDocuments_loadable. rewrite Hh. now apply dense_loadable.
  - rewrite (onAddDocument_set recordIndex url prev _ record Hh Hget).
    rewrite set_in_dense by (auto; lia).
    unfold totalDocuments. simpl.
    rewrite countDocuments_loadable
      by (apply dense_loadable; eapply dense_replace; exact Hd).
    rewrite (attachments_history prev _ Hh), !attachments_split. simpl.
    rewrite length_app. simpl. f_equal. lia.
  - intros documentIndex urls Hurls Hdoc.
    rewrite (onRemoveDocument_set recordIndex documentIndex prev _ record urls
               Hh Hget Hurls Hdoc).
    rewrite set_in_dense by (auto; lia).
    unfold totalDocuments. simpl.
    rewrite countDocuments_loadable
      by (apply dense_loadable; eapply dense_replace; exact Hd).
    rewrite (attachments_history prev _ Hh), !attachments_split. simpl.
    rewrite Hurls. simpl.
    rewrite length_app, length_firstn, length_skipn. f_equal. lia.
Qed.

Lemma X19_totalDocuments_follows_links_witness :
  exists n,
    totalDocuments storedPatient = Returns n
    /\ totalDocuments (onAddDocument 0 "d" storedPatient) = Returns (n + 1)
    /\ totalDocuments (onRemoveDocument 0 1 storedPatient) = Returns (n - 1).
Proof.
  destruct (X19_totalDocuments_follows_links 0 "d" storedPatient
              [Elem record1; Elem record2] record1 eq_refl) as (n & H1 & H2 & H3).
  - repeat constructor.
  - reflexivity.
  - exists n. split; [exact H1 |]. split; [exact H2 |].
    apply (H3 1 ["a"; "b"]%string eq_refl). simpl. lia.
Defined.

(** X20.  Pressing "Delete Permanently" with a patient in the dialog and a
    clinic selected dispatches one delete request, for that patient and
    clinic and with the state of the force checkbox.  When the request is
    fulfilled the dashboard closes the dialog and refetches the current
    page (the first one if none is known) and the dialog is back at its
    first step; when it is rejected the dashboard keeps the dialog open on
    the same patient, refetches nothing, and the dialog shows the error at
    the confirmation step with the checkbox as it was. *)
Theorem X20_pressDelete_outcomes :
  forall (thunk : DeleteRequest -> Outcome unit) (b : Board) (d : Dialog)
         (p : Patient) (clinic : string),
    dialogPatient b = Some p ->
    selectedClinic b = Some clinic ->
    let req := {| clinicId := clinic; patientId := default "" (_id p);
                  forceDelete := forceDeleteChecked d |} in
    (thunk req = Returns tt ->
       pressDelete thunk b d
       = ({| dialogOpen := false; dialogPatient := None;
             selectedClinic := selectedClinic b; clinics := clinics b;
             searchTerm := searchTerm b; currentPage := currentPage b;
             dispatched := dispatched b
                             ++ [DeletePatient req;
                                 ChangePage clinic (pageOrFirst (currentPage b))] |},
          {| step := initial; forceDeleteChecked := forceDeleteChecked d;
             deleteResult := deleteResult d |}))
    /\ (forall e, thunk req = Throws e ->
          pressDelete thunk b d
          = ({| dialogOpen := dialogOpen b; dialogPatient := Some p;
                selectedClinic := selectedClinic b; clinics := clinics b;
                searchTerm := searchTerm b; currentPage := currentPage b;
                dispatched := dispatched b ++ [DeletePatient req] |},
             {| step := confirmation; forceDeleteChecked := forceDeleteChecked d;
                deleteResult := Some (false, e) |})).
Proof.
  intros thunk b d p clinic Hp Hc. simpl.
  unfold pressDelete, confirmDeletePatientOn, handleConfirm, confirmDeletePatient.
  rewrite Hp, Hc. split.
  - intros Hok. rewrite Hok. unfold dispatch, closeDeleteDialog. simpl.
    rewrite <- ?app_assoc, ?Hc. reflexivity.
  - intros e Hko. rewrite Hko. unfold dispatch. simpl. rewrite ?Hp, ?Hc. reflexivity.
Qed.

Lemma X20_pressDelete_outcomes_witness :
  pressDelete (fun _ => Throws "storage failed")
    {| dialogOpen := true; dialogPatient := Some storedPatient;
       selectedClinic := Some "c1"%string; clinics := ["c1"%string];
       searchTerm := ""; currentPage := None; dispatched := [] |}
    {| step := confirmation; forceDeleteChecked := true; deleteResult := None |}
  = ({| dialogOpen := true; dialogPatient := Some storedPatient;
        selectedClinic := Some "c1"%string; clinics := ["c1"%string];
        searchTerm := ""; currentPage := None;
        dispatched := [DeletePatient (sampleRequest true)] |},
     {| step := confirmation; forceDeleteChecked := true;
        deleteResult := Some (false, "storage failed"%string) |}).
Proof.
  exact (proj2 (X20_pressDelete_outcomes (fun _ => Throws "storage failed")
                  {| dialogOpen := true; dialogPatient := Some storedPatient;
                     selectedClinic := Some "c1"%string; clinics := ["c1"%string];
                     searchTerm := ""; currentPage := None; dispatched := [] |}
                  {| step := confirmation; forceDeleteChecked := true;
                     deleteResult := None |}
                  storedPatient "c1" eq_refl eq_refl)
           "storage failed"%string eq_refl).
Defined.

(** X21.  Without a patient in the dialog or without a selected clinic,
    pressing "Delete Permanently" dispatches nothing and leaves the
    dashboard as it is; the dialog goes back to its first step as after a
    deletion. *)
Theorem X21_pressDelete_without_target :
  forall (thunk : DeleteRequest -> Outcome unit) (b : Board) (d : Dialog),
    dialogPatient b = None \/ selectedClinic b = None ->
    pressDelete thunk b d
    = (b, {| step := initial; forceDeleteChecked := forceDeleteChecked d;
             deleteResult := deleteResult d |}).
Proof.
  intros thunk b d H.
  unfold pressDelete, confirmDeletePatientOn, handleConfirm, confirmDeletePatient.
  destruct H as [H|H]; rewrite H; [reflexivity |].
  destruct (dialogPatient b); reflexivity.
Qed.

Lemma X21_pressDelete_without_target_witness :
  pressDelete (fun _ => Returns tt)
    {| dialogOpen := true; dialogPatient := Some storedPatient;
       selectedClinic := None; clinics := []; searchTerm := "";
       currentPage := None; dispatched := [] |}
    closedDialog
  = ({| dialogOpen := true; dialogPatient := Some storedPatient;
        selectedClinic := None; clinics := []; searchTerm := "";
        currentPage := None; dispatched := [] |},
     closedDialog).
Proof.
  refine (X21_pressDelete_without_target (fun _ => Returns tt) _ closedDialog _).
  right. reflexivity.
Defined.

(** X22.  Changing the clinic on the dashboard never selects a clinic that
    is not in the list.  For a known clinic the patients are cleared, the
    search term is emptied, the clinic is selected and its patients are
    fetched; for an unknown one the patients are cleared and the search
    term is emptied all the same, the selection stays and nothing is
    fetched; an empty id does nothing. *)
Theorem X22_handleClinicChange_cases :
  forall (clinic : string) (b : Board),
    (clinic = ""%string -> handleClinicChange clinic b = b)
    /\ (clinic <> ""%string -> In clinic (clinics b) ->
          selectedClinic (handleClinicChange clinic b) = Some clinic
          /\ searchTerm (handleClinicChange clinic b) = ""%string
          /\ dispatched (handleClinicChange clinic b)
             = dispatched b ++ [ClearPatients; SetSelectedClinic clinic;
                                FetchPatientsWithPagination clinic])
    /\ (clinic <> ""%string -> ~ In clinic (clinics b) ->
          selectedClinic (handleClinicChange clinic b) = selectedClinic b
          /\ searchTerm (handleClinicChange clinic b) = ""%string
          /\ dispatched (handleClinicChange clinic b) = dispatched b ++ [ClearPatients]).
Proof.
  intros clinic b. unfold handleClinicChange. split; [| split].
  - intros ->. reflexivity.
  - intros Hne Hin. apply String.eqb_neq in Hne. rewrite Hne. simpl.
    replace (existsb (String.eqb clinic) (clinics b)) with true.
    + unfold dispatch. simpl. rewrite <- ?app_assoc. auto.
    + symmetry. apply existsb_exists. exists clinic. split; [exact Hin |].
      apply String.eqb_refl.
  - intros Hne Hnin. apply String.eqb_neq in Hne. rewrite Hne. simpl.
    replace (existsb (String.eqb clinic) (clinics b)) with false.
    + simpl. auto.
    + symmetry. apply not_true_is_false. intros H. apply existsb_exists in H.
      destruct H as (c & Hin & Heq). apply String.eqb_eq in Heq. now subst.
Qed.

Lemma X22_handleClinicChange_cases_witness :
  selectedClinic
    (handleClinicChange "c9"
       {| dialogOpen := false; dialogPatient := None;
          selectedClinic := Some "c1"%string; clinics := ["c1"; "c2"]%string;
          searchTerm := "som"; currentPage := Some 2; dispatched := [] |})
  = Some "c1"%string
  /\ selectedClinic
       (handleClinicChange "c2"
          {| dialogOpen := false; dialogPatient := None;
             selectedClinic := Some "c1"%string; clinics := ["c1"; "c2"]%string;
             searchTerm := "som"; currentPage := Some 2; dispatched := [] |})
     = Some "c2"%string.
Proof.
  split.
  - refine (proj1 (proj2 (proj2 (X22_handleClinicChange_cases "c9" _)) _ _)).
    + discriminate.
    + simpl. intros [H|[H|[]]]; discriminate.
  - refine (proj1 (proj1 (proj2 (X22_handleClinicChange_cases "c2" _)) _ _)).
    + discriminate.
    + simpl. auto.
Defined.

End DashboardFacts.

(** ** The upload route *)

Module UploadFacts.
Import Upload.

(** X23.  The upload route answers 200 exactly when it reports success, and
    400, 404 or 500 otherwise.  A success means the upload was made with
    the options built from the form and reported success itself; the
    response then carries the upload's result, the size and type of the
    file and as its name the original filename of the form, or the file's
    own name when the form gives none or an empty one. *)
Theorem X23_route_success_iff_uploaded :
  forall (svc : Services) (form : Form),
    let resp := fst (handleForm svc form) in
    let calls := snd (handleForm svc form) in
    (status resp = 200 <-> success resp = true)
    /\ In (status resp) [200; 400; 404; 500]
    /\ (success resp = true ->
          exists f options result,
            file form = Some f
            /\ In (CallUpload options) calls
            /\ uploadToCloudinary svc options = Returns result
            /\ uploaded result = true
            /\ optFilename options
               = default (fileName f) (orUndefined (originalFilename form))
            /\ responseFile resp
               = Some {| resultOf := result;
                         respOriginalFilename :=
                           default (fileName f) (orUndefined (originalFilename form));
                         respSize := fileSize f;
                         respType := fileType f |}).
Proof.
  intros svc form. simpl. unfold handleForm.
  destruct (file form) as [f|]; simpl;
    [| split; [split; discriminate | split; [auto | discriminate]]].
  destruct (orUndefined (clinicId form)) as [cid|]; simpl;
    [| split; [split; discriminate | split; [auto | discriminate]]].
  destruct (isValidObjectId svc cid); simpl;
    [| split; [split; discriminate | split; [auto | discriminate]]].
  destruct (dbConnect svc); simpl;
    [| split; [split; discriminate | split; [auto 6 | discriminate]]].
  destruct (findClinicById svc cid) as [[clinicName|]|]; simpl;
    [| split; [split; discriminate | split; [auto 6 | discriminate]]
     | split; [split; discriminate | split; [auto 6 | discriminate]]].
  match goal with |- context [uploadToCloudinary svc ?o] => set (options := o) end.
  destruct (uploadToCloudinary svc options) as [result|] eqn:Hup; simpl;
    [| split; [split; discriminate | split; [auto 6 | discriminate]]].
  destruct (uploaded result) eqn:Hok; simpl;
    [| split; [split; discriminate | split; [auto 6 | discriminate]]].
  split; [split; reflexivity |]. split; [auto |].
  intros _. exists f, options, result.
  split; [reflexivity |]. split.
  - right. right. left. reflexivity.
  - repeat split; auto.
Qed.

Lemma X23_route_success_iff_uploaded_witness :
  exists f options result,
    file sampleForm = Some f
    /\ In (CallUpload options) (snd (handleForm sampleServices sampleForm))
    /\ uploadToCloudinary sampleServices options = Returns result
    /\ uploaded result = true
    /\ optFilename options = "report.pdf"%string
    /\ responseFile (fst (handleForm sampleServices sampleForm))
       = Some {| resultOf := result; respOriginalFilename := "report.pdf";
                 respSize := 1024; respType := "application/pdf" |}.
Proof.
  destruct (proj2 (proj2 (X23_route_success_iff_uploaded sampleServices sampleForm))
              eq_refl) as (f & options & result & Hf & Hin & Hup & Hok & Hname & Hresp).
  exists f, options, result. inversion Hf; subst f.
  repeat split; assumption.
Defined.

(** X24.  The route uploads nothing unless the form holds a file, its
    clinic id is valid and the clinic exists, and it stores metadata only
    after an upload that succeeded: without a file or with a missing,
    empty or invalid clinic id it answers 400 without calling any
    collaborator. *)
Theorem X24_route_checks_before_effects :
  forall (svc : Services) (form : Form),
    let resp := fst (handleForm svc form) in
    let calls := snd (handleForm svc form) in
    (file form = None
     \/ orUndefined (clinicId form) = None
     \/ (exists c, clinicId form = Some c /\ isValidObjectId svc c = false) ->
       status resp = 400 /\ calls = [])
    /\ (forall options, In (CallUpload options) calls ->
          exists f,
            file form = Some f
            /\ orUndefined (clinicId form) = Some (optClinicId options)
            /\ isValidObjectId svc (optClinicId options) = true
            /\ findClinicById svc (optClinicId options)
               = Returns (Some (optClinicName options)))
    /\ (forall m, In (CallCreateMetadata m) calls -> status resp = 200)
    /\ POST svc (Returns form) = handleForm svc form
    /\ (forall msg,
          POST svc (Throws msg) = (failure 500 (Some "File upload failed"%string), [])).
Proof.
  intros svc form. simpl.
  split; [| split; [| split; [| split; [reflexivity | intros; reflexivity]]]];
    unfold handleForm.
  - intros [H|[H|(c & Hc & Hv)]].
    + rewrite H. auto.
    + rewrite H. destruct (file form); auto.
    + destruct (file form); [| auto].
      unfold orUndefined. rewrite Hc.
      destruct (String.eqb c ""); [auto |]. rewrite Hv. auto.
  - intros options.
    destruct (file form) as [f|]; simpl; [| tauto].
    destruct (orUndefined (clinicId form)) as [cid|]; simpl; [| tauto].
    destruct (isValidObjectId svc cid) eqn:Hv; simpl; [| tauto].
    destruct (dbConnect svc); simpl; [| intros [H|[]]; discriminate].
    destruct (findClinicById svc cid) as [[clinicName|]|] eqn:Hf; simpl;
      try (intros [H|[H|[]]]; discriminate).
    match goal with |- context [uploadToCloudinary svc ?o] => set (opts := o) end.
    assert (Hopt : forall rest,
               (forall x, In x rest -> forall o, x <> CallUpload o) ->
               In (CallUpload options)
                 ([CallDbConnect; CallFindClinic cid; CallUpload opts] ++ rest) ->
               exists f0,
                 Some f = Some f0 /\ Some cid = Some (optClinicId options)
                 /\ isValidObjectId svc (optClinicId options) = true
                 /\ findClinicById svc (optClinicId options)
                    = Returns (Some (optClinicName options))).
    { intros rest Hrest Hin. simpl in Hin.
      destruct Hin as [H|[H|[H|H]]]; try discriminate.
      - inversion H; subst options. exists f. simpl. auto.
      - exfalso. exact (Hrest _ H options eq_refl). }
    destruct (uploadToCloudinary svc opts) as [result|]; simpl.
    + destruct (uploaded result); simpl.
      * apply Hopt. intros x Hx o.
        destruct (createMetadata svc _); simpl in Hx;
          repeat (destruct Hx as [<-|Hx]; [discriminate |]); destruct Hx.
      * intros Hin. apply (Hopt []); [intros x [] | now rewrite app_nil_r].
    + intros Hin. apply (Hopt []); [intros x [] | now rewrite app_nil_r].
  - intros m.
    destruct (file form) as [f|]; simpl; [| tauto].
    destruct (orUndefined (clinicId form)) as [cid|]; simpl; [| tauto].
    destruct (isValidObjectId svc cid); simpl; [| tauto].
    destruct (dbConnect svc); simpl; [| intros [H|[]]; discriminate].
    destruct (findClinicById svc cid) as [[clinicName|]|]; simpl;
      try (intros [H|[H|[]]]; discriminate).
    destruct (uploadToCloudinary svc _) as [result|]; simpl;
      try (intros [H|[H|[H|[]]]]; discriminate).
    destruct (uploaded result); simpl; [reflexivity |].
    intros [H|[H|[H|[]]]]; discriminate.
Qed.

Lemma X24_route_checks_before_effects_witness :
  status (fst (handleForm sampleServices
                 {| file := file sampleForm; clinicId := Some "c7"%string;
                    patientId := None; originalFilename := None |}))
  = 400
  /\ snd (handleForm sampleServices
            {| file := file sampleForm; clinicId := Some "c7"%string;
               patientId := None; originalFilename := None |})
     = [].
Proof.
  refine (proj1 (X24_route_checks_before_effects sampleServices
                   {| file := file sampleForm; clinicId := Some "c7"%string;
                      patientId := None; originalFilename := None |}) _).
  right. right. exists "c7"%string. split; reflexivity.
Defined.

(** X25.  Whether storing the file's metadata succeeds or throws makes no
    difference to the response of the route. *)
Theorem X25_route_ignores_metadata_failure :
  forall (svc : Services) (create' : Metadata -> Outcome unit) (form : Form),
    fst (handleForm svc form)
    = fst (handleForm
             {| isValidObjectId := isValidObjectId svc; dbConnect := dbConnect svc;
                findClinicById := findClinicById svc;
                uploadToCloudinary := uploadToCloudinary svc;
                createMetadata := create' |} form).
Proof.
  intros svc create' form. unfold handleForm. simpl.
  destruct (file form) as [f|]; [| reflexivity].
  destruct (orUndefined (clinicId form)) as [cid|]; [| reflexivity].
  destruct (isValidObjectId svc cid); [| reflexivity]. simpl.
  destruct (dbConnect svc); [| reflexivity].
  destruct (findClinicById svc cid) as [[clinicName|]|]; try reflexivity.
  destruct (uploadToCloudinary svc _) as [result|]; [| reflexivity].
  destruct (uploaded result); reflexivity.
Qed.

End UploadFacts.

(** ** The add-patient page *)

Module AddPatientFacts.
Import AddPatient.

(** X26.  Submitting the add form calls the store exactly when the clinic
    id and the name are present and not empty, once, with the name and id
    number as typed, the hospital number proposed by the page whatever
    the form holds, and no last visit when that input is empty.  The page
    goes to the dashboard only after a call that succeeded; a refused
    submission only alerts. *)
Theorem X26_handleSubmit_cases :
  forall (clinicId nextHNCode : option string) (addPatientOk : bool) (patient : Draft),
    let effects := handleSubmit clinicId nextHNCode addPatientOk patient in
    ((exists c data, In (AddPatientCall c data) effects)
     <-> (exists c, clinicId = Some c /\ c <> ""%string)
         /\ draftName patient <> ""%string)
    /\ (forall c data, In (AddPatientCall c data) effects ->
          clinicId = Some c
          /\ effects = AddPatientCall c data
                         :: (if addPatientOk then [Navigate "/dashboard"]
                             else [Alert "Failed to add patient. Please try again."])
          /\ subName data = draftName patient
          /\ subID_code data = draftID_code patient
          /\ subHN_code data = nextHNCode
          /\ (subLastVisit data = None <-> draftLastVisit patient = ""%string))
    /\ (In (Navigate "/dashboard") effects <->
          addPatientOk = true /\ exists c data, In (AddPatientCall c data) effects).
Proof.
  intros clinicId nextHNCode addPatientOk patient. simpl. unfold handleSubmit.
  destruct clinicId as [c|].
  2:{ split; [| split].
      - split; [intros (c & d & [H|[]]); discriminate | intros [(c & H & _) _]; discriminate].
      - intros c d [H|[]]. discriminate.
      - split; [intros [H|[]]; discriminate | intros [_ (c & d & [H|[]])]; discriminate]. }
  destruct (String.eqb c "") eqn:Hc.
  { apply String.eqb_eq in Hc. subst c. split; [| split].
    - split; [intros (c & d & [H|[]]); discriminate |].
      intros [(c & H & Hne) _]. inversion H. congruence.
    - intros c d [H|[]]. discriminate.
    - split; [intros [H|[]]; discriminate | intros [_ (c & d & [H|[]])]; discriminate]. }
  apply String.eqb_neq in Hc.
  destruct (String.eqb (draftName patient) "") eqn:Hn.
  { apply String.eqb_eq in Hn. split; [| split].
    - split; [intros (c' & d & [H|[]]); discriminate |]. intros [_ H]. congruence.
    - intros c' d [H|[]]. discriminate.
    - split; [intros [H|[]]; discriminate | intros [_ (c' & d & [H|[]])]; discriminate]. }
  apply String.eqb_neq in Hn.
  assert (Hlast : forall l,
             (if String.eqb l "" then None else Some l) = None <-> l = ""%string).
  { intros l. destruct (String.eqb l "") eqn:E.
    - apply String.eqb_eq in E. tauto.
    - apply String.eqb_neq in E. split; [discriminate | tauto]. }
  destruct addPatientOk; (split; [| split]).
  - split; [intros _; split; [exists c; auto | exact Hn] |].
    intros _. do 2 eexists. left. reflexivity.
  - intros c' d [H|[H|[]]]; [| discriminate]. inversion H; subst c' d. simpl.
    repeat split; auto; apply Hlast.
  - split; [| simpl; auto].
    intros _. split; [reflexivity |]. do 2 eexists. left. reflexivity.
  - split; [intros _; split; [exists c; auto | exact Hn] |].
    intros _. do 2 eexists. left. reflexivity.
  - intros c' d [H|[H|[]]]; [| discriminate]. inversion H; subst c' d. simpl.
    repeat split; auto; apply Hlast.
  - split; [intros [H|[H|[]]]; discriminate | intros [H _]; discriminate].
Qed.

Lemma X26_handleSubmit_cases_witness :
  handleSubmit (Some "c1"%string) (Some "HN002"%string) true sampleDraft
  = [AddPatientCall "c1"
       {| subName := "Somchai"; subID_code := ""; subHN_code := Some "HN002"%string;
          subLastVisit := None |};
     Navigate "/dashboard"].
Proof.
  refine (proj1 (proj2 (proj1 (proj2 (X26_handleSubmit_cases (Some "c1"%string)
                                        (Some "HN002"%string) true sampleDraft))
                          "c1"%string
                          {| subName := "Somchai"; subID_code := "";
                             subHN_code := Some "HN002"%string;
                             subLastVisit := None |} _))).
  left. reflexivity.
Defined.

End AddPatientFacts.

(** ** Loading a history that is already in order *)

(** X27.  Loading a stored patient whose history holds a record in every
    slot and is already in descending order of timestamp puts the stored
    patient into the buffer as it is: the sort keeps the records, those
    with equal timestamps included, in the order of the store. *)
Theorem X27_loadPatient_keeps_sorted_history :
  forall (fromStore : Patient) (s0 : State) (h : list (slot IHistoryRecord)),
    history fromStore = Some h ->
    dense h ->
    descending h ->
    exists s, loadPatient fromStore s0 = Returns s /\ patient s = fromStore.
Proof.
  intros fromStore s0 h Hh Hdense Hd.
  unfold loadPatient. rewrite Hh.
  rewrite processHistory_loadable by now apply DashboardFacts.dense_loadable.
  simpl. rewrite (spread_dense h Hdense), (sort_dense h Hdense),
    (sort_values_sorted h Hdense Hd). simpl.
  eexists. split; [reflexivity |]. simpl.
  destruct fromStore as [pid pname phn pidc plv ph]. simpl in *. now subst ph.
Qed.

Lemma X27_loadPatient_keeps_sorted_history_witness :
  exists s, loadPatient storedPatient initialState = Returns s /\ patient s = storedPatient.
Proof.
  refine (X27_loadPatient_keeps_sorted_history storedPatient initialState
            [Elem record1; Elem record2] eq_refl _ _).
  - repeat constructor.
  - unfold descending. simpl. repeat constructor. unfold record1, record2. simpl. lia.
Defined.
